(** * Framed messages of receptor: wire frames, spooled buffers,
      message production and stream reassembly.

    A shallow embedding of [receptor/messages/framed.py].  Python integers
    are [Z], [bytes] values are lists of [byte], file objects are a content
    plus a position, exceptions are an explicit result type, and the
    asyncio queue of completed messages is a list used first-in first-out. *)

From Stdlib Require Import ZArith List Lia Bool.
From Stdlib Require Import Strings.Byte Strings.String.
Import ListNotations.
Open Scope Z_scope.

(** ** Python values shared by all classes *)

Definition bytes := list byte.

(** The exceptions the module can raise or let through. *)
Inductive exn : Set :=
| StructError        (* struct.error *)
| ValueError         (* ValueError: bad enum value, bad byte value, negative len *)
| EncodeError        (* the serde module failed to encode a value *)
| DecodeError        (* the serde module failed to decode bytes *)
| AttributeError     (* attribute access on None *)
| QueueEmpty         (* asyncio.QueueEmpty *)
| UnknownFrameType.  (* Exception("Unknown Frame Type") *)

Inductive result (A : Type) : Type :=
| Ok (a : A)
| Raise (e : exn).
Arguments Ok {A} a.
Arguments Raise {A} e.

Definition bind {A B} (r : result A) (k : A -> result B) : result B :=
  match r with
  | Ok a => k a
  | Raise e => Raise e
  end.

Notation "x <- r ;; k" := (bind r (fun x => k))
  (at level 61, r at next level, right associativity).

(** [len(data)] of a bytes object. *)
Definition len (data : bytes) : Z := Z.of_nat (List.length data).

(** [data[:n]] and [data[n:]] with Python's treatment of a negative bound
    (counted from the end, clamped at the start). *)
Definition slice_to (data : bytes) (n : Z) : bytes :=
  if n <? 0 then firstn (Z.to_nat (len data + n)) data
  else firstn (Z.to_nat n) data.

Definition slice_from (data : bytes) (n : Z) : bytes :=
  if n <? 0 then skipn (Z.to_nat (len data + n)) data
  else skipn (Z.to_nat n) data.

Definition is_empty (data : bytes) : bool :=
  match data with
  | [] => true
  | _ :: _ => false
  end.

(** ** The [struct] module, as far as the format [">ccIIQQ"] needs it *)

Module Struct.

Definition byte_of_Z (z : Z) : byte :=
  match Byte.of_N (Z.to_N (z mod 256)) with
  | Some b => b
  | None => x00
  end.

Definition Z_of_byte (b : byte) : Z := Z.of_N (Byte.to_N b).

(** The [n] low-order bytes of [v], most significant first. *)
Fixpoint be_bytes (n : nat) (v : Z) : bytes :=
  match n with
  | O => []
  | S k => byte_of_Z (Z.shiftr v (8 * Z.of_nat k)) :: be_bytes k v
  end.

(** The unsigned value of a big-endian byte string. *)
Definition be_value (l : bytes) : Z :=
  fold_left (fun acc b => acc * 256 + Z_of_byte b) l 0.

(** [bytes([x])]: one byte, [ValueError] outside [range(256)]. *)
Definition bytes_of_int (x : Z) : result byte :=
  if (0 <=? x) && (x <? 256) then Ok (byte_of_Z x) else Raise ValueError.

(** Format codes [I] and [Q]: unsigned, 4 and 8 bytes, [struct.error]
    when the argument is out of range. *)
Definition pack_uint (n : nat) (v : Z) : result bytes :=
  if (0 <=? v) && (v <? 2 ^ (8 * Z.of_nat n)) then Ok (be_bytes n v)
  else Raise StructError.

Definition pack_I := pack_uint 4.
Definition pack_Q := pack_uint 8.

End Struct.

(** ** [uuid.uuid4().int] *)

(** The operating system's entropy: the successive 128-bit values that
    [os.urandom(16)] returns, and how many were drawn so far. *)
Record World : Type := mkWorld {
  urandom : nat -> Z;
  drawn : nat
}.

(** [UUID(bytes=..., version=4).int]: the variant bits are set to [10] and
    the version nibble to [4]. *)
Definition uuid4_of_random (r : Z) : Z :=
  let i := r mod 2 ^ 128 in
  let i := Z.land i (Z.lnot (Z.shiftl 0xc000 48)) in
  let i := Z.lor i (Z.shiftl 0x8000 48) in
  let i := Z.land i (Z.lnot (Z.shiftl 0xf000 64)) in
  Z.lor i (Z.shiftl 4 76).

Definition uuid4 (w : World) : Z * World :=
  (uuid4_of_random (urandom w (drawn w)), mkWorld (urandom w) (S (drawn w))).

(** ** class Frame *)

Definition MAX_INT64 : Z := 2 ^ 64 - 1.

(** Splits a 128 bit int into two 64 bit words for binary encoding. *)
Definition split_uuid (data : Z) : Z * Z :=
  (Z.land (Z.shiftr data 64) MAX_INT64, Z.land data MAX_INT64).

(** Joins two 64 bit words into a 128bit int from binary encoding. *)
Definition join_uuid (hi lo : Z) : Z := Z.lor (Z.shiftl hi 64) lo.

Module Frame.

(** [Frame.Types], an [IntEnum]. *)
Module Types.
Definition HEADER : Z := 0.
Definition PAYLOAD : Z := 1.
Definition COMMAND : Z := 2.

(** [x in Frame.Types] *)
Definition mem (x : Z) : bool :=
  (x =? HEADER) || (x =? PAYLOAD) || (x =? COMMAND).

(** [Frame.Types(x)]: the member of that value, [ValueError] if none. *)
Definition of_int (x : Z) : result Z :=
  if mem x then Ok x else Raise ValueError.
End Types.

(** [struct.Struct(">ccIIQQ").size] *)
Definition fmt_size : nat := 26.

Record t : Type := mk {
  type_ : Z;
  version : Z;
  length : Z;
  msg_id : Z;
  id_ : Z
}.

Definition serialize (self : t) : result bytes :=
  c_type <- Struct.bytes_of_int (type_ self) ;;
  c_version <- Struct.bytes_of_int (version self) ;;
  let (hi, lo) := split_uuid (msg_id self) in
  b_id <- Struct.pack_I (id_ self) ;;
  b_length <- Struct.pack_I (length self) ;;
  b_hi <- Struct.pack_Q hi ;;
  b_lo <- Struct.pack_Q lo ;;
  Ok ([c_type; c_version] ++ b_id ++ b_length ++ b_hi ++ b_lo).

Definition deserialize (buf : bytes) : result t :=
  match buf with
  | t :: v :: rest =>
      if Nat.eqb (List.length buf) fmt_size then
        let i := Struct.be_value (firstn 4 rest) in
        let length := Struct.be_value (firstn 4 (skipn 4 rest)) in
        let hi := Struct.be_value (firstn 8 (skipn 8 rest)) in
        let lo := Struct.be_value (firstn 8 (skipn 16 rest)) in
        let msg_id := join_uuid hi lo in
        ty <- Types.of_int (Struct.Z_of_byte t) ;;
        Ok (mk ty (Struct.Z_of_byte v) length msg_id i)
      else Raise StructError
  | _ => Raise StructError
  end.

Definition from_data (data : bytes) : result (t * bytes) :=
  frame <- deserialize (firstn fmt_size data) ;;
  Ok (frame, skipn fmt_size data).

(** [wrap(data, type_, msg_id)]; [data_len] is [len(data)], and [msg_id]
    is [None] when the argument is omitted.  [not msg_id] holds for
    [None] and for [0]. *)
Definition wrap (data_len : Z) (type_ : Z) (msg_id : option Z) (w : World)
  : t * World :=
  let (msg_id, w) :=
    match msg_id with
    | None => uuid4 w
    | Some m => if m =? 0 then uuid4 w else (m, w)
    end in
  (mk type_ 1 data_len msg_id 1, w).

End Frame.

(** ** The serde collaborator *)

(** The values a header can hold; Python's [None] is [JNull] and a mapping
    is [JDict]. *)
#[local] Unset Elimination Schemes.
Inductive json : Type :=
| JNull
| JBool (b : bool)
| JNum (z : Z)
| JStr (s : string)
| JList (l : list json)
| JDict (kvs : list (string * json)).
#[local] Set Elimination Schemes.

(** [receptor.serde], imported as [json], is not among the sources at
    hand; the engine uses it as a black box, so it is a parameter here:
    [dumps(value).encode("utf-8")], and [load(fp)] applied to what
    [fp.read()] returns.  Both may raise. *)
Class Serde : Type := {
  dumps : json -> result bytes;
  load : bytes -> result json
}.

(** ** File objects *)

(** A binary file object (a temporary file or an [io.BytesIO]): what it
    holds and where its position is. *)
Record File : Type := mkFile {
  content : bytes;
  pos : nat
}.

(** [fp.write(data)]: overwrites from the position on, extends the file as
    needed (a gap left by a seek past the end reads as zeros), returns the
    number of bytes written. Writing nothing changes nothing. *)
Definition file_write (f : File) (data : bytes) : File * Z :=
  match data with
  | [] => (f, 0)
  | _ :: _ =>
      let gap := repeat x00 (pos f - List.length (content f)) in
      let after := skipn (pos f + List.length data) (content f) in
      (mkFile (firstn (pos f) (content f) ++ gap ++ data ++ after)
              (pos f + List.length data),
       len data)
  end.

(** [fp.read(size)]: up to [size] bytes from the position on, all of them
    when [size] is negative.  A temporary file and an [io.BytesIO] agree
    on this for sizes from -1 to 2^31 - 1; below -1 only the [io.BytesIO]
    reads everything (the temporary file raises [ValueError]), and the
    properties that read with a size of the caller's ask for one in that
    range. *)
Definition file_read (f : File) (size : Z) : bytes * File :=
  let available := skipn (pos f) (content f) in
  let chunk := if size <? 0 then available
               else firstn (Z.to_nat size) available in
  (chunk, mkFile (content f) (pos f + List.length chunk)).

Definition file_seek (f : File) (offset : nat) : File :=
  mkFile (content f) offset.

Definition file_tell (f : File) : nat := pos f.

(** ** class FileBackedBuffer *)

(** [receptor.exceptions.ReceptorRuntimeError], with its message. *)
Inductive runtime_error : Set :=
| ReceptorRuntimeError (message : string).

(** What a caller can hand to [from_buffer]: an [io.BytesIO], or an object
    of any other type. *)
Inductive py_object : Type :=
| BytesIO (f : File)
| OtherObject.

Module FileBackedBuffer.

Record t : Type := mk {
  length : Z;
  fp : File;
  _min_chunk : Z;
  _max_chunk : Z
}.

(** [FileBackedBuffer(fp, length)] with the default chunk bounds. *)
Definition __init__ (fp : File) (length : Z) : t :=
  mk length fp (2 ^ 12) (2 ^ 20).

(** A [NamedTemporaryFile] is a new, empty file. *)
Definition from_temp : t := __init__ (mkFile [] 0) 0.

(** [from_buffer(buffered_io)]: [getbuffer().nbytes] is the size of what
    the [io.BytesIO] holds. *)
Definition from_buffer (buffered_io : py_object) : t + runtime_error :=
  match buffered_io with
  | BytesIO f => inl (__init__ f (len (content f)))
  | OtherObject =>
      inr (ReceptorRuntimeError "buffer must be of type io.BytesIO")
  end.

(** Returns a chunksize to be used when reading the data. *)
Definition chunksize (self : t) : Z :=
  Z.min (_max_chunk self) (Z.max (_min_chunk self) (length self / 1024)).

Definition write (self : t) (data : bytes) : t * Z :=
  let (fp', written) := file_write (fp self) data in
  (mk (length self + written) fp' (_min_chunk self) (_max_chunk self),
   written).

Definition seek (self : t) (offset : nat) : t :=
  mk (length self) (file_seek (fp self) offset)
     (_min_chunk self) (_max_chunk self).

Definition read (self : t) (size : Z) : bytes * t :=
  let (chunk, fp') := file_read (fp self) size in
  (chunk, mk (length self) fp' (_min_chunk self) (_max_chunk self)).

Definition readall (self : t) : bytes * t :=
  let pos := file_tell (fp self) in
  let self1 := seek self 0 in
  let (data, self2) := read self1 (-1) in
  (data, seek self2 pos).

Definition from_data (raw_data : bytes) : t :=
  fst (write from_temp raw_data).

Definition from_dict {serde : Serde} (raw_data : json)
  : t + runtime_error :=
  match dumps raw_data with
  | Ok d => inl (fst (write from_temp d))
  | Raise _ =>
      inr (ReceptorRuntimeError "failed to encode raw data into json")
  end.

(** [len(self)]: Python refuses a negative [__len__].  It also refuses
    one above [sys.maxsize], with [OverflowError]: the properties about
    buffers of 2^32 bytes and more keep the length below [maxsize]. *)
Definition __len__ (self : t) : result Z :=
  if length self <? 0 then Raise ValueError else Ok (length self).

(** The truth value of a buffer, decided by [__len__]. *)
Definition truth (self : t) : result bool :=
  n <- __len__ self ;;
  Ok (negb (n =? 0)).

End FileBackedBuffer.

(** ** class FramedMessage *)

Module FramedMessage.

Record t : Type := mk {
  msg_id : Z;
  header : json;
  payload : option FileBackedBuffer.t
}.

(** [FramedMessage(msg_id, header, payload)]; an omitted [msg_id] is
    [None], an omitted header is [JNull]. *)
Definition __init__ (msg_id : option Z) (header : json)
  (payload : option FileBackedBuffer.t) (w : World) : t * World :=
  let (msg_id, w) :=
    match msg_id with
    | None => uuid4 w
    | Some m => (m, w)
    end in
  (mk msg_id header payload, w).

(** [if self.payload] *)
Definition has_payload (self : t) : result bool :=
  match payload self with
  | None => Ok false
  | Some p => FileBackedBuffer.truth p
  end.

(** [for chunk in iter(reader, b"")]: reads of [size] bytes until one
    returns nothing.  [fuel] bounds the number of reads; [None] when it
    runs out. *)
Fixpoint read_chunks (fuel : nat) (p : FileBackedBuffer.t) (size : Z)
  : option (list bytes * FileBackedBuffer.t) :=
  match fuel with
  | O => None
  | S k =>
      let (chunk, p') := FileBackedBuffer.read p size in
      if is_empty chunk then Some ([], p')
      else
        match read_chunks k p' size with
        | Some (chunks, p'') => Some (chunk :: chunks, p'')
        | None => None
        end
  end.

(** What a run of the generator [__iter__] leaves behind: the chunks it
    yielded, the exception that ended it (if one did), the message with
    its payload's file position moved, and the entropy consumed. *)
Record produced : Type := mkProduced {
  chunks : list bytes;
  raised : option exn;
  self_after : t;
  world_after : World
}.

Definition stop (e : exn) (yielded : list bytes) (self : t) (w : World)
  : option produced :=
  Some (mkProduced yielded (Some e) self w).

(** The generator, run to its end. *)
Definition __iter__ {serde : Serde} (self : t) (w : World) : option produced :=
  match dumps (header self) with
  | Raise e => stop e [] self w
  | Ok header_bytes =>
  match has_payload self with
  | Raise e => stop e [] self w
  | Ok dual =>
  let (frame, w) :=
    Frame.wrap (len header_bytes)
      (if dual then Frame.Types.HEADER else Frame.Types.COMMAND)
      (Some (msg_id self)) w in
  match Frame.serialize frame with
  | Raise e => stop e [] self w
  | Ok frame_bytes =>
  let yielded := [frame_bytes; header_bytes] in
  match payload self with
  | None => Some (mkProduced yielded None self w)
  | Some p =>
  if negb dual then Some (mkProduced yielded None self w) else
  match FileBackedBuffer.__len__ p with
  | Raise e => stop e yielded self w
  | Ok payload_len =>
  let (frame, w) :=
    Frame.wrap payload_len Frame.Types.PAYLOAD (Some (msg_id self)) w in
  match Frame.serialize frame with
  | Raise e => stop e yielded self w
  | Ok frame_bytes =>
  let yielded := yielded ++ [frame_bytes] in
  let p := FileBackedBuffer.seek p 0 in
  let size := FileBackedBuffer.chunksize p in
  match read_chunks (S (List.length (content (FileBackedBuffer.fp p))))
          p size with
  | None => None
  | Some (body, p) =>
      Some (mkProduced (yielded ++ body) None
              (mk (msg_id self) (header self) (Some p)) w)
  end end end end end end end.

(** [b"".join(self)] *)
Definition serialize {serde : Serde} (self : t) (w : World)
  : option (result bytes * t * World) :=
  match __iter__ self w with
  | None => None
  | Some r =>
      Some (match raised r with
            | Some e => Raise e
            | None => Ok (List.concat (chunks r))
            end, self_after r, world_after r)
  end.

End FramedMessage.

(** ** class FramedBuffer *)

Module FramedBuffer.

(** The attributes of the engine.  [q] is the [asyncio.Queue] of
    completed messages, oldest first; [header] is [JNull] for [None]. *)
Record t : Type := mk {
  q : list FramedMessage.t;
  header : json;
  framebuffer : bytes;
  bb : FileBackedBuffer.t;
  current_frame : option Frame.t;
  to_read : Z
}.

Definition __init__ : t :=
  mk [] JNull [] FileBackedBuffer.from_temp None 0.

(** How a coroutine of the engine ends: it returns, leaving the engine in
    a state, or an exception leaves it, with the engine as it was at the
    raise.  [OutOfFuel] is the recursion of [handle_frame] and [consume]
    going deeper than the activations it was given: under [put_within],
    Python's [RecursionError], raised wherever the interpreter's stack
    ran out, which is why no engine state comes with it. *)
Inductive outcome : Type :=
| Done (s : t)
| Raised (e : exn) (s : t)
| OutOfFuel.

Definition set_header (s : t) (h : json) : t :=
  mk (q s) h (framebuffer s) (bb s) (current_frame s) (to_read s).
Definition set_framebuffer (s : t) (fb : bytes) : t :=
  mk (q s) (header s) fb (bb s) (current_frame s) (to_read s).
Definition set_bb (s : t) (b : FileBackedBuffer.t) : t :=
  mk (q s) (header s) (framebuffer s) b (current_frame s) (to_read s).
Definition set_current_frame (s : t) (f : option Frame.t) : t :=
  mk (q s) (header s) (framebuffer s) (bb s) f (to_read s).
Definition set_to_read (s : t) (n : Z) : t :=
  mk (q s) (header s) (framebuffer s) (bb s) (current_frame s) n.
(** [self.q.put(m)] on an unbounded queue. *)
Definition q_put (s : t) (m : FramedMessage.t) : t :=
  mk (q s ++ [m]) (header s) (framebuffer s) (bb s) (current_frame s)
     (to_read s).

(** [self.bb.seek(0); json.load(self.bb)]: the decoded value, or the
    exception, and the engine with the buffer read to its end. *)
Definition load_bb {serde : Serde} (s : t) : result json * t :=
  let b := FileBackedBuffer.seek (bb s) 0 in
  let (data, b) := FileBackedBuffer.read b (-1) in
  (load data, set_bb s b).

Definition finish {serde : Serde} (s : t) : outcome :=
  match current_frame s with
  | None => Raised AttributeError s
  | Some frame =>
      let dispatched :=
        if Frame.type_ frame =? Frame.Types.HEADER then
          let (r, s) := load_bb s in
          match r with
          | Ok h => Done (set_header s h)
          | Raise e => Raised e s
          end
        else if Frame.type_ frame =? Frame.Types.PAYLOAD then
          let m := FramedMessage.mk (Frame.msg_id frame) (header s)
                     (Some (bb s)) in
          Done (set_header (q_put s m) JNull)
        else if Frame.type_ frame =? Frame.Types.COMMAND then
          let (r, s) := load_bb s in
          match r with
          | Ok h => Done (q_put s (FramedMessage.mk (Frame.msg_id frame)
                                     h None))
          | Raise e => Raised e s
          end
        else Raised UnknownFrameType s in
      match dispatched with
      | Done s => Done (set_bb (set_to_read s 0) FileBackedBuffer.from_temp)
      | other => other
      end
  end.

(** The body of [consume]; [handle_frame] is the coroutine it awaits on
    the bytes left over. *)
Definition consume_with {serde : Serde} (handle_frame : t -> bytes -> outcome)
  (s : t) (data : bytes) : outcome :=
  let rest := slice_from data (to_read s) in
  let data := slice_to data (to_read s) in
  let (b, written) := FileBackedBuffer.write (bb s) data in
  let s := set_to_read (set_bb s b) (to_read s - written) in
  let finished := if to_read s =? 0 then finish s else Done s in
  match finished with
  | Done s => if is_empty rest then Done s else handle_frame s rest
  | other => other
  end.

Fixpoint handle_frame_fuel {serde : Serde} (fuel : nat) (s : t) (data : bytes)
  : outcome :=
  match fuel with
  | O => OutOfFuel
  | S fuel' =>
      let s := set_framebuffer s (framebuffer s ++ data) in
      match Frame.from_data (framebuffer s) with
      | Raise StructError => Done s (* We don't have enough data yet *)
      | Raise e => Raised e s
      | Ok (frame, rest) =>
          let s := set_framebuffer s [] in
          if negb (Frame.Types.mem (Frame.type_ frame)) then
            Raised UnknownFrameType s
          else
            let s := set_current_frame s (Some frame) in
            let s := set_to_read s (Frame.length frame) in
            consume_with (handle_frame_fuel fuel') s rest
      end
  end.

(** Each frame parsed takes 26 bytes off the accumulated input, so the
    input's length bounds the depth of the recursion.  [handle_frame],
    [consume] and [put] are the coroutines on a stack deep enough for the
    input at hand; [put_within] is [put] on a stack of a given depth. *)
Definition fuel_for (s : t) (data : bytes) : nat :=
  S (List.length (framebuffer s) + List.length data).

Definition handle_frame {serde : Serde} (s : t) (data : bytes) : outcome :=
  handle_frame_fuel (fuel_for s data) s data.

Definition consume {serde : Serde} (s : t) (data : bytes) : outcome :=
  consume_with (handle_frame_fuel (fuel_for s data)) s data.

Definition put {serde : Serde} (s : t) (data : bytes) : outcome :=
  if to_read s =? 0 then handle_frame s data
  else consume s data.

(** [put] under the interpreter's recursion limit.  [handle_frame] awaits
    [consume], which awaits [handle_frame] on the bytes left over, one
    level deeper for every frame that ends inside the chunk; [limit] is
    the number of nested activations of [handle_frame] the stack still
    takes when [put] is called, what they call counted in. *)
Definition put_within {serde : Serde} (limit : nat) (s : t) (data : bytes)
  : outcome :=
  if to_read s =? 0 then handle_frame_fuel limit s data
  else consume_with (handle_frame_fuel limit) s data.

(** [get_nowait]: the oldest completed message, [QueueEmpty] if none. *)
Definition get_nowait (s : t) : result (FramedMessage.t * t) :=
  match q s with
  | [] => Raise QueueEmpty
  | m :: q' =>
      Ok (m, mk q' (header s) (framebuffer s) (bb s) (current_frame s)
                (to_read s))
  end.

(** A caller feeding chunks one [put] after the other; an exception ends
    the loop. *)
Fixpoint put_all {serde : Serde} (s : t) (chunks : list bytes) : outcome :=
  match chunks with
  | [] => Done s
  | c :: chunks' =>
      match put s c with
      | Done s' => put_all s' chunks'
      | other => other
      end
  end.

(** The same caller under the interpreter's recursion limit. *)
Fixpoint put_all_within {serde : Serde} (limit : nat) (s : t)
  (chunks : list bytes) : outcome :=
  match chunks with
  | [] => Done s
  | c :: chunks' =>
      match put_within limit s c with
      | Done s' => put_all_within limit s' chunks'
      | other => other
      end
  end.

End FramedBuffer.

(** * Vocabulary of the properties *)

(** The 26 bytes of a frame, field by field. *)
Definition frame_layout (f : Frame.t) : bytes :=
  [Struct.byte_of_Z (Frame.type_ f); Struct.byte_of_Z (Frame.version f)]
  ++ Struct.be_bytes 4 (Frame.id_ f)
  ++ Struct.be_bytes 4 (Frame.length f)
  ++ Struct.be_bytes 8 (fst (split_uuid (Frame.msg_id f)))
  ++ Struct.be_bytes 8 (snd (split_uuid (Frame.msg_id f))).

(** The ranges a frame's fields must be in for [serialize] to return. *)
Definition frame_packable (f : Frame.t) : Prop :=
  0 <= Frame.type_ f < 256 /\ 0 <= Frame.version f < 256 /\
  0 <= Frame.id_ f < 2 ^ 32 /\ 0 <= Frame.length f < 2 ^ 32.

(** The buffer that results from spooling [body] into a fresh temporary
    file. *)
Definition spooled (body : bytes) : FileBackedBuffer.t :=
  FileBackedBuffer.mk (len body) (mkFile body (List.length body))
    (2 ^ 12) (2 ^ 20).

(** A frame as it comes back from the wire: the identifier is cut to 128
    bits. *)
Definition on_wire (f : Frame.t) : Frame.t :=
  Frame.mk (Frame.type_ f) (Frame.version f) (Frame.length f)
    (Frame.msg_id f mod 2 ^ 128) (Frame.id_ f).

(** The six bits of a version-4 UUID that are not random. *)
Definition uuid4_fixed_bit (n : Z) : bool :=
  (n =? 62) || (n =? 63) || ((76 <=? n) && (n <=? 79)).

(** An engine with no part of a frame header accumulated and an empty
    spool buffer, as a new one is and as [finish] leaves it. *)
Definition awaiting_frame (s : FramedBuffer.t) : Prop :=
  FramedBuffer.framebuffer s = []
  /\ FramedBuffer.bb s = FileBackedBuffer.from_temp.

(** The unsigned big-endian number held by the [width] bytes at [offset]. *)
Definition wire_field (bs : bytes) (offset width : nat) : Z :=
  Struct.be_value (firstn width (skipn offset bs)).

(** A PAYLOAD frame whose identifier needs both 64-bit words. *)
Definition example_frame : Frame.t :=
  Frame.mk Frame.Types.PAYLOAD 1 5 (2 ^ 64 + 7) 1.

(** [x] clamped to the interval from [lo] to [hi], as the specification
    words it: [lo] below the interval, [hi] above it, [x] inside. *)
Definition clamp (x lo hi : Z) : Z :=
  if x <? lo then lo else if hi <? x then hi else x.

(** 26 bytes whose kind byte is 3. *)
Definition kind3_header : bytes := x03 :: repeat x00 25.

(** The first three bytes of a frame header. *)
Definition short_input : bytes := [x02; x01; x00].

(** The header of a COMMAND frame: version 1, sequence id 1, length 16,
    message id 7. *)
Definition command_header : bytes :=
  [x02; x01; x00; x00; x00; x01; x00; x00; x00; x10]
  ++ repeat x00 15 ++ [x07].

(** The header survives the serde collaborator. *)
Definition header_round_trips {serde : Serde} (h : json) : Prop :=
  bind (dumps h) load = Ok h.

(** An entropy source that returns zeros. *)
Definition zero_world : World := mkWorld (fun _ => 0) 0.

(** ** A serde instance for flat headers *)

(** Modelled from the spec: [receptor.serde] is missing from the sources,
    and the spec gives it as JSON encoding and decoding of header values.
    This instance covers the fragment that headers such as
    [{"type": "ping"}] need: [null] and mappings from plain strings to
    plain strings, laid out as [json.dumps] lays them out.  On a value or
    on bytes outside that fragment it raises, also where JSON has an
    encoding or a value.  It serves the examples only, which stay inside
    the fragment or use bytes that are not JSON at all; every general
    statement is over an arbitrary instance. *)
Module FlatJson.

Definition quote_char : byte := x22.
Definition backslash : byte := x5c.

Definition plain (b : byte) : bool :=
  let n := Byte.to_N b in
  (32 <=? n)%N && (n <=? 126)%N
  && negb (Byte.eqb b quote_char) && negb (Byte.eqb b backslash).

Definition quote (s : string) : result bytes :=
  let l := list_byte_of_string s in
  if forallb plain l then Ok (quote_char :: l ++ [quote_char])
  else Raise EncodeError.

Fixpoint dumps_members (kvs : list (string * json)) : result bytes :=
  match kvs with
  | [] => Ok []
  | (k, JStr v) :: kvs' =>
      qk <- quote k ;;
      qv <- quote v ;;
      rest <- dumps_members kvs' ;;
      Ok (qk ++ [x3a; x20] ++ qv
          ++ (if is_empty rest then [] else [x2c; x20] ++ rest))
  | _ => Raise EncodeError
  end.

Definition dumps (v : json) : result bytes :=
  match v with
  | JNull => Ok [x6e; x75; x6c; x6c]
  | JDict kvs =>
      members <- dumps_members kvs ;;
      Ok ([x7b] ++ members ++ [x7d])
  | _ => Raise EncodeError
  end.

(** The characters up to the closing quote, and what follows it. *)
Fixpoint scan_string (l : bytes) : result (bytes * bytes) :=
  match l with
  | [] => Raise DecodeError
  | b :: l' =>
      if Byte.eqb b quote_char then Ok ([], l')
      else if plain b then
        r <- scan_string l' ;;
        Ok (b :: fst r, snd r)
      else Raise DecodeError
  end.

Definition parse_string (l : bytes) : result (string * bytes) :=
  match l with
  | b :: l' =>
      if Byte.eqb b quote_char then
        r <- scan_string l' ;;
        Ok (string_of_list_byte (fst r), snd r)
      else Raise DecodeError
  | [] => Raise DecodeError
  end.

(** Members up to the closing brace, which must end the input. *)
Fixpoint parse_members (fuel : nat) (l : bytes)
  : result (list (string * json)) :=
  match fuel with
  | O => Raise DecodeError
  | S fuel' =>
      k <- parse_string l ;;
      match snd k with
      | x3a :: x20 :: l1 =>
          v <- parse_string l1 ;;
          match snd v with
          | [x7d] => Ok [(fst k, JStr (fst v))]
          | x2c :: x20 :: l2 =>
              rest <- parse_members fuel' l2 ;;
              Ok ((fst k, JStr (fst v)) :: rest)
          | _ => Raise DecodeError
          end
      | _ => Raise DecodeError
      end
  end.

Definition load (l : bytes) : result json :=
  match l with
  | [x6e; x75; x6c; x6c] => Ok JNull
  | [x7b; x7d] => Ok (JDict [])
  | x7b :: l' =>
      kvs <- parse_members (List.length l') l' ;;
      Ok (JDict kvs)
  | _ => Raise DecodeError
  end.

Definition serde : Serde := Build_Serde dumps load.

Definition ping : json := JDict [("type"%string, JStr "ping"%string)].
Definition work : json := JDict [("type"%string, JStr "work"%string)].

End FlatJson.

(** ** Messages and streams for the examples *)

(** A single-part message, and the bytes it serializes to. *)
Definition ping_message : FramedMessage.t :=
  FramedMessage.mk 7 FlatJson.ping None.

Definition ping_bytes : bytes :=
  [x02; x01; x00; x00; x00; x01; x00; x00; x00; x10]
  ++ repeat x00 15 ++ [x07]
  ++ [x7b; x22; x74; x79; x70; x65; x22; x3a; x20;
      x22; x70; x69; x6e; x67; x22; x7d].

(** The chunks of [data], each of one byte. *)
Definition byte_by_byte (data : bytes) : list bytes :=
  map (fun b => [b]) data.

(** A message that carries a buffer of length zero as its payload. *)
Definition hollow_message : FramedMessage.t :=
  FramedMessage.mk 7 FlatJson.ping (Some FileBackedBuffer.from_temp).

(** A dual-part message with three bytes of payload, and the bytes it
    serializes to. *)
Definition work_payload : FileBackedBuffer.t :=
  FileBackedBuffer.from_data [x01; x02; x03].

Definition work_message : FramedMessage.t :=
  FramedMessage.mk 7 FlatJson.work (Some work_payload).

Definition work_bytes : bytes :=
  [x00; x01; x00; x00; x00; x01; x00; x00; x00; x10]
  ++ repeat x00 15 ++ [x07]
  ++ [x7b; x22; x74; x79; x70; x65; x22; x3a; x20;
      x22; x77; x6f; x72; x6b; x22; x7d]
  ++ [x01; x01; x00; x00; x00; x01; x00; x00; x00; x03]
  ++ repeat x00 15 ++ [x07]
  ++ [x01; x02; x03].

(** The same message built with [msg_id = 0]. *)
Definition zero_id_message : FramedMessage.t :=
  FramedMessage.mk 0 FlatJson.work (Some work_payload).

(** A second single-part message, and the bytes it serializes to. *)
Definition pong_message : FramedMessage.t :=
  FramedMessage.mk 9 FlatJson.work None.

Definition pong_bytes : bytes :=
  [x02; x01; x00; x00; x00; x01; x00; x00; x00; x10]
  ++ repeat x00 15 ++ [x09]
  ++ [x7b; x22; x74; x79; x70; x65; x22; x3a; x20;
      x22; x77; x6f; x72; x6b; x22; x7d].

(** A single-part message built with [msg_id = 0]. *)
Definition zero_id_ping : FramedMessage.t :=
  FramedMessage.mk 0 FlatJson.ping None.

(** An entropy source whose draws differ: 0, 1, 2, ... *)
Definition counting_world : World := mkWorld Z.of_nat 0.

(** The engine an outcome leaves behind. *)
Definition state_of (o : FramedBuffer.outcome) : option FramedBuffer.t :=
  match o with
  | FramedBuffer.Done s | FramedBuffer.Raised _ s => Some s
  | FramedBuffer.OutOfFuel => None
  end.

(** The completed messages an outcome leaves on the queue. *)
Definition completed (o : FramedBuffer.outcome)
  : option (list FramedMessage.t) :=
  option_map FramedBuffer.q (state_of o).

(** A caller that catches whatever [put] raises and feeds the next chunk
    all the same. *)
Fixpoint put_each {serde : Serde} (s : FramedBuffer.t)
  (chunks : list bytes) : FramedBuffer.t :=
  match chunks with
  | [] => s
  | c :: chunks' =>
      match FramedBuffer.put s c with
      | FramedBuffer.Done s' | FramedBuffer.Raised _ s' => put_each s' chunks'
      | FramedBuffer.OutOfFuel => s
      end
  end.

(** A COMMAND frame announcing one byte of header, and that byte, which
    is not JSON. *)
Definition undecodable_command : bytes :=
  [x02; x01; x00; x00; x00; x01; x00; x00; x00; x01]
  ++ repeat x00 15 ++ [x07] ++ [x78].

Section Vocabulary.

Context {serde : Serde}.

Import FramedBuffer.

(** [consume] up to the point where it awaits [handle_frame]. *)
Definition consume_step (s : t) (data : bytes) : outcome :=
  let data := slice_to data (to_read s) in
  let (b, written) := FileBackedBuffer.write (bb s) data in
  let s := set_to_read (set_bb s b) (to_read s - written) in
  if to_read s =? 0 then finish s else Done s.

(** What the caller's next [put] makes of an outcome. *)
Definition then_put (o : outcome) (data : bytes) : outcome :=
  match o with
  | Done s => put s data
  | other => other
  end.

(** The same under the interpreter's recursion limit. *)
Definition then_put_within (limit : nat) (o : outcome) (data : bytes)
  : outcome :=
  match o with
  | Done s => put_within limit s data
  | other => other
  end.

(** Two outcomes agree when both return with the same engine, or both
    raise the same exception with engines that differ at most in the
    bytes left in [framebuffer]. *)
Definition agree (o1 o2 : outcome) : Prop :=
  match o1, o2 with
  | Done s1, Done s2 => s1 = s2
  | Raised e1 s1, Raised e2 s2 =>
      e1 = e2 /\ set_framebuffer s1 [] = set_framebuffer s2 []
  | OutOfFuel, OutOfFuel => True
  | _, _ => False
  end.

(** What holds of the engine whenever [put] has returned: the count of
    body bytes still expected is not negative, and fewer bytes than a
    frame header are waiting in [framebuffer]. *)
Definition between_puts (s : t) : Prop :=
  0 <= to_read s /\ (List.length (framebuffer s) < Frame.fmt_size)%nat.

End Vocabulary.

(** ** Vocabulary of the further properties *)

(** [write] called on each of [chunks] in turn. *)
Definition write_all (b : FileBackedBuffer.t) (chunks : list bytes)
  : FileBackedBuffer.t :=
  fold_left (fun b c => fst (FileBackedBuffer.write b c)) chunks b.

(** The file position is at the end of the file. *)
Definition at_end (b : FileBackedBuffer.t) : Prop :=
  pos (FileBackedBuffer.fp b)
  = List.length (content (FileBackedBuffer.fp b)).

(** What the generator yields for [work_message]. *)
Definition work_produced : FramedMessage.produced :=
  FramedMessage.mkProduced
    [firstn 26 work_bytes; firstn 16 (skipn 26 work_bytes);
     firstn 26 (skipn 42 work_bytes); skipn 68 work_bytes]
    None work_message zero_world.

(** A message whose payload claims 2^32 bytes. *)
Definition oversize_message : FramedMessage.t :=
  FramedMessage.mk 7 FlatJson.work
    (Some (FileBackedBuffer.__init__ (mkFile [x01] 0) (2 ^ 32))).

(** The engine [s] with the messages [pre] ahead of its own in the queue. *)
Definition q_prepend (pre : list FramedMessage.t) (s : FramedBuffer.t)
  : FramedBuffer.t :=
  FramedBuffer.mk (pre ++ FramedBuffer.q s) (FramedBuffer.header s)
    (FramedBuffer.framebuffer s) (FramedBuffer.bb s)
    (FramedBuffer.current_frame s) (FramedBuffer.to_read s).

(** An outcome with its engine transformed. *)
Definition outcome_map (g : FramedBuffer.t -> FramedBuffer.t)
  (o : FramedBuffer.outcome) : FramedBuffer.outcome :=
  match o with
  | FramedBuffer.Done s => FramedBuffer.Done (g s)
  | FramedBuffer.Raised e s => FramedBuffer.Raised e (g s)
  | FramedBuffer.OutOfFuel => FramedBuffer.OutOfFuel
  end.

(** What the engine keeps true between two calls of [put]: the count of
    body bytes still expected fits 32 bits; fewer bytes than a frame header
    wait in [framebuffer], and none while a body is being read; the spool
    buffer is empty when no body is being read and otherwise holds exactly
    the part of the current frame's body received so far. *)
Definition spooling (s : FramedBuffer.t) : Prop :=
  0 <= FramedBuffer.to_read s < 2 ^ 32
  /\ (List.length (FramedBuffer.framebuffer s) < Frame.fmt_size)%nat
  /\ (FramedBuffer.to_read s = 0 ->
      FramedBuffer.bb s = FileBackedBuffer.from_temp)
  /\ (FramedBuffer.to_read s <> 0 ->
      FramedBuffer.framebuffer s = []
      /\ exists f body,
          FramedBuffer.current_frame s = Some f
          /\ Frame.Types.mem (Frame.type_ f) = true
          /\ FramedBuffer.bb s = spooled body
          /\ len body + FramedBuffer.to_read s = Frame.length f).

(** Whenever body bytes are still expected, the engine holds the frame
    that announced them, and its kind is one of the three. *)
Definition frame_pending (s : FramedBuffer.t) : Prop :=
  0 <= FramedBuffer.to_read s
  /\ (FramedBuffer.to_read s <> 0 ->
      exists f, FramedBuffer.current_frame s = Some f
                /\ Frame.Types.mem (Frame.type_ f) = true).

(** The exceptions the bytes fed to the engine can cause: [ValueError]
    for a frame header whose kind is not one of the three, and whatever
    [json.load] raises on a header or command body. *)
Definition raised_by_input {serde : Serde} (e : exn) : Prop :=
  e = ValueError \/ exists body, load body = Raise e.

(** A message a sender can put on the wire and a receiver can take off
    it: an identifier of 128 bits that is not zero, a header that encodes
    to fewer than 2^32 bytes and decodes to itself, and a payload, if
    any, whose recorded length is the size of what it holds, below 2^32,
    and whose chunk size is positive and below 2^31. *)
Definition sendable {serde : Serde} (m : FramedMessage.t) : Prop :=
  0 < FramedMessage.msg_id m < 2 ^ 128
  /\ (exists hb, dumps (FramedMessage.header m) = Ok hb
                 /\ len hb < 2 ^ 32
                 /\ load hb = Ok (FramedMessage.header m))
  /\ match FramedMessage.payload m with
     | None => True
     | Some p =>
         0 <= FileBackedBuffer.length p < 2 ^ 32
         /\ FileBackedBuffer.length p
            = len (content (FileBackedBuffer.fp p))
         /\ 0 < FileBackedBuffer.chunksize p < 2 ^ 31
     end.

(** The message the engine completes for [m]: a payload of length zero
    comes out absent, any other spooled into a buffer of the engine's
    own. *)
Definition as_received (m : FramedMessage.t) : FramedMessage.t :=
  FramedMessage.mk (FramedMessage.msg_id m) (FramedMessage.header m)
    (match FramedMessage.payload m with
     | Some p =>
         if FileBackedBuffer.length p =? 0 then None
         else Some (spooled (content (FileBackedBuffer.fp p)))
     | None => None
     end).

(** A sender that serializes one message after the other and joins the
    bytes; an exception ends it. *)
Fixpoint serialize_each {serde : Serde} (ms : list FramedMessage.t)
  (w : World) : option (result bytes * World) :=
  match ms with
  | [] => Some (Ok [], w)
  | m :: ms' =>
      match FramedMessage.serialize m w with
      | None => None
      | Some (Raise e, _, w') => Some (Raise e, w')
      | Some (Ok d, _, w') =>
          match serialize_each ms' w' with
          | None => None
          | Some (Raise e, w'') => Some (Raise e, w'')
          | Some (Ok ds, w'') => Some (Ok (d ++ ds), w'')
          end
      end
  end.

(** [sys.maxsize] of a 64-bit CPython: the largest value [len()] and the
    truth test of an object accept from [__len__]. *)
Definition maxsize : Z := 2 ^ 63 - 1.

(** A chunk short enough for [limit] nested activations of
    [handle_frame]: each activation but the first takes the 26 bytes of
    a frame header off the chunk. *)
Definition fits_within (limit : nat) (c : bytes) : Prop :=
  (List.length c + Frame.fmt_size <= Frame.fmt_size * limit)%nat.

(** * Properties *)

(** ** Big-endian packing *)

Lemma Z_of_byte_range (b : byte) : 0 <= Struct.Z_of_byte b < 256.
Proof.
  unfold Struct.Z_of_byte.
  pose proof (Byte.to_N_bounded b). lia.
Qed.

Lemma Z_of_byte_of_Z (z : Z) :
  Struct.Z_of_byte (Struct.byte_of_Z z) = z mod 256.
Proof.
  unfold Struct.Z_of_byte, Struct.byte_of_Z.
  assert (Hr : 0 <= z mod 256 < 256) by (apply Z.mod_pos_bound; lia).
  destruct (Byte.of_N (Z.to_N (z mod 256))) as [b|] eqn:E.
  - apply Byte.to_of_N in E. rewrite E. lia.
  - apply Byte.of_N_None_iff in E. lia.
Qed.

Lemma byte_of_Z_of_byte (b : byte) :
  Struct.byte_of_Z (Struct.Z_of_byte b) = b.
Proof.
  unfold Struct.Z_of_byte, Struct.byte_of_Z.
  pose proof (Byte.to_N_bounded b) as Hb.
  rewrite Z.mod_small by lia.
  rewrite N2Z.id, Byte.of_to_N. reflexivity.
Qed.

Lemma be_bytes_length (n : nat) (v : Z) :
  List.length (Struct.be_bytes n v) = n.
Proof. induction n; simpl; congruence. Qed.

Lemma be_value_app (l1 l2 : bytes) :
  Struct.be_value (l1 ++ l2)
  = Struct.be_value l1 * 256 ^ Z.of_nat (List.length l2) + Struct.be_value l2.
Proof.
  unfold Struct.be_value.
  rewrite fold_left_app.
  generalize (fold_left (fun acc b => acc * 256 + Struct.Z_of_byte b) l1 0).
  induction l2 as [|b l2 IH] using rev_ind; intros a.
  - simpl. lia.
  - rewrite !fold_left_app. simpl.
    rewrite IH, (IH 0), length_app. simpl.
    rewrite Nat2Z.inj_add, Z.pow_add_r by lia.
    change (256 ^ Z.of_nat 1) with 256. lia.
Qed.

Lemma be_value_cons (b : byte) (l : bytes) :
  Struct.be_value (b :: l)
  = Struct.Z_of_byte b * 256 ^ Z.of_nat (List.length l) + Struct.be_value l.
Proof.
  change (b :: l) with ([b] ++ l). rewrite be_value_app.
  reflexivity.
Qed.

Lemma be_value_range (l : bytes) :
  0 <= Struct.be_value l < 256 ^ Z.of_nat (List.length l).
Proof.
  induction l as [|b l IH].
  - cbn. lia.
  - rewrite be_value_cons.
    pose proof (Z_of_byte_range b) as Hb.
    cbn [List.length]. rewrite Nat2Z.inj_succ, Z.pow_succ_r by lia.
    nia.
Qed.

Lemma pow256 (k : nat) : 256 ^ Z.of_nat k = 2 ^ (8 * Z.of_nat k).
Proof.
  change 256 with (2 ^ 8). rewrite <- Z.pow_mul_r by lia. reflexivity.
Qed.

Lemma be_value_be_bytes (n : nat) (v : Z) :
  Struct.be_value (Struct.be_bytes n v) = v mod 256 ^ Z.of_nat n.
Proof.
  induction n as [|k IH].
  - cbn. rewrite Z.mod_1_r. reflexivity.
  - cbn [Struct.be_bytes]. rewrite be_value_cons, be_bytes_length, IH.
    rewrite Z_of_byte_of_Z.
    rewrite Z.shiftr_div_pow2 by lia.
    rewrite <- pow256.
    rewrite Nat2Z.inj_succ, Z.pow_succ_r by lia.
    assert (Hp : 0 < 256 ^ Z.of_nat k) by (apply Z.pow_pos_nonneg; lia).
    rewrite (Z.mul_comm 256).
    rewrite Z.rem_mul_r by lia.
    lia.
Qed.

(** ** Splitting and joining a 128-bit identifier *)

Lemma land_MAX_INT64 (a : Z) : Z.land a MAX_INT64 = a mod 2 ^ 64.
Proof.
  change MAX_INT64 with (Z.ones 64). apply Z.land_ones. lia.
Qed.

Lemma lor_shiftl_64 (hi lo : Z) :
  0 <= lo < 2 ^ 64 -> Z.lor (Z.shiftl hi 64) lo = hi * 2 ^ 64 + lo.
Proof.
  intros Hlo.
  rewrite <- (Z.shiftl_mul_pow2 hi 64) by lia.
  rewrite <- Z.add_lor_land.
  assert (Hz : Z.land (Z.shiftl hi 64) lo = 0).
  { apply Z.bits_inj'. intros n Hn.
    rewrite Z.land_spec, Z.bits_0.
    destruct (Z.ltb_spec n 64).
    - rewrite Z.shiftl_spec_low by lia. reflexivity.
    - rewrite <- (Z.mod_small lo (2 ^ 64)) by lia.
      rewrite Z.mod_pow2_bits_high by lia.
      apply andb_false_r. }
  rewrite Hz. lia.
Qed.

Lemma split_uuid_range (v : Z) :
  0 <= fst (split_uuid v) < 2 ^ 64 /\ 0 <= snd (split_uuid v) < 2 ^ 64.
Proof.
  unfold split_uuid. cbn [fst snd]. rewrite !land_MAX_INT64.
  split; apply Z.mod_pos_bound; lia.
Qed.

Lemma join_split_uuid_mod (v : Z) :
  join_uuid (fst (split_uuid v)) (snd (split_uuid v)) = v mod 2 ^ 128.
Proof.
  unfold join_uuid.
  rewrite lor_shiftl_64 by apply split_uuid_range.
  unfold split_uuid. cbn [fst snd]. rewrite !land_MAX_INT64.
  rewrite Z.shiftr_div_pow2 by lia.
  change (2 ^ 128) with (2 ^ 64 * 2 ^ 64).
  rewrite Z.rem_mul_r by lia. lia.
Qed.

Lemma join_split_uuid (v : Z) :
  0 <= v < 2 ^ 128 ->
  join_uuid (fst (split_uuid v)) (snd (split_uuid v)) = v.
Proof.
  intros Hv. rewrite join_split_uuid_mod. apply Z.mod_small. exact Hv.
Qed.

(** ** Frames on the wire *)

Lemma range_check (lo hi x : Z) :
  (lo <=? x) && (x <? hi) = true <-> lo <= x < hi.
Proof. rewrite andb_true_iff, Z.leb_le, Z.ltb_lt. tauto. Qed.

Lemma frame_layout_length (f : Frame.t) :
  List.length (frame_layout f) = Frame.fmt_size.
Proof. reflexivity. Qed.

Lemma serialize_packable (f : Frame.t) :
  frame_packable f -> Frame.serialize f = Ok (frame_layout f).
Proof.
  intros (Ht & Hv & Hi & Hl).
  unfold Frame.serialize, Struct.bytes_of_int, Struct.pack_I, Struct.pack_Q,
    Struct.pack_uint.
  pose proof (split_uuid_range (Frame.msg_id f)) as [Hhi Hlo].
  destruct (split_uuid (Frame.msg_id f)) as [hi lo] eqn:E.
  cbn [fst snd] in Hhi, Hlo.
  change (2 ^ (8 * Z.of_nat 4)) with (2 ^ 32).
  change (2 ^ (8 * Z.of_nat 8)) with (2 ^ 64).
  rewrite (proj2 (range_check 0 256 (Frame.type_ f))) by assumption.
  rewrite (proj2 (range_check 0 256 (Frame.version f))) by assumption.
  cbn [bind].
  rewrite (proj2 (range_check 0 (2 ^ 32) (Frame.id_ f))) by assumption.
  rewrite (proj2 (range_check 0 (2 ^ 32) (Frame.length f))) by assumption.
  rewrite (proj2 (range_check 0 (2 ^ 64) hi)) by assumption.
  rewrite (proj2 (range_check 0 (2 ^ 64) lo)) by assumption.
  cbn [bind]. unfold frame_layout. rewrite E. reflexivity.
Qed.

Lemma serialize_returns (f : Frame.t) (bs : bytes) :
  Frame.serialize f = Ok bs -> frame_packable f /\ bs = frame_layout f.
Proof.
  intros H.
  assert (Hp : frame_packable f).
  { unfold Frame.serialize, Struct.bytes_of_int, Struct.pack_I, Struct.pack_Q,
      Struct.pack_uint in H.
    change (2 ^ (8 * Z.of_nat 4)) with (2 ^ 32) in H.
    destruct (split_uuid (Frame.msg_id f)) as [hi lo].
    destruct ((0 <=? Frame.type_ f) && (Frame.type_ f <? 256)) eqn:Et;
      [|discriminate].
    destruct ((0 <=? Frame.version f) && (Frame.version f <? 256)) eqn:Ev;
      [|discriminate].
    cbn [bind] in H.
    destruct ((0 <=? Frame.id_ f) && (Frame.id_ f <? 2 ^ 32)) eqn:Ei;
      [|discriminate].
    destruct ((0 <=? Frame.length f) && (Frame.length f <? 2 ^ 32)) eqn:El;
      [|discriminate].
    apply range_check in Et, Ev, Ei, El. repeat split; lia. }
  split; [exact Hp|].
  rewrite (serialize_packable f Hp) in H. congruence.
Qed.

Lemma length_4 (l : bytes) :
  List.length l = 4%nat -> exists a b c d, l = [a; b; c; d].
Proof.
  destruct l as [|a [|b [|c [|d [|e l]]]]]; try discriminate.
  intros _. eauto.
Qed.

Lemma length_8 (l : bytes) :
  List.length l = 8%nat ->
  exists a b c d e f g h, l = [a; b; c; d; e; f; g; h].
Proof.
  destruct l as [|a [|b [|c [|d [|e [|f [|g [|h [|i l]]]]]]]]];
    try discriminate.
  intros _. do 8 eexists. reflexivity.
Qed.

(** Parsing 26 bytes given field by field. *)
Lemma deserialize_fields (t v : byte) (i4 l4 h8 lo8 : bytes) :
  List.length i4 = 4%nat -> List.length l4 = 4%nat ->
  List.length h8 = 8%nat -> List.length lo8 = 8%nat ->
  Frame.deserialize ([t; v] ++ i4 ++ l4 ++ h8 ++ lo8)
  = ty <- Frame.Types.of_int (Struct.Z_of_byte t) ;;
    Ok (Frame.mk ty (Struct.Z_of_byte v) (Struct.be_value l4)
          (join_uuid (Struct.be_value h8) (Struct.be_value lo8))
          (Struct.be_value i4)).
Proof.
  intros Hi Hl Hh Hlo.
  apply length_4 in Hi as (i0 & i1 & i2 & i3 & ->).
  apply length_4 in Hl as (l0 & l1 & l2 & l3 & ->).
  apply length_8 in Hh as (h0 & h1 & h2 & h3 & h4 & h5 & h6 & h7 & ->).
  apply length_8 in Hlo as (o0 & o1 & o2 & o3 & o4 & o5 & o6 & o7 & ->).
  reflexivity.
Qed.

Lemma deserialize_layout (f : Frame.t) :
  frame_packable f ->
  Frame.deserialize (frame_layout f)
  = ty <- Frame.Types.of_int (Frame.type_ f) ;;
    Ok (Frame.mk ty (Frame.version f) (Frame.length f)
          (Frame.msg_id f mod 2 ^ 128) (Frame.id_ f)).
Proof.
  intros (Ht & Hv & Hi & Hl).
  unfold frame_layout.
  rewrite deserialize_fields by apply be_bytes_length.
  rewrite !Z_of_byte_of_Z, !be_value_be_bytes.
  pose proof (split_uuid_range (Frame.msg_id f)) as [Hhi Hlo].
  change (256 ^ Z.of_nat 4) with (2 ^ 32).
  change (256 ^ Z.of_nat 8) with (2 ^ 64).
  rewrite !Z.mod_small by lia.
  rewrite join_split_uuid_mod.
  reflexivity.
Qed.

Lemma from_data_app (hdr rest : bytes) :
  List.length hdr = Frame.fmt_size ->
  Frame.from_data (hdr ++ rest)
  = frame <- Frame.deserialize hdr ;; Ok (frame, rest).
Proof.
  intros H. unfold Frame.from_data.
  rewrite <- H.
  rewrite firstn_app, skipn_app, Nat.sub_diag, firstn_all, skipn_all.
  cbn [firstn skipn app]. rewrite app_nil_r. reflexivity.
Qed.

Lemma deserialize_length (buf : bytes) :
  List.length buf <> Frame.fmt_size ->
  Frame.deserialize buf = Raise StructError.
Proof.
  intros H. unfold Frame.deserialize.
  destruct buf as [|t [|v rest]]; try reflexivity.
  destruct (Nat.eqb_spec (List.length (t :: v :: rest)) Frame.fmt_size);
    [contradiction | reflexivity].
Qed.

Lemma from_data_short (data : bytes) :
  (List.length data < Frame.fmt_size)%nat ->
  Frame.from_data data = Raise StructError.
Proof.
  intros H. unfold Frame.from_data.
  rewrite deserialize_length; [reflexivity|].
  rewrite length_firstn. lia.
Qed.

(** ** The engine's recursion *)

Section Engine.

Context {serde : Serde}.

Import FramedBuffer.

Lemma consume_with_step (hf : t -> bytes -> outcome) (s : t) (data : bytes) :
  consume_with hf s data
  = match consume_step s data with
    | Done s' =>
        if is_empty (slice_from data (to_read s)) then Done s'
        else hf s' (slice_from data (to_read s))
    | other => other
    end.
Proof.
  unfold consume_with, consume_step.
  destruct (FileBackedBuffer.write (bb s) (slice_to data (to_read s)))
    as [b written].
  cbv zeta.
  match goal with |- context [if ?c then finish ?x else _] =>
    destruct (if c then finish x else Done x); reflexivity
  end.
Qed.

Lemma finish_framebuffer (s s' : t) :
  finish s = Done s' -> framebuffer s' = framebuffer s.
Proof.
  unfold finish, load_bb.
  destruct (current_frame s) as [frame|]; [|discriminate].
  destruct (FileBackedBuffer.read (FileBackedBuffer.seek (bb s) 0) (-1))
    as [data b].
  destruct (Frame.type_ frame =? Frame.Types.HEADER).
  { destruct (load data); [|discriminate].
    intros [= <-]. reflexivity. }
  destruct (Frame.type_ frame =? Frame.Types.PAYLOAD).
  { intros [= <-]. reflexivity. }
  destruct (Frame.type_ frame =? Frame.Types.COMMAND); [|discriminate].
  destruct (load data); [|discriminate].
  intros [= <-]. reflexivity.
Qed.

Lemma consume_step_framebuffer (s s' : t) (data : bytes) :
  consume_step s data = Done s' -> framebuffer s' = framebuffer s.
Proof.
  unfold consume_step.
  destruct (FileBackedBuffer.write (bb s) (slice_to data (to_read s)))
    as [b written].
  match goal with |- context [if ?c then _ else _] => destruct c end.
  - intros H. apply finish_framebuffer in H. exact H.
  - intros [= <-]. reflexivity.
Qed.

Lemma slice_from_length (data : bytes) (n : Z) :
  (List.length (slice_from data n) <= List.length data)%nat.
Proof.
  unfold slice_from. destruct (n <? 0); rewrite length_skipn; lia.
Qed.

Lemma from_data_returns (l : bytes) (f : Frame.t) (rest : bytes) :
  Frame.from_data l = Ok (f, rest) ->
  rest = skipn Frame.fmt_size l /\ (Frame.fmt_size <= List.length l)%nat
  /\ Frame.Types.mem (Frame.type_ f) = true.
Proof.
  unfold Frame.from_data. intros H.
  destruct (Frame.deserialize (firstn Frame.fmt_size l)) as [f'|e] eqn:E;
    [|discriminate].
  cbn [bind] in H. injection H as <- <-.
  split; [reflexivity|].
  split.
  - destruct (Nat.eq_dec (List.length (firstn Frame.fmt_size l))
                Frame.fmt_size) as [Hl|Hl].
    + rewrite length_firstn in Hl. lia.
    + rewrite (deserialize_length _ Hl) in E. discriminate.
  - unfold Frame.deserialize in E.
    destruct (firstn Frame.fmt_size l) as [|t [|v r]]; try discriminate.
    destruct (Nat.eqb _ _); [|discriminate].
    unfold Frame.Types.of_int in E.
    destruct (Frame.Types.mem (Struct.Z_of_byte t)) eqn:Em; [|discriminate].
    cbn [bind] in E. injection E as <-. exact Em.
Qed.

Lemma handle_frame_fuel_S (fuel : nat) (s : t) (data : bytes) :
  handle_frame_fuel (S fuel) s data
  = let s := set_framebuffer s (framebuffer s ++ data) in
    match Frame.from_data (framebuffer s) with
    | Raise StructError => Done s
    | Raise e => Raised e s
    | Ok (frame, rest) =>
        let s := set_framebuffer s [] in
        if negb (Frame.Types.mem (Frame.type_ frame)) then
          Raised UnknownFrameType s
        else
          let s := set_current_frame s (Some frame) in
          let s := set_to_read s (Frame.length frame) in
          consume_with (handle_frame_fuel fuel) s rest
    end.
Proof. reflexivity. Qed.

(** With fuel beyond the accumulated input's length, the recursion never
    runs dry and its result does not depend on the fuel. *)
Lemma handle_frame_fuel_enough (n m : nat) (s : t) (data : bytes) :
  (List.length (framebuffer s) + List.length data < n)%nat ->
  (List.length (framebuffer s) + List.length data < m)%nat ->
  handle_frame_fuel n s data = handle_frame_fuel m s data
  /\ handle_frame_fuel n s data <> OutOfFuel.
Proof.
  revert m s data.
  induction n as [|n IH]; intros m s data Hn Hm; [lia|].
  destruct m as [|m]; [lia|].
  rewrite !handle_frame_fuel_S. cbv zeta.
  cbn [framebuffer set_framebuffer].
  destruct (Frame.from_data (framebuffer s ++ data)) as [[frame rest]|e]
    eqn:E.
  - destruct (negb (Frame.Types.mem (Frame.type_ frame)));
      [split; [reflexivity | discriminate]|].
    apply from_data_returns in E as (-> & Hlen & _).
    rewrite length_app in Hlen.
    rewrite !consume_with_step.
    match goal with |- context [consume_step ?s0 ?d] =>
      destruct (consume_step s0 d) as [s'| |] eqn:Es
    end.
    + apply consume_step_framebuffer in Es. cbn in Es.
      destruct (is_empty _); [split; [reflexivity | discriminate]|].
      pose proof (slice_from_length
                    (skipn Frame.fmt_size (framebuffer s ++ data))
                    (Frame.length frame)) as Hs.
      rewrite length_skipn, length_app in Hs.
      unfold Frame.fmt_size in *.
      apply IH; rewrite Es; cbn [List.length to_read set_to_read]; lia.
    + split; [reflexivity | discriminate].
    + split; [reflexivity|].
      exfalso. revert Es. unfold consume_step.
      destruct (FileBackedBuffer.write _ _) as [b written].
      match goal with |- context [if ?c then _ else _] => destruct c end;
        [|discriminate].
      unfold finish, load_bb. cbn [current_frame set_to_read set_bb
        set_current_frame].
      destruct (FileBackedBuffer.read _ _) as [d b'].
      repeat match goal with
             | |- context [if ?c then _ else _] => destruct c
             | |- context [load ?d] => destruct (load d)
             end; discriminate.
  - destruct e; split; try reflexivity; discriminate.
Qed.

Lemma consume_with_fuel (n m : nat) (s : t) (data : bytes) :
  (List.length (framebuffer s) + List.length data < n)%nat ->
  (List.length (framebuffer s) + List.length data < m)%nat ->
  consume_with (handle_frame_fuel n) s data
  = consume_with (handle_frame_fuel m) s data.
Proof.
  intros Hn Hm. rewrite !consume_with_step.
  destruct (consume_step s data) as [s'| |] eqn:Es; try reflexivity.
  destruct (is_empty _); [reflexivity|].
  apply consume_step_framebuffer in Es.
  pose proof (slice_from_length data (to_read s)) as Hs.
  apply handle_frame_fuel_enough; rewrite Es; lia.
Qed.

(** [handle_frame] and [consume] satisfy the equations of the two
    coroutines, whatever fuel the model gave them. *)
Lemma handle_frame_eq (s : t) (data : bytes) :
  handle_frame s data
  = let s := set_framebuffer s (framebuffer s ++ data) in
    match Frame.from_data (framebuffer s) with
    | Raise StructError => Done s
    | Raise e => Raised e s
    | Ok (frame, rest) =>
        let s := set_framebuffer s [] in
        if negb (Frame.Types.mem (Frame.type_ frame)) then
          Raised UnknownFrameType s
        else
          let s := set_current_frame s (Some frame) in
          let s := set_to_read s (Frame.length frame) in
          consume s rest
    end.
Proof.
  unfold handle_frame, fuel_for. rewrite handle_frame_fuel_S. cbv zeta.
  cbn [framebuffer set_framebuffer].
  destruct (Frame.from_data (framebuffer s ++ data)) as [[frame rest]|e]
    eqn:E; [|reflexivity].
  destruct (negb _); [reflexivity|].
  apply from_data_returns in E as (-> & Hlen & _).
  rewrite length_app in Hlen. unfold Frame.fmt_size in Hlen.
  unfold consume, fuel_for.
  apply consume_with_fuel; cbn [framebuffer set_to_read set_current_frame
    set_framebuffer List.length]; rewrite length_skipn, length_app;
    unfold Frame.fmt_size; lia.
Qed.

Lemma consume_eq (s : t) (data : bytes) :
  consume s data
  = match consume_step s data with
    | Done s' =>
        if is_empty (slice_from data (to_read s)) then Done s'
        else handle_frame s' (slice_from data (to_read s))
    | other => other
    end.
Proof.
  unfold consume. rewrite consume_with_step.
  destruct (consume_step s data) as [s'| |] eqn:Es; try reflexivity.
  destruct (is_empty _); [reflexivity|].
  apply consume_step_framebuffer in Es.
  pose proof (slice_from_length data (to_read s)) as Hs.
  unfold handle_frame, fuel_for.
  apply handle_frame_fuel_enough; rewrite Es; lia.
Qed.

Lemma handle_frame_total (s : t) (data : bytes) :
  handle_frame s data <> OutOfFuel.
Proof.
  unfold handle_frame, fuel_for.
  apply (handle_frame_fuel_enough _ _ s data (Nat.lt_succ_diag_r _)
           (Nat.lt_succ_diag_r _)).
Qed.

Lemma consume_step_total (s : t) (data : bytes) :
  consume_step s data <> OutOfFuel.
Proof.
  unfold consume_step.
  destruct (FileBackedBuffer.write _ _) as [b written].
  match goal with |- context [if ?c then _ else _] => destruct c end;
    [|discriminate].
  unfold finish, load_bb.
  destruct (current_frame _); [|discriminate].
  destruct (FileBackedBuffer.read _ _) as [d b'].
  repeat match goal with
         | |- context [if ?c then _ else _] => destruct c
         | |- context [load ?d] => destruct (load d)
         end; discriminate.
Qed.

Lemma consume_total (s : t) (data : bytes) : consume s data <> OutOfFuel.
Proof.
  rewrite consume_eq.
  pose proof (consume_step_total s data) as Hc.
  destruct (consume_step s data); try congruence.
  destruct (is_empty _); [discriminate|].
  apply handle_frame_total.
Qed.

(** On a stack deep enough [put] always comes back: it returns or
    raises. *)
Lemma put_total (s : t) (data : bytes) : put s data <> OutOfFuel.
Proof.
  unfold put. destruct (to_read s =? 0).
  - apply handle_frame_total.
  - apply consume_total.
Qed.

End Engine.

(** ** Slices and file writes *)

Lemma len_app (a b : bytes) : len (a ++ b) = len a + len b.
Proof. unfold len. rewrite length_app. lia. Qed.

Lemma len_nonneg (a : bytes) : 0 <= len a.
Proof. unfold len. lia. Qed.

Lemma is_empty_true (a : bytes) : is_empty a = true <-> a = [].
Proof. destruct a; cbn; split; intros; congruence. Qed.

Lemma slice_to_nonneg (data : bytes) (n : Z) :
  0 <= n -> slice_to data n = firstn (Z.to_nat n) data.
Proof.
  intros H. unfold slice_to.
  destruct (Z.ltb_spec n 0); [lia | reflexivity].
Qed.

Lemma slice_from_nonneg (data : bytes) (n : Z) :
  0 <= n -> slice_from data n = skipn (Z.to_nat n) data.
Proof.
  intros H. unfold slice_from.
  destruct (Z.ltb_spec n 0); [lia | reflexivity].
Qed.

Lemma slice_to_app (a b : bytes) (n : Z) :
  0 <= n ->
  slice_to (a ++ b) n = slice_to a n ++ slice_to b (Z.max 0 (n - len a)).
Proof.
  intros H. rewrite !slice_to_nonneg by lia.
  rewrite firstn_app. f_equal. f_equal. unfold len. lia.
Qed.

Lemma slice_from_app (a b : bytes) (n : Z) :
  0 <= n ->
  slice_from (a ++ b) n
  = slice_from a n ++ slice_from b (Z.max 0 (n - len a)).
Proof.
  intros H. rewrite !slice_from_nonneg by lia.
  rewrite skipn_app. f_equal. f_equal. unfold len. lia.
Qed.

Lemma slice_to_all (a : bytes) (n : Z) : len a <= n -> slice_to a n = a.
Proof.
  intros H. pose proof (len_nonneg a).
  rewrite slice_to_nonneg by lia.
  apply firstn_all2. unfold len in H. lia.
Qed.

Lemma slice_from_all (a : bytes) (n : Z) : len a <= n -> slice_from a n = [].
Proof.
  intros H. pose proof (len_nonneg a).
  rewrite slice_from_nonneg by lia.
  apply skipn_all2. unfold len in H. lia.
Qed.

Lemma slice_to_0 (a : bytes) : slice_to a 0 = [].
Proof. reflexivity. Qed.

Lemma slice_from_0 (a : bytes) : slice_from a 0 = a.
Proof. reflexivity. Qed.

Lemma slice_to_len (a : bytes) (n : Z) :
  0 <= n -> len (slice_to a n) = Z.min n (len a).
Proof.
  intros H. rewrite slice_to_nonneg by lia.
  unfold len. rewrite length_firstn. lia.
Qed.

(** Writing two pieces one after the other is writing them joined. *)
Lemma file_write_app (f : File) (a b : bytes) :
  file_write f (a ++ b)
  = (fst (file_write (fst (file_write f a)) b),
     snd (file_write f a) + snd (file_write (fst (file_write f a)) b)).
Proof.
  destruct a as [|x a].
  { cbn [app file_write fst snd]. destruct (file_write f b). reflexivity. }
  destruct b as [|y b].
  { rewrite app_nil_r. cbn [file_write fst snd].
    rewrite Z.add_0_r. reflexivity. }
  remember (x :: a) as u eqn:Eu. remember (y :: b) as v eqn:Ev.
  assert (Hu : file_write f u
               = (mkFile (firstn (pos f) (content f)
                          ++ repeat x00 (pos f - List.length (content f))
                          ++ u ++ skipn (pos f + List.length u) (content f))
                    (pos f + List.length u), len u))
    by (subst u; reflexivity).
  assert (Hv : forall g, file_write g v
               = (mkFile (firstn (pos g) (content g)
                          ++ repeat x00 (pos g - List.length (content g))
                          ++ v ++ skipn (pos g + List.length v) (content g))
                    (pos g + List.length v), len v))
    by (intros g; subst v; reflexivity).
  assert (Huv : file_write f (u ++ v)
               = (mkFile (firstn (pos f) (content f)
                          ++ repeat x00 (pos f - List.length (content f))
                          ++ (u ++ v)
                          ++ skipn (pos f + List.length (u ++ v)) (content f))
                    (pos f + List.length (u ++ v)), len (u ++ v)))
    by (subst u; reflexivity).
  rewrite Huv, Hu. cbn [fst snd]. rewrite Hv. cbn [fst snd content pos].
  clear Hu Hv Huv Eu Ev x a y b.
  set (c := content f). set (p := pos f).
  set (pre := firstn p c ++ repeat x00 (p - List.length c)).
  assert (Hpre : List.length pre = p).
  { unfold pre. rewrite length_app, length_firstn, repeat_length. lia. }
  rewrite len_app, length_app.
  f_equal. f_equal; [|lia].
  rewrite (app_assoc (firstn p c)). fold pre.
  replace (firstn p c ++ repeat x00 (p - List.length c)
           ++ u ++ skipn (p + List.length u) c)
    with ((pre ++ u) ++ skipn (p + List.length u) c)
    by (unfold pre; rewrite <- !app_assoc; reflexivity).
  assert (Hpu : List.length (pre ++ u) = (p + List.length u)%nat)
    by (rewrite length_app; lia).
  rewrite firstn_app, Hpu, Nat.sub_diag. rewrite <- Hpu at 1.
  rewrite firstn_all. cbn [firstn]. rewrite app_nil_r.
  replace (p + List.length u
           - List.length ((pre ++ u) ++ skipn (p + List.length u) c))%nat
    with 0%nat by (rewrite length_app; lia).
  cbn [repeat app].
  rewrite skipn_app, Hpu.
  rewrite (skipn_all2 (pre ++ u)) by lia.
  replace (p + List.length u + List.length v - (p + List.length u))%nat
    with (List.length v) by lia.
  rewrite skipn_skipn.
  replace (List.length v + (p + List.length u))%nat
    with (p + (List.length u + List.length v))%nat by lia.
  rewrite <- !app_assoc. reflexivity.
Qed.

Lemma buffer_write_app (b : FileBackedBuffer.t) (x y : bytes) :
  FileBackedBuffer.write b (x ++ y)
  = (fst (FileBackedBuffer.write (fst (FileBackedBuffer.write b x)) y),
     snd (FileBackedBuffer.write b x)
     + snd (FileBackedBuffer.write (fst (FileBackedBuffer.write b x)) y)).
Proof.
  unfold FileBackedBuffer.write.
  rewrite file_write_app.
  destruct (file_write (FileBackedBuffer.fp b) x) as [f1 w1].
  cbn [fst snd FileBackedBuffer.fp FileBackedBuffer.length
       FileBackedBuffer._min_chunk FileBackedBuffer._max_chunk].
  destruct (file_write f1 y) as [f2 w2].
  cbn [fst snd]. rewrite Z.add_assoc. reflexivity.
Qed.

Lemma buffer_write_nil (b : FileBackedBuffer.t) :
  FileBackedBuffer.write b [] = (b, 0).
Proof.
  unfold FileBackedBuffer.write. cbn [file_write].
  rewrite Z.add_0_r. destruct b. reflexivity.
Qed.

Lemma buffer_write_written (b : FileBackedBuffer.t) (x : bytes) :
  snd (FileBackedBuffer.write b x) = len x.
Proof.
  unfold FileBackedBuffer.write, file_write.
  destruct x; reflexivity.
Qed.

(** ** Chunk boundaries *)

Section Chunking.

Context {serde : Serde}.

Import FramedBuffer.

Lemma agree_refl (o : outcome) : agree o o.
Proof. destruct o; cbn; auto. Qed.

Lemma agree_trans (o1 o2 o3 : outcome) :
  agree o1 o2 -> agree o2 o3 -> agree o1 o3.
Proof.
  destruct o1, o2, o3; cbn; try tauto; try congruence.
  intros [-> ->] [-> ->]. auto.
Qed.

Lemma agree_eq (o1 o2 : outcome) : o1 = o2 -> agree o1 o2.
Proof. intros ->. apply agree_refl. Qed.

Lemma finish_to_read (s s' : t) : finish s = Done s' -> to_read s' = 0.
Proof.
  unfold finish, load_bb.
  destruct (current_frame s) as [frame|]; [|discriminate].
  destruct (FileBackedBuffer.read (FileBackedBuffer.seek (bb s) 0) (-1))
    as [data b].
  destruct (Frame.type_ frame =? Frame.Types.HEADER).
  { destruct (load data); [|discriminate].
    intros [= <-]. reflexivity. }
  destruct (Frame.type_ frame =? Frame.Types.PAYLOAD).
  { intros [= <-]. reflexivity. }
  destruct (Frame.type_ frame =? Frame.Types.COMMAND); [|discriminate].
  destruct (load data); [|discriminate].
  intros [= <-]. reflexivity.
Qed.

Lemma set_framebuffer_same (s : t) :
  set_framebuffer s (framebuffer s) = s.
Proof. destruct s. reflexivity. Qed.

(** An empty chunk while a frame header is awaited changes nothing. *)
Lemma handle_frame_nil (s : t) :
  (List.length (framebuffer s) < Frame.fmt_size)%nat ->
  handle_frame s [] = Done s.
Proof.
  intros H. rewrite handle_frame_eq. cbv zeta.
  cbn [framebuffer set_framebuffer]. rewrite app_nil_r.
  rewrite from_data_short by exact H.
  rewrite set_framebuffer_same. reflexivity.
Qed.

Lemma from_data_more (l extra : bytes) :
  (Frame.fmt_size <= List.length l)%nat ->
  Frame.from_data (l ++ extra)
  = match Frame.from_data l with
    | Ok (f, rest) => Ok (f, rest ++ extra)
    | Raise e => Raise e
    end.
Proof.
  intros H. unfold Frame.from_data.
  rewrite firstn_app, skipn_app.
  replace (Frame.fmt_size - List.length l)%nat with 0%nat by lia.
  cbn [firstn skipn]. rewrite app_nil_r.
  destruct (Frame.deserialize (firstn Frame.fmt_size l)); reflexivity.
Qed.

Lemma from_data_long (l : bytes) :
  (Frame.fmt_size <= List.length l)%nat ->
  Frame.from_data l <> Raise StructError.
Proof.
  intros H. unfold Frame.from_data, Frame.deserialize.
  destruct (firstn Frame.fmt_size l) as [|t [|v r]] eqn:E.
  - apply (f_equal (@List.length _)) in E.
    rewrite length_firstn in E. cbn [List.length] in E.
    unfold Frame.fmt_size in *. lia.
  - apply (f_equal (@List.length _)) in E.
    rewrite length_firstn in E. cbn [List.length] in E.
    unfold Frame.fmt_size in *. lia.
  - rewrite <- E, length_firstn.
    replace (Nat.min Frame.fmt_size (List.length l)) with Frame.fmt_size
      by lia.
    rewrite Nat.eqb_refl. unfold Frame.Types.of_int.
    destruct (Frame.Types.mem _); discriminate.
Qed.

Lemma from_data_length_range (l : bytes) (f : Frame.t) (rest : bytes) :
  Frame.from_data l = Ok (f, rest) -> 0 <= Frame.length f < 2 ^ 32.
Proof.
  unfold Frame.from_data, Frame.deserialize.
  destruct (firstn Frame.fmt_size l) as [|t [|v r]]; try discriminate.
  destruct (Nat.eqb_spec (List.length (t :: v :: r)) Frame.fmt_size)
    as [Hl|]; [|discriminate].
  destruct (Frame.Types.of_int _); [|discriminate].
  cbn [bind]. intros [= <- _]. cbn [Frame.length].
  pose proof (be_value_range (firstn 4 (skipn 4 r))) as Hr.
  rewrite length_firstn, length_skipn in Hr.
  cbn [List.length] in Hl. unfold Frame.fmt_size in Hl.
  replace (Nat.min 4 (List.length r - 4)) with 4%nat in Hr by lia.
  exact Hr.
Qed.

(** Once the body is complete, bytes behind it do not change what
    [consume] does before it awaits [handle_frame]. *)
Lemma consume_step_app (s : t) (a b : bytes) :
  0 <= to_read s <= len a ->
  consume_step s (a ++ b) = consume_step s a.
Proof.
  intros H. unfold consume_step.
  rewrite slice_to_app by lia.
  replace (Z.max 0 (to_read s - len a)) with 0 by lia.
  rewrite slice_to_0, app_nil_r. reflexivity.
Qed.

Lemma consume_step_to_read (s s' : t) (a : bytes) :
  0 <= to_read s <= len a ->
  consume_step s a = Done s' -> to_read s' = 0.
Proof.
  intros H. unfold consume_step.
  pose proof (buffer_write_written (bb s) (slice_to a (to_read s))) as Hw.
  destruct (FileBackedBuffer.write (bb s) (slice_to a (to_read s)))
    as [b1 w1].
  cbn [snd] in Hw. rewrite slice_to_len in Hw by lia.
  cbn [to_read set_to_read].
  destruct (Z.eqb_spec (to_read s - w1) 0); [|lia].
  apply finish_to_read.
Qed.

(** A body still incomplete after [a]: the next [put] continues it. *)
Lemma consume_short (s : t) (a b : bytes) :
  len a < to_read s ->
  then_put (consume s a) b = consume s (a ++ b).
Proof.
  intros H. pose proof (len_nonneg a) as Ha.
  rewrite (consume_eq s a), (consume_eq s (a ++ b)).
  unfold consume_step.
  rewrite slice_to_app, slice_from_app by lia.
  rewrite (slice_to_all a), (slice_from_all a) by lia.
  replace (Z.max 0 (to_read s - len a)) with (to_read s - len a) by lia.
  rewrite buffer_write_app.
  pose proof (buffer_write_written (bb s) a) as Hw.
  destruct (FileBackedBuffer.write (bb s) a) as [b1 w1].
  cbn [fst snd] in *. subst w1.
  cbn [to_read set_to_read set_bb].
  destruct (Z.eqb_spec (to_read s - len a) 0); [lia|].
  cbn [is_empty then_put app]. unfold put.
  cbn [to_read set_to_read set_bb].
  destruct (Z.eqb_spec (to_read s - len a) 0); [lia|].
  rewrite consume_eq. unfold consume_step.
  cbn [to_read set_to_read set_bb bb].
  destruct (FileBackedBuffer.write b1 (slice_to b (to_read s - len a)))
    as [b2 w2].
  cbn [fst snd to_read set_to_read set_bb].
  replace (to_read s - (len a + w2)) with (to_read s - len a - w2) by lia.
  reflexivity.
Qed.

Lemma split_agree (n : nat) :
  (forall s a b,
      (List.length (framebuffer s) + List.length a + List.length b < n)%nat ->
      to_read s = 0 ->
      agree (then_put (handle_frame s a) b) (handle_frame s (a ++ b)))
  /\
  (forall s a b,
      (List.length (framebuffer s) + List.length a + List.length b < n)%nat ->
      0 <= to_read s ->
      (List.length (framebuffer s) < Frame.fmt_size)%nat ->
      agree (then_put (consume s a) b) (consume s (a ++ b))).
Proof.
  induction n as [|n [IHh IHc]]; [split; intros; lia|].
  assert (Hh : forall s a b,
      (List.length (framebuffer s) + List.length a + List.length b < S n)%nat ->
      to_read s = 0 ->
      agree (then_put (handle_frame s a) b) (handle_frame s (a ++ b))).
  { intros s a b Hm Ht.
    destruct (Nat.lt_ge_cases (List.length (framebuffer s ++ a))
                Frame.fmt_size) as [Hshort|Hlong].
    - rewrite (handle_frame_eq s a). cbv zeta.
      cbn [framebuffer set_framebuffer].
      rewrite from_data_short by exact Hshort.
      cbn [then_put]. unfold put. cbn [to_read set_framebuffer].
      rewrite Ht. cbn [Z.eqb].
      rewrite (handle_frame_eq _ b), (handle_frame_eq s (a ++ b)).
      cbv zeta. cbn [framebuffer set_framebuffer].
      unfold set_framebuffer.
      cbn [q header framebuffer bb current_frame to_read].
      rewrite <- app_assoc. apply agree_refl.
    - rewrite (handle_frame_eq s a), (handle_frame_eq s (a ++ b)).
      cbv zeta. cbn [framebuffer set_framebuffer].
      rewrite (app_assoc (framebuffer s) a b).
      rewrite (from_data_more (framebuffer s ++ a) b Hlong).
      pose proof (from_data_long _ Hlong) as Hne.
      destruct (Frame.from_data (framebuffer s ++ a))
        as [[frame rest]|e] eqn:E.
      + destruct (negb (Frame.Types.mem (Frame.type_ frame))).
        { cbn. split; reflexivity. }
        pose proof (from_data_length_range _ _ _ E) as Hr.
        apply from_data_returns in E as (-> & Hlen & _).
        apply IHc.
        * cbn [framebuffer set_to_read set_current_frame set_framebuffer
               List.length].
          rewrite length_skipn. rewrite length_app in *.
          unfold Frame.fmt_size in *. lia.
        * cbn [to_read set_to_read]. lia.
        * cbn. unfold Frame.fmt_size. lia.
      + destruct e; try (cbn; split; reflexivity).
        congruence. }
  split; [exact Hh|].
  intros s a b Hm Ht Hfb.
  destruct (Z.lt_ge_cases (len a) (to_read s)) as [Hlt|Hge].
  { apply agree_eq, consume_short, Hlt. }
  rewrite (consume_eq s a), (consume_eq s (a ++ b)).
  rewrite consume_step_app by lia.
  rewrite (slice_from_app a b) by lia.
  replace (Z.max 0 (to_read s - len a)) with 0 by lia.
  rewrite slice_from_0.
  destruct (consume_step s a) as [s2| |] eqn:Es; try apply agree_refl.
  pose proof (consume_step_to_read _ _ _ (conj Ht Hge) Es) as Ht2.
  pose proof (consume_step_framebuffer _ _ _ Es) as Hfb2.
  pose proof (slice_from_length a (to_read s)) as Hr.
  destruct (slice_from a (to_read s)) as [|x r] eqn:Er.
  - cbn [is_empty app then_put]. unfold put. rewrite Ht2. cbn [Z.eqb].
    destruct b as [|y b].
    + cbn [is_empty]. rewrite handle_frame_nil by (rewrite Hfb2; exact Hfb).
      reflexivity.
    + cbn [is_empty]. apply agree_refl.
  - cbn [is_empty app]. apply Hh; [|exact Ht2].
    rewrite Hfb2. cbn [List.length] in *. lia.
Qed.

End Chunking.

Example flat_ping_bytes :
  FlatJson.dumps FlatJson.ping
  = Ok [x7b; x22; x74; x79; x70; x65; x22; x3a; x20;
        x22; x70; x69; x6e; x67; x22; x7d].
Proof. reflexivity. Qed.

Example flat_ping_load :
  bind (FlatJson.dumps FlatJson.ping) FlatJson.load = Ok FlatJson.ping.
Proof. reflexivity. Qed.

(** ** States between two calls of [put] *)

Section Invariant.

Context {serde : Serde}.

Import FramedBuffer.

Lemma between_puts_init : between_puts __init__.
Proof. split; cbn; unfold Frame.fmt_size; lia. Qed.

Lemma consume_step_to_read_nonneg (s s' : t) (data : bytes) :
  0 <= to_read s -> consume_step s data = Done s' -> 0 <= to_read s'.
Proof.
  intros H. unfold consume_step.
  pose proof (buffer_write_written (bb s) (slice_to data (to_read s)))
    as Hw.
  destruct (FileBackedBuffer.write (bb s) (slice_to data (to_read s)))
    as [b1 w1].
  cbn [snd] in Hw. rewrite slice_to_len in Hw by lia.
  cbn [to_read set_to_read].
  destruct (Z.eqb_spec (to_read s - w1) 0).
  - intros Hf. apply finish_to_read in Hf. lia.
  - intros [= <-]. cbn [to_read set_to_read]. lia.
Qed.

Lemma handle_frame_fuel_between (fuel : nat) (s s' : t) (data : bytes) :
  0 <= to_read s ->
  handle_frame_fuel fuel s data = Done s' -> between_puts s'.
Proof.
  revert s s' data.
  induction fuel as [|fuel IH]; intros s s' data Ht; [discriminate|].
  rewrite handle_frame_fuel_S. cbv zeta. cbn [framebuffer set_framebuffer].
  destruct (Frame.from_data (framebuffer s ++ data)) as [[frame rest]|e]
    eqn:E.
  - destruct (negb _); [discriminate|].
    pose proof (from_data_length_range _ _ _ E) as Hr.
    rewrite consume_with_step.
    match goal with |- context [consume_step ?s0 ?d] =>
      destruct (consume_step s0 d) as [s1| |] eqn:Es
    end; try discriminate.
    pose proof (consume_step_framebuffer _ _ _ Es) as Hfb.
    apply consume_step_to_read_nonneg in Es;
      [|cbn [to_read set_to_read]; lia].
    destruct (is_empty _).
    + intros [= <-]. split; [exact Es|].
      rewrite Hfb. cbn. unfold Frame.fmt_size. lia.
    + apply IH. exact Es.
  - destruct (Nat.lt_ge_cases (List.length (framebuffer s ++ data))
                Frame.fmt_size) as [Hshort|Hlong].
    + destruct e; try discriminate.
      intros [= <-]. split; [exact Ht | exact Hshort].
    + pose proof (from_data_long _ Hlong) as Hne.
      destruct e; try discriminate. congruence.
Qed.

Lemma put_between (s s' : t) (data : bytes) :
  between_puts s -> put s data = Done s' -> between_puts s'.
Proof.
  intros [Ht Hfb]. unfold put. destruct (to_read s =? 0).
  - apply handle_frame_fuel_between. exact Ht.
  - unfold consume. rewrite consume_with_step.
    destruct (consume_step s data) as [s1| |] eqn:Es; try discriminate.
    pose proof (consume_step_framebuffer _ _ _ Es) as Hfb1.
    apply consume_step_to_read_nonneg in Es; [|exact Ht].
    destruct (is_empty _).
    + intros [= <-]. split; [exact Es | rewrite Hfb1; exact Hfb].
    + apply handle_frame_fuel_between. exact Es.
Qed.

Lemma consume_nil (s : t) : to_read s <> 0 -> consume s [] = Done s.
Proof.
  intros H. rewrite consume_eq. unfold consume_step.
  replace (slice_to [] (to_read s)) with (@nil byte)
    by (unfold slice_to; destruct (to_read s <? 0);
        rewrite firstn_nil; reflexivity).
  replace (slice_from [] (to_read s)) with (@nil byte)
    by (unfold slice_from; destruct (to_read s <? 0);
        rewrite skipn_nil; reflexivity).
  rewrite buffer_write_nil. cbn [to_read set_to_read set_bb].
  rewrite Z.sub_0_r.
  destruct (Z.eqb_spec (to_read s) 0); [contradiction|].
  cbn [is_empty]. destruct s. reflexivity.
Qed.

(** An empty chunk is ignored. *)
Lemma put_nil (s : t) : between_puts s -> put s [] = Done s.
Proof.
  intros [Ht Hfb]. unfold put.
  destruct (Z.eqb_spec (to_read s) 0).
  - apply handle_frame_nil. exact Hfb.
  - apply consume_nil. assumption.
Qed.

(** [put(a ++ b)] against [put(a)] followed by [put(b)]. *)
Lemma put_split (s : t) (a b : bytes) :
  between_puts s -> agree (then_put (put s a) b) (put s (a ++ b)).
Proof.
  intros [Ht Hfb].
  pose proof (split_agree
                (S (List.length (framebuffer s) + List.length a
                    + List.length b))) as [Hh Hc].
  unfold put at 1 2. destruct (Z.eqb_spec (to_read s) 0).
  - apply Hh; [lia | assumption].
  - apply Hc; [lia | assumption | assumption].
Qed.

(** Any chunking against the whole input at once. *)
Lemma put_all_agree (chunks : list bytes) (s : t) :
  between_puts s ->
  agree (put_all s chunks) (put s (List.concat chunks)).
Proof.
  revert s. induction chunks as [|c chunks IH]; intros s Hs.
  - cbn [put_all List.concat]. rewrite put_nil by exact Hs. reflexivity.
  - cbn [put_all List.concat].
    pose proof (put_split s c (List.concat chunks) Hs) as Hsplit.
    destruct (put s c) as [s1| |] eqn:E.
    + cbn [then_put] in Hsplit.
      eapply agree_trans; [|exact Hsplit].
      apply IH. eapply put_between; eassumption.
    + exact Hsplit.
    + exact Hsplit.
Qed.

End Invariant.

(** ** The depth of the recursion *)

Section Stack.

Context {serde : Serde}.

Import FramedBuffer.

(** More stack changes nothing for a run that had enough. *)
Lemma handle_frame_fuel_mono (n : nat) :
  forall (m : nat) (s : t) (data : bytes),
    (n <= m)%nat ->
    handle_frame_fuel n s data <> OutOfFuel ->
    handle_frame_fuel m s data = handle_frame_fuel n s data.
Proof.
  induction n as [|n IH]; intros m s data Hle Hne;
    [cbn in Hne; congruence|].
  destruct m as [|m]; [lia|].
  revert Hne. rewrite !handle_frame_fuel_S. cbv zeta.
  cbn [framebuffer set_framebuffer].
  destruct (Frame.from_data (framebuffer s ++ data)) as [[frame rest]|e];
    [|reflexivity].
  destruct (negb (Frame.Types.mem (Frame.type_ frame))); [reflexivity|].
  rewrite !consume_with_step.
  match goal with |- context [consume_step ?s0 ?d] =>
    destruct (consume_step s0 d) as [s'| |]
  end; try reflexivity.
  destruct (is_empty _); [reflexivity|].
  intros Hne. apply IH; [lia | exact Hne].
Qed.

Lemma consume_with_mono (n m : nat) (s : t) (data : bytes) :
  (n <= m)%nat ->
  consume_with (handle_frame_fuel n) s data <> OutOfFuel ->
  consume_with (handle_frame_fuel m) s data
  = consume_with (handle_frame_fuel n) s data.
Proof.
  intros Hle. rewrite !consume_with_step.
  destruct (consume_step s data) as [s'| |]; try reflexivity.
  destruct (is_empty _); [reflexivity|].
  apply handle_frame_fuel_mono. exact Hle.
Qed.

Lemma put_within_mono (n m : nat) (s : t) (data : bytes) :
  (n <= m)%nat ->
  put_within n s data <> OutOfFuel ->
  put_within m s data = put_within n s data.
Proof.
  intros Hle. unfold put_within. destruct (to_read s =? 0).
  - apply handle_frame_fuel_mono. exact Hle.
  - apply consume_with_mono. exact Hle.
Qed.

Lemma put_within_fuel_for (s : t) (data : bytes) :
  put_within (fuel_for s data) s data = put s data.
Proof. reflexivity. Qed.

(** A [put] that stays within the limit does what [put] does on a stack
    deep enough. *)
Lemma put_within_put (limit : nat) (s : t) (data : bytes) :
  put_within limit s data <> OutOfFuel ->
  put_within limit s data = put s data.
Proof.
  intros Hne. rewrite <- put_within_fuel_for.
  destruct (Nat.le_ge_cases limit (fuel_for s data)) as [Hle|Hge].
  - symmetry. apply put_within_mono; assumption.
  - apply put_within_mono; [exact Hge|].
    rewrite put_within_fuel_for. apply put_total.
Qed.

(** Twenty-six bytes of input for every activation but the first. *)
Lemma handle_frame_fuel_fits (k : nat) :
  forall (s : t) (data : bytes),
    (1 <= k)%nat ->
    (List.length (framebuffer s) + List.length data <= Frame.fmt_size * k)%nat ->
    handle_frame_fuel k s data <> OutOfFuel.
Proof.
  induction k as [|k IH]; intros s data Hk Hlen; [lia|].
  rewrite handle_frame_fuel_S. cbv zeta. cbn [framebuffer set_framebuffer].
  destruct (Frame.from_data (framebuffer s ++ data)) as [[frame rest]|e]
    eqn:E.
  - destruct (negb (Frame.Types.mem (Frame.type_ frame))); [discriminate|].
    apply from_data_returns in E as (-> & Hl & _).
    rewrite length_app in Hl.
    rewrite consume_with_step.
    match goal with |- context [consume_step ?s0 ?d] =>
      pose proof (consume_step_total s0 d) as Ht;
      destruct (consume_step s0 d) as [s'| |] eqn:Es
    end; try discriminate; try congruence.
    apply consume_step_framebuffer in Es. cbn in Es.
    pose proof (slice_from_length
                  (skipn Frame.fmt_size (framebuffer s ++ data))
                  (Frame.length frame)) as Hs.
    rewrite length_skipn, length_app in Hs.
    destruct (slice_from _ _) as [|x r] eqn:Er; [discriminate|].
    cbn [is_empty].
    apply IH; rewrite ?Es; cbn [List.length to_read set_to_read] in *;
      unfold Frame.fmt_size in *; lia.
  - destruct e; discriminate.
Qed.

Lemma put_within_fits (limit : nat) (s : t) (data : bytes) :
  between_puts s -> fits_within limit data ->
  put_within limit s data <> OutOfFuel.
Proof.
  intros [Ht Hfb] Hfit. unfold fits_within in Hfit. unfold put_within.
  destruct (to_read s =? 0).
  - apply handle_frame_fuel_fits; unfold Frame.fmt_size in *; lia.
  - rewrite consume_with_step.
    pose proof (consume_step_total s data) as Hc.
    destruct (consume_step s data) as [s'| |] eqn:Es; try discriminate;
      try congruence.
    destruct (is_empty _); [discriminate|].
    apply consume_step_framebuffer in Es.
    pose proof (slice_from_length data (to_read s)) as Hs.
    apply handle_frame_fuel_fits; rewrite ?Es;
      unfold Frame.fmt_size in *; lia.
Qed.

(** As long as no call hits the limit, the caller's loop is the one on a
    stack deep enough. *)
Lemma put_all_within_put_all (limit : nat) (chunks : list bytes) :
  forall s,
    put_all_within limit s chunks <> OutOfFuel ->
    put_all_within limit s chunks = put_all s chunks.
Proof.
  induction chunks as [|c chunks IH]; intros s Hne; [reflexivity|].
  cbn [put_all_within put_all] in *.
  destruct (put_within limit s c) as [s1|e s1|] eqn:E.
  - rewrite <- (put_within_put limit s c) by (rewrite E; discriminate).
    rewrite E. apply IH. exact Hne.
  - rewrite <- (put_within_put limit s c) by (rewrite E; discriminate).
    rewrite E. reflexivity.
  - congruence.
Qed.

Lemma put_all_within_fits (limit : nat) (chunks : list bytes) :
  forall s,
    between_puts s -> Forall (fits_within limit) chunks ->
    put_all_within limit s chunks <> OutOfFuel.
Proof.
  induction chunks as [|c chunks IH]; intros s Hs Hall; [discriminate|].
  inversion Hall as [|? ? Hc Hcs]; subst.
  cbn [put_all_within].
  pose proof (put_within_fits limit s c Hs Hc) as Hne.
  pose proof (put_within_put limit s c Hne) as Heq.
  destruct (put_within limit s c) as [s1|e s1|]; try discriminate;
    try congruence.
  apply IH; [|exact Hcs].
  apply (put_between s s1 c Hs). symmetry. exact Heq.
Qed.

(** A body still incomplete after [a]: what comes behind it is consumed
    by the engine that [a] leaves. *)
Lemma consume_with_short (hf : t -> bytes -> outcome) (s : t) (a b : bytes) :
  len a < to_read s ->
  let s1 := set_to_read (set_bb s (fst (FileBackedBuffer.write (bb s) a)))
              (to_read s - len a) in
  consume_with hf s a = Done s1
  /\ consume_with hf s (a ++ b) = consume_with hf s1 b.
Proof.
  intros H s1. pose proof (len_nonneg a) as Ha. subst s1.
  rewrite !consume_with_step. unfold consume_step.
  rewrite slice_to_app, slice_from_app by lia.
  rewrite (slice_to_all a), (slice_from_all a) by lia.
  replace (Z.max 0 (to_read s - len a)) with (to_read s - len a) by lia.
  rewrite buffer_write_app.
  pose proof (buffer_write_written (bb s) a) as Hw.
  destruct (FileBackedBuffer.write (bb s) a) as [b1 w1].
  cbn [fst snd] in *. subst w1.
  cbn [to_read set_to_read set_bb bb].
  destruct (Z.eqb_spec (to_read s - len a) 0); [lia|].
  cbn [is_empty app]. split; [reflexivity|].
  destruct (FileBackedBuffer.write b1 (slice_to b (to_read s - len a)))
    as [b2 w2].
  cbn [fst snd to_read set_to_read set_bb].
  replace (to_read s - (len a + w2)) with (to_read s - len a - w2) by lia.
  reflexivity.
Qed.

(** Feeding an input in two parts never goes deeper than feeding it
    whole. *)
Lemma split_within (limit : nat) (Hl : (1 <= limit)%nat) (n : nat) :
  (forall k s a b,
      (List.length (framebuffer s) + List.length a + List.length b < n)%nat ->
      (k <= limit)%nat -> to_read s = 0 ->
      handle_frame_fuel k s (a ++ b) <> OutOfFuel ->
      then_put_within limit (handle_frame_fuel k s a) b <> OutOfFuel)
  /\
  (forall k s a b,
      (List.length (framebuffer s) + List.length a + List.length b < n)%nat ->
      (k <= limit)%nat -> 0 <= to_read s ->
      (List.length (framebuffer s) < Frame.fmt_size)%nat ->
      consume_with (handle_frame_fuel k) s (a ++ b) <> OutOfFuel ->
      then_put_within limit (consume_with (handle_frame_fuel k) s a) b
      <> OutOfFuel).
Proof.
  induction n as [|n [IHh IHc]]; [split; intros; lia|].
  assert (Hh : forall k s a b,
      (List.length (framebuffer s) + List.length a + List.length b < S n)%nat ->
      (k <= limit)%nat -> to_read s = 0 ->
      handle_frame_fuel k s (a ++ b) <> OutOfFuel ->
      then_put_within limit (handle_frame_fuel k s a) b <> OutOfFuel).
  { intros k s a b Hm Hk Ht Hne.
    destruct k as [|k]; [cbn in Hne; congruence|].
    destruct (Nat.lt_ge_cases (List.length (framebuffer s ++ a))
                Frame.fmt_size) as [Hshort|Hlong].
    - rewrite (handle_frame_fuel_S k s a). cbv zeta.
      cbn [framebuffer set_framebuffer].
      rewrite from_data_short by exact Hshort.
      cbn [then_put_within]. unfold put_within.
      cbn [to_read set_framebuffer]. rewrite Ht. cbn [Z.eqb].
      rewrite <- (handle_frame_fuel_mono (S k) limit s (a ++ b) Hk Hne)
        in Hne.
      destruct limit as [|l]; [lia|].
      rewrite handle_frame_fuel_S in Hne |- *. cbv zeta in Hne |- *.
      cbn [framebuffer set_framebuffer] in Hne |- *.
      unfold set_framebuffer in Hne |- *.
      cbn [q header framebuffer bb current_frame to_read] in Hne |- *.
      rewrite <- app_assoc. exact Hne.
    - revert Hne.
      rewrite (handle_frame_fuel_S k s a), (handle_frame_fuel_S k s (a ++ b)).
      cbv zeta. cbn [framebuffer set_framebuffer].
      rewrite (app_assoc (framebuffer s) a b).
      rewrite (from_data_more (framebuffer s ++ a) b Hlong).
      destruct (Frame.from_data (framebuffer s ++ a))
        as [[frame rest]|e] eqn:E.
      + destruct (negb (Frame.Types.mem (Frame.type_ frame)));
          [intros _; discriminate|].
        pose proof (from_data_length_range _ _ _ E) as Hr.
        apply from_data_returns in E as (-> & Hlen & _).
        apply IHc.
        * cbn [framebuffer set_to_read set_current_frame set_framebuffer
               List.length].
          rewrite length_skipn. rewrite length_app in *.
          unfold Frame.fmt_size in *. lia.
        * lia.
        * cbn [to_read set_to_read]. lia.
        * cbn. unfold Frame.fmt_size. lia.
      + intros _. destruct e; cbn [then_put_within]; try discriminate.
        exfalso. exact (from_data_long _ Hlong E). }
  split; [exact Hh|].
  intros k s a b Hm Hk Ht Hfb Hne.
  destruct (Z.lt_ge_cases (len a) (to_read s)) as [Hlt|Hge].
  { destruct (consume_with_short (handle_frame_fuel k) s a b Hlt)
      as [Ha Hab].
    rewrite Ha. cbn [then_put_within]. unfold put_within.
    cbn [to_read set_to_read].
    destruct (Z.eqb_spec (to_read s - len a) 0); [lia|].
    rewrite Hab in Hne.
    rewrite (consume_with_mono k limit _ b Hk Hne). exact Hne. }
  revert Hne.
  rewrite (consume_with_step _ s a), (consume_with_step _ s (a ++ b)).
  rewrite consume_step_app by lia.
  rewrite (slice_from_app a b) by lia.
  replace (Z.max 0 (to_read s - len a)) with 0 by lia.
  rewrite slice_from_0.
  destruct (consume_step s a) as [s2| |] eqn:Es;
    [|intros _; discriminate|intros H; exact H].
  pose proof (consume_step_to_read _ _ _ (conj Ht Hge) Es) as Ht2.
  pose proof (consume_step_framebuffer _ _ _ Es) as Hfb2.
  pose proof (slice_from_length a (to_read s)) as Hr.
  destruct (slice_from a (to_read s)) as [|x r] eqn:Er.
  - cbn [is_empty app then_put_within]. unfold put_within.
    rewrite Ht2. cbn [Z.eqb].
    destruct b as [|y b].
    + intros _. apply handle_frame_fuel_fits; [exact Hl|].
      rewrite Hfb2. cbn [List.length]. unfold Frame.fmt_size in *. lia.
    + cbn [is_empty]. intros Hne.
      rewrite (handle_frame_fuel_mono k limit s2 (y :: b) Hk Hne).
      exact Hne.
  - cbn [is_empty app]. apply (Hh k s2 (x :: r) b); [|exact Hk|exact Ht2].
    rewrite Hfb2. cbn [List.length] in *. lia.
Qed.

Lemma put_split_within (limit : nat) (s : t) (a b : bytes) :
  (1 <= limit)%nat -> between_puts s ->
  put_within limit s (a ++ b) <> OutOfFuel ->
  then_put_within limit (put_within limit s a) b <> OutOfFuel.
Proof.
  intros Hl [Ht Hfb].
  pose proof (split_within limit Hl
                (S (List.length (framebuffer s) + List.length a
                    + List.length b))) as [Hh Hc].
  unfold put_within at 1 2. destruct (Z.eqb_spec (to_read s) 0).
  - apply Hh; [lia | lia | assumption].
  - apply Hc; [lia | lia | assumption | assumption].
Qed.

(** When the whole input in one call stays within the limit, so does
    every chunking of it. *)
Lemma put_all_within_whole (limit : nat) (chunks : list bytes) :
  forall s,
    (1 <= limit)%nat -> between_puts s ->
    put_within limit s (List.concat chunks) <> OutOfFuel ->
    put_all_within limit s chunks <> OutOfFuel.
Proof.
  induction chunks as [|c chunks IH]; intros s Hl Hs Hne; [discriminate|].
  cbn [List.concat] in Hne. cbn [put_all_within].
  pose proof (put_split_within limit s c (List.concat chunks) Hl Hs Hne)
    as Hsplit.
  destruct (put_within limit s c) as [s1|e s1|] eqn:E;
    [|discriminate|exact Hsplit].
  cbn [then_put_within] in Hsplit.
  apply IH; [exact Hl| |exact Hsplit].
  apply (put_between s s1 c Hs).
  rewrite <- (put_within_put limit s c) by (rewrite E; discriminate).
  exact E.
Qed.

End Stack.

(** ** One frame and its body *)

Section Reassembly.

Context {serde : Serde}.

Import FramedBuffer.

Lemma write_from_temp (body : bytes) :
  FileBackedBuffer.write FileBackedBuffer.from_temp body
  = (spooled body, len body).
Proof.
  destruct body as [|x l]; [reflexivity|].
  unfold FileBackedBuffer.write, FileBackedBuffer.from_temp,
    FileBackedBuffer.__init__, file_write, spooled.
  cbn [FileBackedBuffer.fp FileBackedBuffer.length content pos
       FileBackedBuffer._min_chunk FileBackedBuffer._max_chunk].
  rewrite skipn_nil. cbn [firstn repeat Nat.sub app List.length Nat.add].
  rewrite app_nil_r. reflexivity.
Qed.

Lemma spooled_readall (body : bytes) :
  fst (FileBackedBuffer.readall (spooled body)) = body.
Proof. reflexivity. Qed.

Lemma from_data_layout (f : Frame.t) (rest : bytes) :
  frame_packable f -> Frame.Types.mem (Frame.type_ f) = true ->
  Frame.from_data (frame_layout f ++ rest) = Ok (on_wire f, rest).
Proof.
  intros Hp Hm.
  rewrite from_data_app by apply frame_layout_length.
  rewrite deserialize_layout by exact Hp.
  unfold Frame.Types.of_int. rewrite Hm. reflexivity.
Qed.

(** A whole frame and its whole body, from a state that awaits a frame:
    the body is spooled, [finish] dispatches, and what follows is handled
    as the start of the next frame. *)
Lemma handle_frame_body (s : t) (f : Frame.t) (body rest : bytes) :
  framebuffer s = [] ->
  frame_packable f -> Frame.Types.mem (Frame.type_ f) = true ->
  len body = Frame.length f ->
  handle_frame s (frame_layout f ++ body ++ rest)
  = match finish (mk (q s) (header s) []
                    (fst (FileBackedBuffer.write (bb s) body))
                    (Some (on_wire f)) 0) with
    | Done s' => if is_empty rest then Done s' else handle_frame s' rest
    | other => other
    end.
Proof.
  intros Hfb Hp Hm Hlen.
  pose proof Hp as (_ & _ & _ & Hl).
  rewrite handle_frame_eq. cbv zeta. cbn [framebuffer set_framebuffer].
  rewrite Hfb. cbn [app].
  rewrite from_data_layout by assumption.
  cbn [on_wire Frame.type_]. rewrite Hm. cbn [negb].
  rewrite consume_eq.
  pose proof (len_nonneg body) as Hb.
  rewrite consume_step_app
    by (cbn [to_read set_to_read Frame.length on_wire]; lia).
  cbn [to_read set_to_read Frame.length on_wire].
  rewrite slice_from_app by lia.
  rewrite slice_from_all by lia.
  replace (Z.max 0 (Frame.length f - len body)) with 0 by lia.
  rewrite slice_from_0. cbn [app].
  unfold consume_step.
  cbn [to_read set_to_read Frame.length bb set_current_frame
       set_framebuffer on_wire].
  rewrite slice_to_all by lia.
  pose proof (buffer_write_written (bb s) body) as Hw.
  destruct (FileBackedBuffer.write (bb s) body) as [b1 w1].
  cbn [fst snd] in *. subst w1.
  cbn [to_read set_to_read].
  replace (Frame.length f - len body) with 0 by lia.
  reflexivity.
Qed.

Lemma load_bb_spooled (s : t) (body : bytes) :
  bb s = spooled body -> load_bb s = (load body, s).
Proof.
  intros H. unfold load_bb, FileBackedBuffer.read, FileBackedBuffer.seek,
    file_read, file_seek. rewrite H.
  cbn [spooled FileBackedBuffer.fp FileBackedBuffer.length content pos
       FileBackedBuffer._min_chunk FileBackedBuffer._max_chunk
       skipn Z.ltb Z.compare Nat.add].
  f_equal. destruct s. cbn in H. subst. reflexivity.
Qed.

Lemma finish_HEADER (s : t) (f : Frame.t) (body : bytes) (h : json) :
  current_frame s = Some f -> Frame.type_ f = Frame.Types.HEADER ->
  bb s = spooled body -> load body = Ok h ->
  finish s
  = Done (mk (q s) h (framebuffer s) FileBackedBuffer.from_temp
            (current_frame s) 0).
Proof.
  intros Hcf Hty Hbb Hload. unfold finish.
  rewrite (load_bb_spooled s body Hbb), Hload.
  destruct s. cbn [current_frame] in Hcf. subst.
  cbn [current_frame]. rewrite Hty. reflexivity.
Qed.

Lemma finish_PAYLOAD (s : t) (f : Frame.t) :
  current_frame s = Some f -> Frame.type_ f = Frame.Types.PAYLOAD ->
  finish s
  = Done (mk (q s ++ [FramedMessage.mk (Frame.msg_id f) (header s)
                        (Some (bb s))])
            JNull (framebuffer s) FileBackedBuffer.from_temp
            (current_frame s) 0).
Proof.
  intros Hcf Hty. unfold finish.
  destruct s. cbn [current_frame] in Hcf. subst.
  cbn [current_frame]. rewrite Hty. reflexivity.
Qed.

Lemma finish_COMMAND (s : t) (f : Frame.t) (body : bytes) (h : json) :
  current_frame s = Some f -> Frame.type_ f = Frame.Types.COMMAND ->
  bb s = spooled body -> load body = Ok h ->
  finish s
  = Done (mk (q s ++ [FramedMessage.mk (Frame.msg_id f) h None])
            (header s) (framebuffer s) FileBackedBuffer.from_temp
            (current_frame s) 0).
Proof.
  intros Hcf Hty Hbb Hload. unfold finish.
  rewrite (load_bb_spooled s body Hbb), Hload.
  destruct s. cbn [current_frame] in Hcf. subst.
  cbn [current_frame]. rewrite Hty. reflexivity.
Qed.

End Reassembly.

(** ** What a message produces *)

Section Production.

Context {serde : Serde}.

Import FramedMessage.

Lemma read_chunks_returns (fuel : nat) (p : FileBackedBuffer.t) (size : Z) :
  (List.length (content (FileBackedBuffer.fp p))
   - pos (FileBackedBuffer.fp p) < fuel)%nat ->
  exists cs p',
    read_chunks fuel p size = Some (cs, p')
    /\ (size <> 0 ->
        List.concat cs
        = skipn (pos (FileBackedBuffer.fp p))
            (content (FileBackedBuffer.fp p))).
Proof.
  revert p. induction fuel as [|fuel IH]; intros p Hf; [lia|].
  cbn [read_chunks]. unfold FileBackedBuffer.read, file_read.
  set (avail := skipn (pos (FileBackedBuffer.fp p))
                  (content (FileBackedBuffer.fp p))).
  set (chunk := if size <? 0 then avail
                else firstn (Z.to_nat size) avail).
  assert (Hav : List.length avail
                = (List.length (content (FileBackedBuffer.fp p))
                   - pos (FileBackedBuffer.fp p))%nat)
    by (unfold avail; apply length_skipn).
  assert (Hsplit : exists k, chunk = firstn k avail
                             /\ (size <> 0 -> (0 < k)%nat)).
  { unfold chunk. destruct (Z.ltb_spec size 0).
    - exists (S (List.length avail)). split; [|lia].
      symmetry. apply firstn_all2. lia.
    - exists (Z.to_nat size). split; [reflexivity | lia]. }
  destruct Hsplit as (k & Hk & Hpos).
  destruct chunk as [|x chunk'] eqn:Ec.
  - cbn [is_empty]. do 2 eexists. split; [reflexivity|].
    intros Hs. cbn [List.concat]. specialize (Hpos Hs).
    destruct avail as [|y avail']; [reflexivity|].
    destruct k; [lia | discriminate].
  - cbn [is_empty]. pose proof Hk as Hk'.
    match goal with |- context [read_chunks fuel ?q size] =>
      destruct (IH q) as (cs & p' & Hrec & Hcat)
    end.
    { cbn [FileBackedBuffer.fp content pos]. cbn [List.length].
      apply (f_equal (@List.length _)) in Hk.
      rewrite length_firstn in Hk. cbn [List.length] in Hk. lia. }
    rewrite Hrec. do 2 eexists. split; [reflexivity|].
    intros Hs. cbn [List.concat]. rewrite (Hcat Hs).
    cbn [FileBackedBuffer.fp content pos].
    rewrite Nat.add_comm, <- skipn_skipn. fold avail.
    rewrite Hk'.
    assert (Hlen : List.length (firstn k avail) = Nat.min k (List.length avail))
      by apply length_firstn.
    destruct (Nat.le_ge_cases k (List.length avail)).
    + replace (List.length (firstn k avail)) with k by lia.
      apply firstn_skipn.
    + rewrite firstn_all2 by lia. rewrite skipn_all, app_nil_r.
      reflexivity.
Qed.

(** The generator always comes to an end. *)
Lemma iter_total (m : t) (w : World) : __iter__ m w <> None.
Proof.
  unfold __iter__, stop.
  destruct (dumps (header m)); [|discriminate].
  destruct (has_payload m) as [dual|]; [|discriminate].
  destruct (Frame.wrap _ _ _ w) as [f1 w1].
  destruct (Frame.serialize f1); [|discriminate].
  destruct (payload m) as [p|]; [|discriminate].
  destruct (negb dual); [discriminate|].
  destruct (FileBackedBuffer.__len__ p); [|discriminate].
  destruct (Frame.wrap _ _ _ w1) as [f2 w2].
  destruct (Frame.serialize f2); [|discriminate].
  match goal with |- context [read_chunks ?n ?q ?sz] =>
    destruct (read_chunks_returns n q sz) as (cs & p' & -> & _)
  end.
  - cbn. lia.
  - discriminate.
Qed.

Lemma produced_returns (a a' : bytes) (b b' : t) (c c' : World) :
  Some (Ok a, b, c) = Some (Ok a', b', c') -> a = a' /\ b = b' /\ c = c'.
Proof. intros [= -> -> ->]. auto. Qed.

(** A message without a (true) payload: one COMMAND frame, then the
    encoded header. *)
Lemma serialize_single (m m' : t) (w w' : World) (data : bytes) :
  has_payload m = Ok false ->
  serialize m w = Some (Ok data, m', w') ->
  exists hb f,
    dumps (header m) = Ok hb
    /\ (f, w') = Frame.wrap (len hb) Frame.Types.COMMAND
                   (Some (msg_id m)) w
    /\ frame_packable f
    /\ data = frame_layout f ++ hb.
Proof.
  intros Hp. unfold serialize, __iter__, stop. rewrite Hp.
  destruct (dumps (header m)) as [hb|]; [|intros [=]].
  destruct (Frame.wrap _ _ _ w) as [f w1] eqn:Ew.
  destruct (Frame.serialize f) as [fb|] eqn:Ef; [|intros [=]].
  apply serialize_returns in Ef as [Hpk ->].
  assert (Hgoal : Some (Ok (List.concat [frame_layout f; hb]), m, w1)
                  = Some (Ok data, m', w') ->
                  exists hb0 f0,
                    Ok hb = Ok hb0
                    /\ (f0, w') = Frame.wrap (len hb0) Frame.Types.COMMAND
                                    (Some (msg_id m)) w
                    /\ frame_packable f0
                    /\ data = frame_layout f0 ++ hb0).
  { intros H. apply produced_returns in H as (Hd & _ & Hw).
    exists hb, f. subst w' data. rewrite Ew.
    cbn [List.concat]. rewrite app_nil_r. auto. }
  destruct (payload m); cbn [negb raised chunks self_after world_after];
    exact Hgoal.
Qed.

(** A message with a true payload: a HEADER frame, the encoded header, a
    PAYLOAD frame, and the payload read from its start in chunks. *)
Lemma serialize_dual (m m' : t) (w w' : World) (data : bytes)
  (p : FileBackedBuffer.t) :
  payload m = Some p ->
  FileBackedBuffer.truth p = Ok true ->
  serialize m w = Some (Ok data, m', w') ->
  exists hb f1 w1 f2 body,
    dumps (header m) = Ok hb
    /\ (f1, w1) = Frame.wrap (len hb) Frame.Types.HEADER
                    (Some (msg_id m)) w
    /\ (f2, w') = Frame.wrap (FileBackedBuffer.length p)
                    Frame.Types.PAYLOAD (Some (msg_id m)) w1
    /\ frame_packable f1 /\ frame_packable f2
    /\ data = frame_layout f1 ++ hb ++ frame_layout f2 ++ body
    /\ (FileBackedBuffer.chunksize p <> 0 ->
        body = content (FileBackedBuffer.fp p)).
Proof.
  intros Hp Ht. unfold serialize, __iter__, stop, has_payload.
  rewrite Hp, Ht.
  destruct (dumps (header m)) as [hb|]; [|intros [=]].
  destruct (Frame.wrap _ _ _ w) as [f1 w1] eqn:Ew1.
  destruct (Frame.serialize f1) as [fb1|] eqn:Ef1; [|intros [=]].
  apply serialize_returns in Ef1 as [Hpk1 ->].
  cbn [negb].
  assert (Hlen : FileBackedBuffer.__len__ p
                 = Ok (FileBackedBuffer.length p)).
  { unfold FileBackedBuffer.truth in Ht.
    unfold FileBackedBuffer.__len__ in *.
    destruct (FileBackedBuffer.length p <? 0); [discriminate|reflexivity]. }
  rewrite Hlen.
  destruct (Frame.wrap _ _ _ w1) as [f2 w2] eqn:Ew2.
  destruct (Frame.serialize f2) as [fb2|] eqn:Ef2; [|intros [=]].
  apply serialize_returns in Ef2 as [Hpk2 ->].
  match goal with |- context [read_chunks ?n ?q ?sz] =>
    destruct (read_chunks_returns n q sz) as (cs & p' & -> & Hcat)
  end.
  { cbn. lia. }
  cbn [raised chunks self_after world_after].
  intros H. apply produced_returns in H as (Hd & _ & Hw). subst w' data.
  exists hb, f1, w1, f2, (List.concat cs).
  split; [reflexivity|].
  split; [symmetry; exact Ew1|].
  split; [symmetry; exact Ew2|].
  split; [exact Hpk1|].
  split; [exact Hpk2|].
  split.
  - rewrite concat_app. cbn [List.concat app].
    rewrite app_nil_r, <- !app_assoc. reflexivity.
  - intros Hc. apply Hcat. exact Hc.
Qed.

End Production.

(** ** Random identifiers *)

Lemma testbit_small (a n : Z) :
  0 <= a -> Z.log2 a < n -> Z.testbit a n = false.
Proof. intros. apply Z.bits_above_log2; assumption. Qed.

Lemma uuid4_testbit (r n : Z) :
  0 <= n ->
  Z.testbit (uuid4_of_random r) n
  = if n =? 78 then true
    else if uuid4_fixed_bit n then (n =? 63)
    else if n <? 128 then Z.testbit r n
    else false.
Proof.
  intros Hn. unfold uuid4_of_random, uuid4_fixed_bit.
  change (Z.shiftl 0xc000 48) with (Z.shiftl 3 62).
  change (Z.shiftl 0x8000 48) with (Z.shiftl 1 63).
  change (Z.shiftl 0xf000 64) with (Z.shiftl 15 76).
  change (Z.shiftl 4 76) with (Z.shiftl 1 78).
  repeat first [ rewrite Z.lor_spec | rewrite Z.land_spec
               | rewrite Z.lnot_spec by lia ].
  rewrite !Z.shiftl_spec by lia.
  assert (Hr : Z.testbit (r mod 2 ^ 128) n
               = if n <? 128 then Z.testbit r n else false).
  { destruct (Z.ltb_spec n 128).
    - apply Z.mod_pow2_bits_low. lia.
    - apply Z.mod_pow2_bits_high. lia. }
  rewrite Hr. clear Hr.
  assert (H1 : Z.testbit 1 (n - 78) = (n =? 78)).
  { destruct (Z.eqb_spec n 78) as [->|]; [reflexivity|].
    destruct (Z.ltb_spec n 78).
    - apply Z.testbit_neg_r. lia.
    - apply testbit_small; cbn; lia. }
  assert (H2 : Z.testbit 1 (n - 63) = (n =? 63)).
  { destruct (Z.eqb_spec n 63) as [->|]; [reflexivity|].
    destruct (Z.ltb_spec n 63).
    - apply Z.testbit_neg_r. lia.
    - apply testbit_small; cbn; lia. }
  assert (H3 : Z.testbit 3 (n - 62) = (n =? 62) || (n =? 63)).
  { destruct (Z.eqb_spec n 62) as [->|]; [reflexivity|].
    destruct (Z.eqb_spec n 63) as [->|]; [reflexivity|].
    destruct (Z.ltb_spec n 62).
    - apply Z.testbit_neg_r. lia.
    - apply testbit_small; cbn; lia. }
  assert (H4 : Z.testbit 15 (n - 76) = (76 <=? n) && (n <=? 79)).
  { destruct (Z.leb_spec 76 n); cbn [andb].
    - destruct (Z.leb_spec n 79).
      + assert (Hc : n = 76 \/ n = 77 \/ n = 78 \/ n = 79) by lia.
        destruct Hc as [->|[->|[->| ->]]]; reflexivity.
      + apply testbit_small; cbn; lia.
    - apply Z.testbit_neg_r. lia. }
  rewrite H1, H2, H3, H4. clear H1 H2 H3 H4.
  destruct (Z.eqb_spec n 78) as [->|]; [apply orb_true_r|].
  destruct (Z.eqb_spec n 62) as [->|];
    [cbn; rewrite andb_false_r; reflexivity|].
  destruct (Z.eqb_spec n 63) as [->|];
    [cbn; rewrite andb_false_r; reflexivity|].
  cbn [orb negb andb].
  destruct ((76 <=? n) && (n <=? 79)); cbn [orb negb andb].
  - rewrite andb_false_r. reflexivity.
  - rewrite !andb_true_r, !orb_false_r. reflexivity.
Qed.

Lemma uuid4_nonzero (r : Z) : uuid4_of_random r <> 0.
Proof.
  intros H.
  pose proof (uuid4_testbit r 78 ltac:(lia)) as Hb.
  rewrite H in Hb. discriminate.
Qed.

Lemma uuid4_range (r : Z) : 0 <= uuid4_of_random r < 2 ^ 128.
Proof.
  assert (Hm : uuid4_of_random r mod 2 ^ 128 = uuid4_of_random r).
  { apply Z.bits_inj'. intros n Hn.
    destruct (Z.ltb_spec n 128).
    - apply Z.mod_pow2_bits_low. lia.
    - rewrite Z.mod_pow2_bits_high by lia.
      rewrite uuid4_testbit by lia.
      unfold uuid4_fixed_bit.
      destruct (Z.eqb_spec n 78); [lia|].
      destruct (Z.eqb_spec n 62); [lia|].
      destruct (Z.eqb_spec n 63); [lia|].
      destruct (Z.leb_spec n 79); [lia|].
      rewrite andb_false_r. cbn [orb].
      destruct (Z.ltb_spec n 128); [lia | reflexivity]. }
  rewrite <- Hm. apply Z.mod_pos_bound. lia.
Qed.

(** Two draws that differ in a random bit give different identifiers. *)
Lemma uuid4_differ (r1 r2 n : Z) :
  0 <= n < 128 -> uuid4_fixed_bit n = false ->
  Z.testbit r1 n <> Z.testbit r2 n ->
  uuid4_of_random r1 <> uuid4_of_random r2.
Proof.
  intros Hn Hf Hb Heq. apply Hb.
  pose proof (uuid4_testbit r1 n ltac:(lia)) as H1.
  pose proof (uuid4_testbit r2 n ltac:(lia)) as H2.
  rewrite Hf in H1, H2.
  assert (Hn78 : (n =? 78) = false).
  { unfold uuid4_fixed_bit in Hf.
    destruct (Z.eqb_spec n 78) as [->|]; [discriminate Hf | reflexivity]. }
  rewrite Hn78 in H1, H2.
  destruct (Z.ltb_spec n 128); [|lia].
  rewrite <- H1, <- H2, Heq. reflexivity.
Qed.

(** [Frame.wrap] with an identifier that is not zero keeps it; with zero,
    as with none, it draws a fresh one. *)
Lemma wrap_nonzero (data_len type_ msg_id : Z) (w : World) :
  msg_id <> 0 ->
  Frame.wrap data_len type_ (Some msg_id) w
  = (Frame.mk type_ 1 data_len msg_id 1, w).
Proof.
  intros H. unfold Frame.wrap.
  destruct (Z.eqb_spec msg_id 0); [contradiction | reflexivity].
Qed.

Lemma wrap_zero (data_len type_ : Z) (w : World) :
  Frame.wrap data_len type_ (Some 0) w
  = (Frame.mk type_ 1 data_len (uuid4_of_random (urandom w (drawn w))) 1,
     mkWorld (urandom w) (S (drawn w))).
Proof. reflexivity. Qed.

(** ** Whole messages through the engine *)

Section WholeMessages.

Context {serde : Serde}.

Import FramedBuffer.

Lemma awaiting_frame_init : awaiting_frame __init__.
Proof. split; reflexivity. Qed.

(** A COMMAND frame with its body completes a message. *)
Lemma handle_frame_COMMAND (s : t) (f : Frame.t) (hb rest : bytes)
  (h : json) :
  awaiting_frame s ->
  frame_packable f -> Frame.type_ f = Frame.Types.COMMAND ->
  Frame.length f = len hb -> load hb = Ok h ->
  handle_frame s (frame_layout f ++ hb ++ rest)
  = let s' := mk (q s ++ [FramedMessage.mk (Frame.msg_id f mod 2 ^ 128)
                            h None])
                (header s) [] FileBackedBuffer.from_temp
                (Some (on_wire f)) 0 in
    if is_empty rest then Done s' else handle_frame s' rest.
Proof.
  intros [Hfb Hbb] Hp Hty Hlen Hload.
  rewrite handle_frame_body; try assumption.
  - rewrite Hbb, write_from_temp. cbn [fst].
    rewrite (finish_COMMAND _ (on_wire f) hb h);
      [reflexivity | reflexivity | exact Hty | reflexivity | exact Hload].
  - rewrite Hty. reflexivity.
  - symmetry. exact Hlen.
Qed.

Lemma is_empty_layout (f : Frame.t) (rest : bytes) :
  is_empty (frame_layout f ++ rest) = false.
Proof. reflexivity. Qed.

(** A HEADER frame with its body, then a PAYLOAD frame with its body,
    complete a message. *)
Lemma handle_frame_HEADER_PAYLOAD (s : t) (f1 f2 : Frame.t)
  (hb body rest : bytes) (h : json) :
  awaiting_frame s ->
  frame_packable f1 -> Frame.type_ f1 = Frame.Types.HEADER ->
  Frame.length f1 = len hb -> load hb = Ok h ->
  frame_packable f2 -> Frame.type_ f2 = Frame.Types.PAYLOAD ->
  Frame.length f2 = len body ->
  handle_frame s (frame_layout f1 ++ hb ++ frame_layout f2 ++ body ++ rest)
  = let s' := mk (q s ++ [FramedMessage.mk (Frame.msg_id f2 mod 2 ^ 128)
                            h (Some (spooled body))])
                JNull [] FileBackedBuffer.from_temp
                (Some (on_wire f2)) 0 in
    if is_empty rest then Done s' else handle_frame s' rest.
Proof.
  intros [Hfb Hbb] Hp1 Hty1 Hlen1 Hload Hp2 Hty2 Hlen2.
  rewrite handle_frame_body; try assumption;
    [|rewrite Hty1; reflexivity | symmetry; exact Hlen1].
  rewrite Hbb, write_from_temp. cbn [fst].
  rewrite (finish_HEADER _ (on_wire f1) hb h);
    [| reflexivity | exact Hty1 | reflexivity | exact Hload].
  cbv zeta. rewrite is_empty_layout.
  rewrite handle_frame_body;
    [| reflexivity | exact Hp2 | rewrite Hty2; reflexivity
     | symmetry; exact Hlen2].
  cbn [q header bb]. rewrite write_from_temp. cbn [fst].
  rewrite (finish_PAYLOAD _ (on_wire f2)); [| reflexivity | exact Hty2].
  reflexivity.
Qed.

End WholeMessages.

(** * Properties of the specification *)

(** C5. A frame whose kind is HEADER, PAYLOAD or COMMAND, whose version
    fits one byte, whose sequence id and length fit 32 bits and whose
    message id fits 128 bits serializes to exactly 26 bytes: kind,
    version, sequence id (4 bytes), length (4 bytes), high and low 64 bits
    of the message id, all big-endian; and deserializing those bytes gives
    the frame back, field for field. *)
Theorem frame_round_trip (f : Frame.t) :
  Frame.Types.mem (Frame.type_ f) = true ->
  0 <= Frame.version f < 256 ->
  0 <= Frame.id_ f < 2 ^ 32 ->
  0 <= Frame.length f < 2 ^ 32 ->
  0 <= Frame.msg_id f < 2 ^ 128 ->
  exists bs,
    Frame.serialize f = Ok bs
    /\ List.length bs = 26%nat
    /\ wire_field bs 0 1 = Frame.type_ f
    /\ wire_field bs 1 1 = Frame.version f
    /\ wire_field bs 2 4 = Frame.id_ f
    /\ wire_field bs 6 4 = Frame.length f
    /\ wire_field bs 10 8 = Frame.msg_id f / 2 ^ 64
    /\ wire_field bs 18 8 = Frame.msg_id f mod 2 ^ 64
    /\ Frame.deserialize bs = Ok f.
Proof.
  intros Hty Hv Hi Hl Hm.
  assert (Ht : 0 <= Frame.type_ f < 256).
  { unfold Frame.Types.mem, Frame.Types.HEADER, Frame.Types.PAYLOAD,
      Frame.Types.COMMAND in Hty.
    rewrite !orb_true_iff, !Z.eqb_eq in Hty. lia. }
  assert (Hp : frame_packable f) by (repeat split; lia).
  exists (frame_layout f).
  split; [apply serialize_packable; exact Hp|].
  split; [reflexivity|].
  assert (Hhi : fst (split_uuid (Frame.msg_id f)) = Frame.msg_id f / 2 ^ 64).
  { unfold split_uuid. cbn [fst]. rewrite land_MAX_INT64.
    rewrite Z.shiftr_div_pow2 by lia.
    apply Z.mod_small. split.
    - apply Z.div_pos; lia.
    - apply Z.div_lt_upper_bound; lia. }
  assert (Hlo : snd (split_uuid (Frame.msg_id f)) = Frame.msg_id f mod 2 ^ 64).
  { unfold split_uuid. cbn [snd]. apply land_MAX_INT64. }
  assert (Hb : forall v, 0 <= v < 256 ->
                         Struct.be_value [Struct.byte_of_Z v] = v).
  { intros v Hv'. change [Struct.byte_of_Z v] with (Struct.be_bytes 1 v).
    rewrite be_value_be_bytes. apply Z.mod_small. exact Hv'. }
  assert (H4 : forall v, 0 <= v < 2 ^ 32 ->
                         Struct.be_value (Struct.be_bytes 4 v) = v).
  { intros v Hv'. rewrite be_value_be_bytes. apply Z.mod_small. exact Hv'. }
  assert (H8 : forall v, 0 <= v < 2 ^ 64 ->
                         Struct.be_value (Struct.be_bytes 8 v) = v).
  { intros v Hv'. rewrite be_value_be_bytes. apply Z.mod_small. exact Hv'. }
  pose proof (split_uuid_range (Frame.msg_id f)) as [Rhi Rlo].
  split; [exact (Hb _ Ht)|].
  split; [exact (Hb _ Hv)|].
  split; [exact (H4 _ Hi)|].
  split; [exact (H4 _ Hl)|].
  split; [rewrite <- Hhi; exact (H8 _ Rhi)|].
  split; [rewrite <- Hlo; exact (H8 _ Rlo)|].
  rewrite deserialize_layout by exact Hp.
  unfold Frame.Types.of_int. rewrite Hty. cbn [bind].
  rewrite Z.mod_small by exact Hm. destruct f. reflexivity.
Qed.

Lemma frame_round_trip_witness :
  (Frame.Types.mem (Frame.type_ example_frame) = true
   /\ 0 <= Frame.version example_frame < 256
   /\ 0 <= Frame.id_ example_frame < 2 ^ 32
   /\ 0 <= Frame.length example_frame < 2 ^ 32
   /\ 0 <= Frame.msg_id example_frame < 2 ^ 128)
  /\ exists bs,
      Frame.serialize example_frame = Ok bs
      /\ List.length bs = 26%nat
      /\ wire_field bs 0 1 = Frame.type_ example_frame
      /\ wire_field bs 1 1 = Frame.version example_frame
      /\ wire_field bs 2 4 = Frame.id_ example_frame
      /\ wire_field bs 6 4 = Frame.length example_frame
      /\ wire_field bs 10 8 = Frame.msg_id example_frame / 2 ^ 64
      /\ wire_field bs 18 8 = Frame.msg_id example_frame mod 2 ^ 64
      /\ Frame.deserialize bs = Ok example_frame.
Proof.
  assert (H : Frame.Types.mem (Frame.type_ example_frame) = true
              /\ 0 <= Frame.version example_frame < 256
              /\ 0 <= Frame.id_ example_frame < 2 ^ 32
              /\ 0 <= Frame.length example_frame < 2 ^ 32
              /\ 0 <= Frame.msg_id example_frame < 2 ^ 128)
    by (cbn; repeat split; lia).
  split; [exact H|].
  destruct H as (H1 & H2 & H3 & H4 & H5).
  exact (frame_round_trip example_frame H1 H2 H3 H4 H5).
Defined.

(** C8. The chunk size of a buffer is its length divided by 1024 (rounding
    down), clamped to the interval from [min_chunk] to [max_chunk].  With
    the default bounds, 4096 and 1048576, a buffer of length 0 has chunk
    size 4096, one of length 1048576 * 1024 or more has chunk size
    1048576, and one of length 2000000 has chunk size 4096, not 1953. *)
Theorem chunksize_clamp :
  (forall b : FileBackedBuffer.t,
      FileBackedBuffer.chunksize b <= FileBackedBuffer._max_chunk b)
  /\ (forall b : FileBackedBuffer.t,
      FileBackedBuffer._min_chunk b <= FileBackedBuffer._max_chunk b ->
      FileBackedBuffer.chunksize b
      = clamp (FileBackedBuffer.length b / 1024)
          (FileBackedBuffer._min_chunk b) (FileBackedBuffer._max_chunk b))
  /\ (forall fp, FileBackedBuffer.chunksize (FileBackedBuffer.__init__ fp 0)
                 = 4096)
  /\ (forall fp n, 1048576 * 1024 <= n ->
                   FileBackedBuffer.chunksize (FileBackedBuffer.__init__ fp n)
                   = 1048576)
  /\ (forall fp, FileBackedBuffer.chunksize (FileBackedBuffer.__init__ fp 2000000)
                 = 4096)
  /\ 2000000 / 1024 = 1953.
Proof.
  split; [|split; [|split; [|split; [|split]]]].
  - intros b. unfold FileBackedBuffer.chunksize. lia.
  - intros b H. unfold FileBackedBuffer.chunksize, clamp.
    destruct (Z.ltb_spec (FileBackedBuffer.length b / 1024)
                (FileBackedBuffer._min_chunk b));
      [lia|].
    destruct (Z.ltb_spec (FileBackedBuffer._max_chunk b)
                (FileBackedBuffer.length b / 1024)); lia.
  - intros fp. reflexivity.
  - intros fp n H. unfold FileBackedBuffer.chunksize, FileBackedBuffer.__init__.
    cbn [FileBackedBuffer.length FileBackedBuffer._min_chunk
         FileBackedBuffer._max_chunk].
    assert (1048576 <= n / 1024)
      by (apply Z.div_le_lower_bound; lia).
    change (2 ^ 20) with 1048576. change (2 ^ 12) with 4096. lia.
  - intros fp. reflexivity.
  - reflexivity.
Qed.

Lemma chunksize_clamp_witness :
  (FileBackedBuffer._min_chunk (FileBackedBuffer.from_data [x01; x02])
   <= FileBackedBuffer._max_chunk (FileBackedBuffer.from_data [x01; x02])
   /\ 1048576 * 1024 <= 2 ^ 31)
  /\ FileBackedBuffer.chunksize (FileBackedBuffer.from_data [x01; x02])
     = clamp (2 / 1024) 4096 1048576
  /\ FileBackedBuffer.chunksize (FileBackedBuffer.__init__ (mkFile [] 0) (2 ^ 31))
     = 1048576.
Proof.
  assert (H1 : FileBackedBuffer._min_chunk
                 (FileBackedBuffer.from_data [x01; x02])
               <= FileBackedBuffer._max_chunk
                    (FileBackedBuffer.from_data [x01; x02]))
    by (cbn; lia).
  assert (H2 : 1048576 * 1024 <= 2 ^ 31) by lia.
  split; [split; assumption|].
  split.
  - exact (proj1 (proj2 chunksize_clamp) _ H1).
  - exact (proj1 (proj2 (proj2 (proj2 chunksize_clamp))) (mkFile [] 0)
             (2 ^ 31) H2).
Defined.

Lemma at_least_a_header (l : bytes) :
  (Frame.fmt_size <= List.length l)%nat ->
  exists k hdr tl,
    l = k :: hdr ++ tl /\ List.length hdr = 25%nat
    /\ exists v i4 l4 h8 lo8,
        hdr = v :: i4 ++ l4 ++ h8 ++ lo8
        /\ List.length i4 = 4%nat /\ List.length l4 = 4%nat
        /\ List.length h8 = 8%nat /\ List.length lo8 = 8%nat.
Proof.
  unfold Frame.fmt_size. intros H.
  do 26 (destruct l as [|? l]; [cbn [List.length] in H; lia|]).
  eexists _, [_; _; _; _; _; _; _; _; _; _; _; _; _; _; _; _; _; _; _; _; _;
              _; _; _; _], l.
  split; [reflexivity|]. split; [reflexivity|].
  eexists _, [_; _; _; _], [_; _; _; _], [_; _; _; _; _; _; _; _],
    [_; _; _; _; _; _; _; _].
  repeat split; reflexivity.
Qed.

Lemma from_data_unknown_kind (data : bytes) :
  (Frame.fmt_size <= List.length data)%nat ->
  Frame.Types.mem (Struct.Z_of_byte (hd x00 data)) = false ->
  Frame.from_data data = Raise ValueError.
Proof.
  intros Hlen Hk.
  destruct (at_least_a_header data Hlen)
    as (k & hdr & tl & -> & Hh & v & i4 & l4 & h8 & lo8 & -> & Hi & Hl
        & Hhi & Hlo).
  cbn [hd] in Hk.
  change (k :: (v :: i4 ++ l4 ++ h8 ++ lo8) ++ tl)
    with (([k; v] ++ i4 ++ l4 ++ h8 ++ lo8) ++ tl).
  rewrite from_data_app
    by (cbn [app List.length]; rewrite !length_app; unfold Frame.fmt_size;
        lia).
  rewrite deserialize_fields by assumption.
  unfold Frame.Types.of_int. rewrite Hk. reflexivity.
Qed.

Lemma from_data_known_kind (data : bytes) :
  (Frame.fmt_size <= List.length data)%nat ->
  Frame.Types.mem (Struct.Z_of_byte (hd x00 data)) = true ->
  Frame.from_data data
  = Ok (Frame.mk (wire_field data 0 1) (wire_field data 1 1)
          (wire_field data 6 4)
          (join_uuid (wire_field data 10 8) (wire_field data 18 8))
          (wire_field data 2 4),
        skipn Frame.fmt_size data).
Proof.
  unfold Frame.fmt_size. intros Hlen Hk.
  do 26 (destruct data as [|? data]; [cbn [List.length] in Hlen; lia|]).
  cbn [hd] in Hk.
  unfold Frame.from_data, Frame.fmt_size, Frame.deserialize,
    Frame.Types.of_int.
  cbn [firstn skipn List.length Nat.eqb].
  rewrite Hk. cbn [bind]. unfold wire_field. cbn [firstn skipn].
  unfold Struct.be_value. cbn [fold_left Z.mul Z.add]. reflexivity.
Qed.

(** C6. When the 26 bytes presented to frame parsing start with a kind
    byte other than 0, 1 or 2, [deserialize] raises [ValueError], which is
    not the [struct.error] that [handle_frame] catches: [put] lets it
    through and the queue of completed messages is as it was.  A stream
    that starts with such a header, however it is chunked, leaves the
    queue of a new engine empty. *)
Theorem unknown_kind_is_fatal {serde : Serde} :
  (forall buf,
      List.length buf = Frame.fmt_size ->
      Frame.Types.mem (Struct.Z_of_byte (hd x00 buf)) = false ->
      Frame.deserialize buf = Raise ValueError)
  /\ (forall s data,
         FramedBuffer.to_read s = 0 ->
         (Frame.fmt_size
          <= List.length (FramedBuffer.framebuffer s ++ data))%nat ->
         Frame.Types.mem
           (Struct.Z_of_byte (hd x00 (FramedBuffer.framebuffer s ++ data)))
         = false ->
         FramedBuffer.put s data
         = FramedBuffer.Raised ValueError
             (FramedBuffer.set_framebuffer s
                (FramedBuffer.framebuffer s ++ data)))
  /\ (forall chunks,
         (Frame.fmt_size <= List.length (List.concat chunks))%nat ->
         Frame.Types.mem (Struct.Z_of_byte (hd x00 (List.concat chunks)))
         = false ->
         exists s',
           FramedBuffer.put_all FramedBuffer.__init__ chunks
           = FramedBuffer.Raised ValueError s'
           /\ FramedBuffer.q s' = []).
Proof.
  assert (Hput : forall s data,
             FramedBuffer.to_read s = 0 ->
             (Frame.fmt_size
              <= List.length (FramedBuffer.framebuffer s ++ data))%nat ->
             Frame.Types.mem
               (Struct.Z_of_byte
                  (hd x00 (FramedBuffer.framebuffer s ++ data))) = false ->
             FramedBuffer.put s data
             = FramedBuffer.Raised ValueError
                 (FramedBuffer.set_framebuffer s
                    (FramedBuffer.framebuffer s ++ data))).
  { intros s data Ht Hlen Hk. unfold FramedBuffer.put. rewrite Ht.
    cbn [Z.eqb]. rewrite handle_frame_eq. cbv zeta.
    cbn [FramedBuffer.framebuffer FramedBuffer.set_framebuffer].
    rewrite from_data_unknown_kind by assumption. reflexivity. }
  split; [|split; [exact Hput|]].
  - intros buf Hlen Hk.
    pose proof (from_data_unknown_kind buf ltac:(lia) Hk) as H.
    unfold Frame.from_data in H. rewrite <- Hlen, firstn_all in H.
    destruct (Frame.deserialize buf); [discriminate|].
    cbn [bind] in H. injection H as ->. reflexivity.
  - intros chunks Hlen Hk.
    pose proof (put_all_agree chunks FramedBuffer.__init__ between_puts_init)
      as Ha.
    rewrite (Hput FramedBuffer.__init__ (List.concat chunks)) in Ha
      by (try reflexivity; assumption).
    destruct (FramedBuffer.put_all FramedBuffer.__init__ chunks)
      as [s1|e s1|]; cbn [agree] in Ha; try contradiction.
    destruct Ha as [-> Hs]. exists s1. split; [reflexivity|].
    apply (f_equal FramedBuffer.q) in Hs. exact Hs.
Qed.

Lemma unknown_kind_is_fatal_witness :
  (List.length kind3_header = Frame.fmt_size
   /\ Frame.Types.mem (Struct.Z_of_byte (hd x00 kind3_header)) = false)
  /\ Frame.deserialize kind3_header = Raise ValueError
  /\ FramedBuffer.put (serde := FlatJson.serde) FramedBuffer.__init__
       (kind3_header ++ [x07])
     = FramedBuffer.Raised ValueError
         (FramedBuffer.set_framebuffer FramedBuffer.__init__
            (kind3_header ++ [x07]))
  /\ exists s',
      FramedBuffer.put_all (serde := FlatJson.serde) FramedBuffer.__init__
        [firstn 10 kind3_header; skipn 10 kind3_header; [x07]]
      = FramedBuffer.Raised ValueError s'
      /\ FramedBuffer.q s' = [].
Proof.
  assert (H1 : List.length kind3_header = Frame.fmt_size) by reflexivity.
  assert (H2 : Frame.Types.mem (Struct.Z_of_byte (hd x00 kind3_header))
               = false) by reflexivity.
  split; [split; assumption|].
  destruct (@unknown_kind_is_fatal FlatJson.serde) as (Hd & Hp & Hc).
  split; [exact (Hd kind3_header H1 H2)|].
  split.
  - apply (Hp FramedBuffer.__init__ (kind3_header ++ [x07])).
    + reflexivity.
    + cbn. unfold Frame.fmt_size. lia.
    + reflexivity.
  - apply (Hc [firstn 10 kind3_header; skipn 10 kind3_header; [x07]]).
    + cbn. unfold Frame.fmt_size. lia.
    + reflexivity.
Defined.

(** C7, as the code has it.  On fewer than 26 bytes [Frame.from_data]
    raises [struct.error]; [put] catches it, keeps the bytes accumulated
    in [framebuffer] and returns with everything else untouched.  On 26
    bytes or more whose first byte is 0, 1 or 2 it returns the frame
    parsed from the first 26 bytes together with exactly the bytes beyond
    them; when the first byte is anything else it raises [ValueError]
    instead. *)
Theorem from_data_cases {serde : Serde} :
  (forall data,
      (List.length data < Frame.fmt_size)%nat ->
      Frame.from_data data = Raise StructError)
  /\ (forall s data,
         FramedBuffer.to_read s = 0 ->
         (List.length (FramedBuffer.framebuffer s ++ data)
          < Frame.fmt_size)%nat ->
         FramedBuffer.put s data
         = FramedBuffer.Done
             (FramedBuffer.set_framebuffer s
                (FramedBuffer.framebuffer s ++ data)))
  /\ (forall data,
         (Frame.fmt_size <= List.length data)%nat ->
         Frame.Types.mem (Struct.Z_of_byte (hd x00 data)) = true ->
         Frame.from_data data
         = Ok (Frame.mk (wire_field data 0 1) (wire_field data 1 1)
                 (wire_field data 6 4)
                 (wire_field data 10 8 * 2 ^ 64 + wire_field data 18 8)
                 (wire_field data 2 4),
               skipn 26 data))
  /\ (forall data,
         (Frame.fmt_size <= List.length data)%nat ->
         Frame.Types.mem (Struct.Z_of_byte (hd x00 data)) = false ->
         Frame.from_data data = Raise ValueError).
Proof.
  split; [exact from_data_short|].
  split; [|split; [|exact from_data_unknown_kind]].
  - intros s data Ht Hlen. unfold FramedBuffer.put. rewrite Ht.
    cbn [Z.eqb]. rewrite handle_frame_eq. cbv zeta.
    cbn [FramedBuffer.framebuffer FramedBuffer.set_framebuffer].
    rewrite from_data_short by exact Hlen. reflexivity.
  - intros data Hlen Hk. rewrite from_data_known_kind by assumption.
    unfold join_uuid. rewrite lor_shiftl_64; [reflexivity|].
    unfold wire_field.
    pose proof (be_value_range (firstn 8 (skipn 18 data))) as Hr.
    rewrite length_firstn, length_skipn in Hr.
    unfold Frame.fmt_size in Hlen.
    replace (Nat.min 8 (List.length data - 18)) with 8%nat in Hr by lia.
    exact Hr.
Qed.

Lemma from_data_cases_witness :
  ((List.length short_input < Frame.fmt_size)%nat
   /\ FramedBuffer.to_read FramedBuffer.__init__ = 0
   /\ (List.length (FramedBuffer.framebuffer FramedBuffer.__init__
                    ++ short_input) < Frame.fmt_size)%nat
   /\ (Frame.fmt_size <= List.length (command_header ++ [x7b]))%nat
   /\ Frame.Types.mem (Struct.Z_of_byte (hd x00 (command_header ++ [x7b])))
      = true
   /\ (Frame.fmt_size <= List.length kind3_header)%nat
   /\ Frame.Types.mem (Struct.Z_of_byte (hd x00 kind3_header)) = false)
  /\ Frame.from_data short_input = Raise StructError
  /\ FramedBuffer.put (serde := FlatJson.serde) FramedBuffer.__init__ short_input
     = FramedBuffer.Done
         (FramedBuffer.set_framebuffer FramedBuffer.__init__ short_input)
  /\ Frame.from_data (command_header ++ [x7b])
     = Ok (Frame.mk Frame.Types.COMMAND 1 16 7 1, [x7b])
  /\ Frame.from_data kind3_header = Raise ValueError.
Proof.
  assert (H : (List.length short_input < Frame.fmt_size)%nat
              /\ FramedBuffer.to_read FramedBuffer.__init__ = 0
              /\ (List.length (FramedBuffer.framebuffer FramedBuffer.__init__
                               ++ short_input) < Frame.fmt_size)%nat
              /\ (Frame.fmt_size
                  <= List.length (command_header ++ [x7b]))%nat
              /\ Frame.Types.mem
                   (Struct.Z_of_byte (hd x00 (command_header ++ [x7b])))
                 = true
              /\ (Frame.fmt_size <= List.length kind3_header)%nat
              /\ Frame.Types.mem (Struct.Z_of_byte (hd x00 kind3_header))
                 = false).
  { unfold Frame.fmt_size. cbn. repeat split; lia. }
  split; [exact H|].
  destruct H as (H1 & H2 & H3 & H4 & H5 & H6 & H7).
  destruct (@from_data_cases FlatJson.serde) as (Ha & Hb & Hc & Hd).
  split; [exact (Ha short_input H1)|].
  split; [exact (Hb FramedBuffer.__init__ short_input H2 H3)|].
  split; [exact (Hc (command_header ++ [x7b]) H4 H5)|].
  exact (Hd kind3_header H6 H7).
Defined.

(** C7 as stated fails: 26 bytes whose kind byte is 3 are enough bytes,
    yet [Frame.from_data] returns no frame for them. *)
Lemma from_data_kind3_raises :
  (Frame.fmt_size <= List.length kind3_header)%nat
  /\ Frame.from_data kind3_header = Raise ValueError
  /\ forall f rest, Frame.from_data kind3_header <> Ok (f, rest).
Proof.
  split; [unfold Frame.fmt_size; cbn; lia|].
  split; [reflexivity|].
  intros f rest. discriminate.
Qed.

(** ** Messages: production followed by reassembly *)

Lemma wrap_fields (n ty : Z) (mid : option Z) (w w' : World) (f : Frame.t) :
  (f, w') = Frame.wrap n ty mid w ->
  Frame.type_ f = ty /\ Frame.length f = n.
Proof.
  unfold Frame.wrap.
  destruct (match mid with
            | Some m => if m =? 0 then uuid4 w else (m, w)
            | None => uuid4 w
            end) as [i w1].
  intros [= -> _]. split; reflexivity.
Qed.

Lemma wrap_keeps_id (n ty mid : Z) (w w' : World) (f : Frame.t) :
  0 < mid < 2 ^ 128 ->
  (f, w') = Frame.wrap n ty (Some mid) w ->
  Frame.msg_id f mod 2 ^ 128 = mid /\ w' = w.
Proof.
  intros Hm. rewrite wrap_nonzero by lia.
  intros [= -> ->]. cbn [Frame.msg_id].
  split; [apply Z.mod_small; lia | reflexivity].
Qed.

Lemma iter_single {serde : Serde} (m : FramedMessage.t) (w : World) :
  FramedMessage.has_payload m = Ok false ->
  FramedMessage.__iter__ m w
  = match dumps (FramedMessage.header m) with
    | Raise e => FramedMessage.stop e [] m w
    | Ok hb =>
        let (f, w1) := Frame.wrap (len hb) Frame.Types.COMMAND
                         (Some (FramedMessage.msg_id m)) w in
        match Frame.serialize f with
        | Raise e => FramedMessage.stop e [] m w1
        | Ok fb =>
            Some (FramedMessage.mkProduced [fb; hb] None m w1)
        end
    end.
Proof.
  intros Hp. unfold FramedMessage.__iter__. rewrite Hp.
  destruct (dumps (FramedMessage.header m)); [|reflexivity].
  destruct (Frame.wrap _ _ _ w) as [f w1].
  destruct (Frame.serialize f); [|reflexivity].
  destruct (FramedMessage.payload m); reflexivity.
Qed.

Lemma wrap_packable (n ty : Z) (mid : option Z) (w : World) :
  0 <= n < 2 ^ 32 -> Frame.Types.mem ty = true ->
  frame_packable (fst (Frame.wrap n ty mid w)).
Proof.
  intros Hn Hty. unfold Frame.wrap.
  destruct (match mid with
            | Some m => if m =? 0 then uuid4 w else (m, w)
            | None => uuid4 w
            end) as [i w1].
  cbn [fst]. unfold frame_packable.
  cbn [Frame.type_ Frame.version Frame.id_ Frame.length].
  unfold Frame.Types.mem, Frame.Types.HEADER, Frame.Types.PAYLOAD,
    Frame.Types.COMMAND in Hty.
  rewrite !orb_true_iff, !Z.eqb_eq in Hty. lia.
Qed.

(** When production returns: a single-part message serializes as soon as
    its header encodes to fewer than 2^32 bytes. *)
Lemma serialize_single_returns {serde : Serde} (m : FramedMessage.t)
  (w : World) (hb : bytes) :
  FramedMessage.has_payload m = Ok false ->
  dumps (FramedMessage.header m) = Ok hb ->
  len hb < 2 ^ 32 ->
  exists data m' w',
    FramedMessage.serialize m w = Some (Ok data, m', w').
Proof.
  intros Hp Hd Hlen. unfold FramedMessage.serialize.
  rewrite (iter_single m w Hp), Hd.
  pose proof (wrap_packable (len hb) Frame.Types.COMMAND
                (Some (FramedMessage.msg_id m)) w
                (conj (len_nonneg hb) Hlen) eq_refl) as Hpk.
  destruct (Frame.wrap _ _ _ w) as [f w1]. cbn [fst] in Hpk.
  rewrite (serialize_packable f Hpk).
  cbn [FramedMessage.raised FramedMessage.chunks FramedMessage.self_after
       FramedMessage.world_after].
  eauto.
Qed.

(** A dual-part message serializes as soon as its header encodes to fewer
    than 2^32 bytes and its payload's length is below 2^32. *)
Lemma serialize_dual_returns {serde : Serde} (m : FramedMessage.t)
  (p : FileBackedBuffer.t) (w : World) (hb : bytes) :
  FramedMessage.payload m = Some p ->
  0 < FileBackedBuffer.length p < 2 ^ 32 ->
  dumps (FramedMessage.header m) = Ok hb ->
  len hb < 2 ^ 32 ->
  exists data m' w',
    FramedMessage.serialize m w = Some (Ok data, m', w').
Proof.
  intros Hp Hpl Hd Hlen.
  unfold FramedMessage.serialize, FramedMessage.__iter__,
    FramedMessage.has_payload, FileBackedBuffer.truth,
    FileBackedBuffer.__len__.
  rewrite Hd, Hp.
  destruct (Z.ltb_spec (FileBackedBuffer.length p) 0); [lia|].
  cbn [bind].
  destruct (Z.eqb_spec (FileBackedBuffer.length p) 0); [lia|].
  cbn [negb].
  pose proof (wrap_packable (len hb) Frame.Types.HEADER
                (Some (FramedMessage.msg_id m)) w
                (conj (len_nonneg hb) Hlen) eq_refl) as Hpk1.
  destruct (Frame.wrap _ _ _ w) as [f1 w1]. cbn [fst] in Hpk1.
  rewrite (serialize_packable f1 Hpk1).
  pose proof (wrap_packable (FileBackedBuffer.length p) Frame.Types.PAYLOAD
                (Some (FramedMessage.msg_id m)) w1
                ltac:(lia) eq_refl) as Hpk2.
  destruct (Frame.wrap _ _ _ w1) as [f2 w2]. cbn [fst] in Hpk2.
  rewrite (serialize_packable f2 Hpk2).
  match goal with |- context [FramedMessage.read_chunks ?n ?q ?sz] =>
    destruct (read_chunks_returns n q sz) as (cs & p' & -> & _)
  end.
  { cbn. lia. }
  cbn [FramedMessage.raised FramedMessage.chunks FramedMessage.self_after
       FramedMessage.world_after].
  eauto.
Qed.

Section RoundTrips.

Context {serde : Serde}.

Import FramedBuffer.

(** A single-part message arriving at an engine that awaits a frame. *)
Lemma handle_frame_single (s : t) (m m' : FramedMessage.t) (w w' : World)
  (data : bytes) :
  awaiting_frame s ->
  FramedMessage.has_payload m = Ok false ->
  FramedMessage.serialize m w = Some (Ok data, m', w') ->
  header_round_trips (FramedMessage.header m) ->
  exists f,
    (exists n, (f, w') = Frame.wrap n Frame.Types.COMMAND
                           (Some (FramedMessage.msg_id m)) w)
    /\ (Frame.fmt_size <= List.length data)%nat
    /\ forall rest,
        handle_frame s (data ++ rest)
        = let s' := mk (q s ++ [FramedMessage.mk
                                  (Frame.msg_id f mod 2 ^ 128)
                                  (FramedMessage.header m) None])
                      (header s) [] FileBackedBuffer.from_temp
                      (Some (on_wire f)) 0 in
          if is_empty rest then Done s' else handle_frame s' rest.
Proof.
  intros Hs Hp Hser Hrt.
  destruct (serialize_single _ _ _ _ _ Hp Hser)
    as (hb & f & Hd & Hw & Hpk & ->).
  unfold header_round_trips in Hrt. rewrite Hd in Hrt. cbn [bind] in Hrt.
  destruct (wrap_fields _ _ _ _ _ _ Hw) as [Hty Hlen].
  exists f. split; [eauto|]. split.
  - rewrite length_app, frame_layout_length. lia.
  - intros rest. rewrite <- app_assoc.
    apply handle_frame_COMMAND; assumption.
Qed.

(** A dual-part message arriving at an engine that awaits a frame. *)
Lemma handle_frame_dual (s : t) (m m' : FramedMessage.t) (w w' : World)
  (data : bytes) (p : FileBackedBuffer.t) :
  awaiting_frame s ->
  FramedMessage.payload m = Some p ->
  0 < FileBackedBuffer.length p ->
  FileBackedBuffer.length p = len (content (FileBackedBuffer.fp p)) ->
  FileBackedBuffer.chunksize p <> 0 ->
  FramedMessage.serialize m w = Some (Ok data, m', w') ->
  header_round_trips (FramedMessage.header m) ->
  exists f1 w1 f2,
    (exists n, (f1, w1) = Frame.wrap n Frame.Types.HEADER
                            (Some (FramedMessage.msg_id m)) w)
    /\ (exists n, (f2, w') = Frame.wrap n Frame.Types.PAYLOAD
                               (Some (FramedMessage.msg_id m)) w1)
    /\ forall rest,
        handle_frame s (data ++ rest)
        = let s' := mk (q s ++ [FramedMessage.mk
                                  (Frame.msg_id f2 mod 2 ^ 128)
                                  (FramedMessage.header m)
                                  (Some (spooled
                                           (content
                                              (FileBackedBuffer.fp p))))])
                      JNull [] FileBackedBuffer.from_temp
                      (Some (on_wire f2)) 0 in
          if is_empty rest then Done s' else handle_frame s' rest.
Proof.
  intros Hs Hp Hpos Hlen Hcs Hser Hrt.
  assert (Ht : FileBackedBuffer.truth p = Ok true).
  { unfold FileBackedBuffer.truth, FileBackedBuffer.__len__.
    destruct (Z.ltb_spec (FileBackedBuffer.length p) 0); [lia|].
    cbn [bind]. destruct (Z.eqb_spec (FileBackedBuffer.length p) 0);
      [lia | reflexivity]. }
  destruct (serialize_dual _ _ _ _ _ _ Hp Ht Hser)
    as (hb & f1 & w1 & f2 & body & Hd & Hw1 & Hw2 & Hpk1 & Hpk2 & -> & Hb).
  specialize (Hb Hcs). subst body.
  unfold header_round_trips in Hrt. rewrite Hd in Hrt. cbn [bind] in Hrt.
  destruct (wrap_fields _ _ _ _ _ _ Hw1) as [Hty1 Hlen1].
  destruct (wrap_fields _ _ _ _ _ _ Hw2) as [Hty2 Hlen2].
  exists f1, w1, f2. split; [eauto|]. split; [eauto|].
  intros rest.
  replace ((frame_layout f1 ++ hb ++ frame_layout f2
            ++ content (FileBackedBuffer.fp p)) ++ rest)
    with (frame_layout f1 ++ hb ++ frame_layout f2
          ++ content (FileBackedBuffer.fp p) ++ rest)
    by (rewrite <- !app_assoc; reflexivity).
  apply handle_frame_HEADER_PAYLOAD; try assumption.
  congruence.
Qed.

(** When the whole input at once leaves the engine in a state, so does
    every chunking of it, and in the same state. *)
Lemma put_all_done (s s' : t) (chunks : list bytes) :
  between_puts s ->
  put s (List.concat chunks) = Done s' ->
  put_all s chunks = Done s'.
Proof.
  intros Hs Hput.
  pose proof (put_all_agree chunks s Hs) as Ha.
  rewrite Hput in Ha.
  destruct (put_all s chunks); cbn [agree] in Ha; try contradiction.
  congruence.
Qed.

End RoundTrips.

(** ** Chunks of one byte *)

Lemma concat_byte_by_byte (data : bytes) :
  List.concat (byte_by_byte data) = data.
Proof.
  induction data as [|b data IH]; [reflexivity|].
  cbn [byte_by_byte map List.concat app]. f_equal. exact IH.
Qed.

(** C2. A message with a header and no payload serializes (as soon as its
    header encodes to fewer than 2^32 bytes), and its bytes, ingested by a
    new engine in one piece or in any chunks, yield exactly one completed
    message, whose payload is absent and whose header is the original
    header. *)
Theorem single_part_round_trip {serde : Serde}
  (m : FramedMessage.t) (w : World) :
  FramedMessage.payload m = None ->
  header_round_trips (FramedMessage.header m) ->
  (forall hb,
      dumps (FramedMessage.header m) = Ok hb -> len hb < 2 ^ 32 ->
      exists data m' w',
        FramedMessage.serialize m w = Some (Ok data, m', w'))
  /\ (forall data m' w' chunks,
         FramedMessage.serialize m w = Some (Ok data, m', w') ->
         List.concat chunks = data ->
         exists s r,
           FramedBuffer.put_all FramedBuffer.__init__ chunks
           = FramedBuffer.Done s
           /\ FramedBuffer.q s = [r]
           /\ FramedMessage.payload r = None
           /\ FramedMessage.header r = FramedMessage.header m).
Proof.
  intros Hp Hrt.
  assert (Hhp : FramedMessage.has_payload m = Ok false)
    by (unfold FramedMessage.has_payload; rewrite Hp; reflexivity).
  split.
  - intros hb Hd Hlen. exact (serialize_single_returns m w hb Hhp Hd Hlen).
  - intros data m' w' chunks Hser Hc.
    destruct (handle_frame_single FramedBuffer.__init__ m m' w w' data
                awaiting_frame_init Hhp Hser Hrt) as (f & _ & _ & Hput).
    specialize (Hput []). rewrite app_nil_r in Hput. cbv zeta in Hput.
    cbn [is_empty] in Hput.
    eexists _, _. split.
    + apply put_all_done; [exact between_puts_init|].
      rewrite Hc. unfold FramedBuffer.put. cbn [FramedBuffer.to_read
        FramedBuffer.__init__ Z.eqb]. exact Hput.
    + cbn [FramedBuffer.q FramedBuffer.__init__ app FramedMessage.payload
           FramedMessage.header]. auto.
Qed.

Lemma single_part_round_trip_witness :
  (FramedMessage.payload ping_message = None
   /\ header_round_trips (serde := FlatJson.serde)
        (FramedMessage.header ping_message)
   /\ FramedMessage.serialize (serde := FlatJson.serde) ping_message
        zero_world
      = Some (Ok ping_bytes, ping_message, zero_world)
   /\ List.concat (byte_by_byte ping_bytes) = ping_bytes)
  /\ exists s r,
      FramedBuffer.put_all (serde := FlatJson.serde) FramedBuffer.__init__
        (byte_by_byte ping_bytes) = FramedBuffer.Done s
      /\ FramedBuffer.q s = [r]
      /\ FramedMessage.payload r = None
      /\ FramedMessage.header r = FlatJson.ping.
Proof.
  assert (H1 : FramedMessage.payload ping_message = None) by reflexivity.
  assert (H2 : header_round_trips (serde := FlatJson.serde)
                 (FramedMessage.header ping_message)) by reflexivity.
  assert (H3 : FramedMessage.serialize (serde := FlatJson.serde)
                 ping_message zero_world
               = Some (Ok ping_bytes, ping_message, zero_world))
    by reflexivity.
  assert (H4 : List.concat (byte_by_byte ping_bytes) = ping_bytes)
    by reflexivity.
  split; [repeat split; assumption|].
  exact (proj2 (single_part_round_trip (serde := FlatJson.serde)
                  ping_message zero_world H1 H2)
           ping_bytes ping_message zero_world (byte_by_byte ping_bytes)
           H3 H4).
Defined.


(** C9. A message whose payload is present but of length zero is falsy in
    [if self.payload]: its production yields one COMMAND frame and the
    header bytes, nothing more, and it reassembles into a message without
    payload. *)
Theorem empty_payload_is_single_part {serde : Serde}
  (m : FramedMessage.t) (p : FileBackedBuffer.t) (w : World) :
  FramedMessage.payload m = Some p ->
  FileBackedBuffer.length p = 0 ->
  FramedMessage.has_payload m = Ok false
  /\ (forall r,
         FramedMessage.__iter__ m w = Some r ->
         FramedMessage.raised r = None ->
         exists f hb,
           FramedMessage.chunks r = [frame_layout f; hb]
           /\ Frame.type_ f = Frame.Types.COMMAND
           /\ Frame.length f = len hb
           /\ dumps (FramedMessage.header m) = Ok hb)
  /\ (forall data m' w' chunks,
         FramedMessage.serialize m w = Some (Ok data, m', w') ->
         header_round_trips (FramedMessage.header m) ->
         List.concat chunks = data ->
         exists s r,
           FramedBuffer.put_all FramedBuffer.__init__ chunks
           = FramedBuffer.Done s
           /\ FramedBuffer.q s = [r]
           /\ FramedMessage.payload r = None
           /\ FramedMessage.header r = FramedMessage.header m)
  /\ (forall hb,
         dumps (FramedMessage.header m) = Ok hb -> len hb < 2 ^ 32 ->
         exists data m' w',
           FramedMessage.serialize m w = Some (Ok data, m', w')).
Proof.
  intros Hp Hlen.
  assert (Hhp : FramedMessage.has_payload m = Ok false).
  { unfold FramedMessage.has_payload, FileBackedBuffer.truth,
      FileBackedBuffer.__len__. rewrite Hp, Hlen. reflexivity. }
  split; [exact Hhp|]. split; [|split].
  - intros r. rewrite (iter_single m w Hhp). unfold FramedMessage.stop.
    destruct (dumps (FramedMessage.header m)) as [hb|e].
    + destruct (Frame.wrap _ _ _ w) as [f w1] eqn:Ew.
      destruct (Frame.serialize f) as [fb|e] eqn:Ef.
      * intros [= <-] _. cbn [FramedMessage.chunks].
        apply serialize_returns in Ef as [_ ->].
        symmetry in Ew. apply wrap_fields in Ew as [Hty Hl].
        exists f, hb. auto.
      * intros [= <-]. discriminate.
    + intros [= <-]. discriminate.
  - intros data m' w' chunks Hser Hrt Hc.
    destruct (handle_frame_single FramedBuffer.__init__ m m' w w' data
                awaiting_frame_init Hhp Hser Hrt) as (f & _ & _ & Hput).
    specialize (Hput []). rewrite app_nil_r in Hput. cbv zeta in Hput.
    cbn [is_empty] in Hput.
    eexists _, _. split.
    + apply put_all_done; [exact between_puts_init|].
      rewrite Hc. unfold FramedBuffer.put. cbn [FramedBuffer.to_read
        FramedBuffer.__init__ Z.eqb]. exact Hput.
    + cbn [FramedBuffer.q FramedBuffer.__init__ app FramedMessage.payload
           FramedMessage.header]. auto.
  - intros hb Hd Hl. exact (serialize_single_returns m w hb Hhp Hd Hl).
Qed.

Lemma empty_payload_is_single_part_witness :
  (FramedMessage.payload hollow_message = Some FileBackedBuffer.from_temp
   /\ FileBackedBuffer.length FileBackedBuffer.from_temp = 0)
  /\ FramedMessage.has_payload hollow_message = Ok false
  /\ FramedMessage.serialize (serde := FlatJson.serde) hollow_message
       zero_world
     = Some (Ok ping_bytes, hollow_message, zero_world)
  /\ exists s r,
      FramedBuffer.put_all (serde := FlatJson.serde) FramedBuffer.__init__
        [ping_bytes] = FramedBuffer.Done s
      /\ FramedBuffer.q s = [r]
      /\ FramedMessage.payload r = None
      /\ FramedMessage.header r = FlatJson.ping.
Proof.
  assert (H1 : FramedMessage.payload hollow_message
               = Some FileBackedBuffer.from_temp) by reflexivity.
  assert (H2 : FileBackedBuffer.length FileBackedBuffer.from_temp = 0)
    by reflexivity.
  assert (H3 : FramedMessage.serialize (serde := FlatJson.serde)
                 hollow_message zero_world
               = Some (Ok ping_bytes, hollow_message, zero_world))
    by reflexivity.
  split; [split; assumption|].
  destruct (empty_payload_is_single_part (serde := FlatJson.serde)
              hollow_message FileBackedBuffer.from_temp zero_world H1 H2)
    as (Ha & _ & Hc & _).
  split; [exact Ha|]. split; [exact H3|].
  apply (Hc ping_bytes hollow_message zero_world [ping_bytes] H3).
  - reflexivity.
  - reflexivity.
Defined.

(** X22. A message whose identifier is between 1 and 2^128 - 1, with a
    header and a non-empty payload buffer (its length counter equal to
    the size of its contents, its chunk size positive and below 2^31, as
    for every buffer the constructors build) serializes (as soon as the
    encoded header and the payload are shorter than 2^32 bytes), and its
    bytes, ingested by a new engine in any chunks, yield exactly one
    completed message: same identifier, same header, and a payload that
    reads back, in full, as the original contents. *)
Theorem dual_part_round_trip {serde : Serde}
  (m : FramedMessage.t) (p : FileBackedBuffer.t) (w : World) :
  FramedMessage.payload m = Some p ->
  0 < FileBackedBuffer.length p ->
  FileBackedBuffer.length p = len (content (FileBackedBuffer.fp p)) ->
  0 < FileBackedBuffer.chunksize p < 2 ^ 31 ->
  0 < FramedMessage.msg_id m < 2 ^ 128 ->
  header_round_trips (FramedMessage.header m) ->
  (forall hb,
      dumps (FramedMessage.header m) = Ok hb -> len hb < 2 ^ 32 ->
      FileBackedBuffer.length p < 2 ^ 32 ->
      exists data m' w',
        FramedMessage.serialize m w = Some (Ok data, m', w'))
  /\ (forall data m' w' chunks,
         FramedMessage.serialize m w = Some (Ok data, m', w') ->
         List.concat chunks = data ->
         exists s b,
           FramedBuffer.put_all FramedBuffer.__init__ chunks
           = FramedBuffer.Done s
           /\ FramedBuffer.q s
              = [FramedMessage.mk (FramedMessage.msg_id m)
                   (FramedMessage.header m) (Some b)]
           /\ fst (FileBackedBuffer.readall b)
              = content (FileBackedBuffer.fp p)).
Proof.
  intros Hp Hpos Hlen Hcr Hid Hrt.
  assert (Hcs : FileBackedBuffer.chunksize p <> 0) by lia.
  split.
  - intros hb Hd Hhb Hpl.
    exact (serialize_dual_returns m p w hb Hp (conj Hpos Hpl) Hd Hhb).
  - intros data m' w' chunks Hser Hc.
    destruct (handle_frame_dual FramedBuffer.__init__ m m' w w' data p
                awaiting_frame_init Hp Hpos Hlen Hcs Hser Hrt)
      as (f1 & w1 & f2 & [n1 Hw1] & [n2 Hw2] & Hput).
    apply (wrap_keeps_id _ _ _ _ _ _ Hid) in Hw1 as [_ ->].
    apply (wrap_keeps_id _ _ _ _ _ _ Hid) in Hw2 as [Hid2 _].
    specialize (Hput []). rewrite app_nil_r in Hput. cbv zeta in Hput.
    cbn [is_empty] in Hput. rewrite Hid2 in Hput.
    eexists _, _. split.
    + apply put_all_done; [exact between_puts_init|].
      rewrite Hc. unfold FramedBuffer.put. cbn [FramedBuffer.to_read
        FramedBuffer.__init__ Z.eqb]. exact Hput.
    + cbn [FramedBuffer.q FramedBuffer.__init__ app]. split; [reflexivity|].
      apply spooled_readall.
Qed.

Lemma dual_part_round_trip_witness :
  (FramedMessage.payload work_message = Some work_payload
   /\ 0 < FileBackedBuffer.length work_payload
   /\ FileBackedBuffer.length work_payload
      = len (content (FileBackedBuffer.fp work_payload))
   /\ 0 < FileBackedBuffer.chunksize work_payload < 2 ^ 31
   /\ 0 < FramedMessage.msg_id work_message < 2 ^ 128
   /\ header_round_trips (serde := FlatJson.serde)
        (FramedMessage.header work_message)
   /\ List.concat (byte_by_byte work_bytes) = work_bytes)
  /\ exists m' s b,
      FramedMessage.serialize (serde := FlatJson.serde) work_message
        zero_world = Some (Ok work_bytes, m', zero_world)
      /\ FramedBuffer.put_all (serde := FlatJson.serde) FramedBuffer.__init__
           (byte_by_byte work_bytes) = FramedBuffer.Done s
      /\ FramedBuffer.q s = [FramedMessage.mk 7 FlatJson.work (Some b)]
      /\ fst (FileBackedBuffer.readall b) = [x01; x02; x03].
Proof.
  assert (H : FramedMessage.payload work_message = Some work_payload
              /\ 0 < FileBackedBuffer.length work_payload
              /\ FileBackedBuffer.length work_payload
                 = len (content (FileBackedBuffer.fp work_payload))
              /\ 0 < FileBackedBuffer.chunksize work_payload < 2 ^ 31
              /\ 0 < FramedMessage.msg_id work_message < 2 ^ 128
              /\ header_round_trips (serde := FlatJson.serde)
                   (FramedMessage.header work_message)
              /\ List.concat (byte_by_byte work_bytes) = work_bytes).
  { cbn. repeat split; try reflexivity; lia. }
  split; [exact H|].
  destruct H as (H1 & H2 & H3 & H4 & H5 & H6 & H7).
  eexists.
  assert (Hs : FramedMessage.serialize (serde := FlatJson.serde)
                 work_message zero_world
               = Some (Ok work_bytes,
                       FramedMessage.mk 7 FlatJson.work
                         (Some (FileBackedBuffer.seek
                                  (FileBackedBuffer.mk 3
                                     (mkFile [x01; x02; x03] 3)
                                     (2 ^ 12) (2 ^ 20)) 3)),
                       zero_world)) by reflexivity.
  destruct (proj2 (dual_part_round_trip (serde := FlatJson.serde)
                     work_message work_payload zero_world
                     H1 H2 H3 H4 H5 H6)
              work_bytes _ zero_world (byte_by_byte work_bytes) Hs H7)
    as (s & b & Hput & Hq & Hread).
  exists s, b. split; [exact Hs|]. auto.
Defined.

(** C1. The message with identifier 0, header [{"type": "work"}] and a
    payload of three bytes: [Frame.wrap] takes the 0 for a missing
    identifier, which the constructor does not, and draws another, so the
    one message the engine completes carries 2^78 + 2^63, not 0. *)
Lemma zero_id_is_not_preserved :
  FramedMessage.payload zero_id_message = Some work_payload
  /\ content (FileBackedBuffer.fp work_payload) = [x01; x02; x03]
  /\ header_round_trips (serde := FlatJson.serde)
       (FramedMessage.header zero_id_message)
  /\ exists data m' w' s r,
      FramedMessage.serialize (serde := FlatJson.serde) zero_id_message
        zero_world = Some (Ok data, m', w')
      /\ FramedBuffer.put (serde := FlatJson.serde) FramedBuffer.__init__ data
         = FramedBuffer.Done s
      /\ FramedBuffer.q s = [r]
      /\ FramedMessage.header r = FramedMessage.header zero_id_message
      /\ FramedMessage.msg_id zero_id_message = 0
      /\ FramedMessage.msg_id r = 2 ^ 78 + 2 ^ 63.
Proof.
  split; [reflexivity|]. split; [reflexivity|]. split; [reflexivity|].
  do 5 eexists.
  split; [reflexivity|].
  split; [vm_compute; reflexivity|].
  split; [reflexivity|].
  split; [reflexivity|].
  split; reflexivity.
Qed.

(** X23. Two single-part messages whose identifiers are between 1 and
    2^128 - 1, serialized independently, concatenated and ingested in one
    [put], yield exactly two completed messages; they leave the queue in
    the order of the input, each with its own header and its own
    identifier. *)
Theorem two_commands_in_one_chunk {serde : Serde}
  (m1 m2 m1' m2' : FramedMessage.t) (wa wa' wb wb' : World)
  (d1 d2 : bytes) :
  FramedMessage.payload m1 = None ->
  FramedMessage.payload m2 = None ->
  0 < FramedMessage.msg_id m1 < 2 ^ 128 ->
  0 < FramedMessage.msg_id m2 < 2 ^ 128 ->
  FramedMessage.serialize m1 wa = Some (Ok d1, m1', wa') ->
  FramedMessage.serialize m2 wb = Some (Ok d2, m2', wb') ->
  header_round_trips (FramedMessage.header m1) ->
  header_round_trips (FramedMessage.header m2) ->
  let r1 := FramedMessage.mk (FramedMessage.msg_id m1)
              (FramedMessage.header m1) None in
  let r2 := FramedMessage.mk (FramedMessage.msg_id m2)
              (FramedMessage.header m2) None in
  exists s s1 s2,
    FramedBuffer.put FramedBuffer.__init__ (d1 ++ d2) = FramedBuffer.Done s
    /\ FramedBuffer.q s = [r1; r2]
    /\ FramedBuffer.get_nowait s = Ok (r1, s1)
    /\ FramedBuffer.get_nowait s1 = Ok (r2, s2)
    /\ FramedBuffer.get_nowait s2 = Raise QueueEmpty.
Proof.
  intros Hp1 Hp2 Hid1 Hid2 Hs1 Hs2 Hrt1 Hrt2 r1 r2.
  assert (Hhp1 : FramedMessage.has_payload m1 = Ok false)
    by (unfold FramedMessage.has_payload; rewrite Hp1; reflexivity).
  assert (Hhp2 : FramedMessage.has_payload m2 = Ok false)
    by (unfold FramedMessage.has_payload; rewrite Hp2; reflexivity).
  destruct (handle_frame_single FramedBuffer.__init__ m1 m1' wa wa' d1
              awaiting_frame_init Hhp1 Hs1 Hrt1)
    as (f1 & [n1 Hw1] & _ & Hput1).
  apply (wrap_keeps_id _ _ _ _ _ _ Hid1) in Hw1 as [Hf1 _].
  specialize (Hput1 d2). cbv zeta in Hput1. rewrite Hf1 in Hput1.
  match type of Hput1 with
  | _ = if _ then FramedBuffer.Done ?s' else _ => set (sa := s') in *
  end.
  destruct (handle_frame_single sa m2 m2' wb wb' d2
              ltac:(split; reflexivity) Hhp2 Hs2 Hrt2)
    as (f2 & [n2 Hw2] & Hlong & Hput2).
  apply (wrap_keeps_id _ _ _ _ _ _ Hid2) in Hw2 as [Hf2 _].
  specialize (Hput2 []). rewrite app_nil_r in Hput2. cbv zeta in Hput2.
  cbn [is_empty] in Hput2. rewrite Hf2 in Hput2.
  assert (Hne : is_empty d2 = false).
  { destruct d2; [cbn in Hlong; unfold Frame.fmt_size in Hlong; lia
                 | reflexivity]. }
  rewrite Hne, Hput2 in Hput1.
  eexists _, _, _. split.
  - unfold FramedBuffer.put. cbn [FramedBuffer.to_read FramedBuffer.__init__
      Z.eqb]. exact Hput1.
  - subst sa. cbn [FramedBuffer.q FramedBuffer.__init__ app].
    split; [reflexivity|].
    unfold FramedBuffer.get_nowait. cbn [FramedBuffer.q].
    split; [reflexivity|]. split; reflexivity.
Qed.

Lemma two_commands_in_one_chunk_witness :
  (FramedMessage.payload ping_message = None
   /\ FramedMessage.payload pong_message = None
   /\ 0 < FramedMessage.msg_id ping_message < 2 ^ 128
   /\ 0 < FramedMessage.msg_id pong_message < 2 ^ 128
   /\ FramedMessage.serialize (serde := FlatJson.serde) ping_message
        zero_world = Some (Ok ping_bytes, ping_message, zero_world)
   /\ FramedMessage.serialize (serde := FlatJson.serde) pong_message
        zero_world = Some (Ok pong_bytes, pong_message, zero_world)
   /\ header_round_trips (serde := FlatJson.serde)
        (FramedMessage.header ping_message)
   /\ header_round_trips (serde := FlatJson.serde)
        (FramedMessage.header pong_message))
  /\ exists s s1 s2,
      FramedBuffer.put (serde := FlatJson.serde) FramedBuffer.__init__
        (ping_bytes ++ pong_bytes) = FramedBuffer.Done s
      /\ FramedBuffer.q s = [ping_message; pong_message]
      /\ FramedBuffer.get_nowait s = Ok (ping_message, s1)
      /\ FramedBuffer.get_nowait s1 = Ok (pong_message, s2)
      /\ FramedBuffer.get_nowait s2 = Raise QueueEmpty.
Proof.
  assert (H : FramedMessage.payload ping_message = None
              /\ FramedMessage.payload pong_message = None
              /\ 0 < FramedMessage.msg_id ping_message < 2 ^ 128
              /\ 0 < FramedMessage.msg_id pong_message < 2 ^ 128
              /\ FramedMessage.serialize (serde := FlatJson.serde)
                   ping_message zero_world
                 = Some (Ok ping_bytes, ping_message, zero_world)
              /\ FramedMessage.serialize (serde := FlatJson.serde)
                   pong_message zero_world
                 = Some (Ok pong_bytes, pong_message, zero_world)
              /\ header_round_trips (serde := FlatJson.serde)
                   (FramedMessage.header ping_message)
              /\ header_round_trips (serde := FlatJson.serde)
                   (FramedMessage.header pong_message)).
  { cbn. repeat split; try reflexivity; lia. }
  split; [exact H|].
  destruct H as (H1 & H2 & H3 & H4 & H5 & H6 & H7 & H8).
  exact (two_commands_in_one_chunk (serde := FlatJson.serde)
           ping_message pong_message ping_message pong_message
           zero_world zero_world zero_world zero_world
           ping_bytes pong_bytes H1 H2 H3 H4 H5 H6 H7 H8).
Defined.

(** C4. Two single-part messages, the first built with the identifier 0,
    serialized, joined and ingested in one [put]: [Frame.wrap] takes the
    0 for a missing identifier, which the constructor does not, and draws
    another, so the first of the two completed messages carries
    2^78 + 2^63, not 0; the second carries its own. *)
Lemma zero_id_command_is_renamed :
  FramedMessage.payload zero_id_ping = None
  /\ FramedMessage.payload pong_message = None
  /\ header_round_trips (serde := FlatJson.serde)
       (FramedMessage.header zero_id_ping)
  /\ exists d1 d2 m1' m2' w1 w2 s r1 r2,
      FramedMessage.serialize (serde := FlatJson.serde) zero_id_ping
        zero_world = Some (Ok d1, m1', w1)
      /\ FramedMessage.serialize (serde := FlatJson.serde) pong_message
           zero_world = Some (Ok d2, m2', w2)
      /\ FramedBuffer.put (serde := FlatJson.serde) FramedBuffer.__init__
           (d1 ++ d2) = FramedBuffer.Done s
      /\ FramedBuffer.q s = [r1; r2]
      /\ FramedMessage.msg_id zero_id_ping = 0
      /\ FramedMessage.msg_id r1 = 2 ^ 78 + 2 ^ 63
      /\ FramedMessage.msg_id r2 = FramedMessage.msg_id pong_message.
Proof.
  split; [reflexivity|]. split; [reflexivity|]. split; [reflexivity|].
  do 9 eexists.
  split; [reflexivity|].
  split; [reflexivity|].
  split; [vm_compute; reflexivity|].
  split; [reflexivity|].
  split; [reflexivity|].
  split; reflexivity.
Qed.

(** C10. [Frame.wrap] treats the identifier 0 as it treats a missing one
    and draws a fresh identifier, whereas the constructor of
    [FramedMessage] keeps 0.  So a dual-part message built with
    [msg_id = 0] sends a HEADER frame and a PAYLOAD frame that carry two
    separately drawn identifiers: the first and the second draw from the
    entropy source.  Neither is 0, and they differ as soon as the two
    draws differ in one random bit. *)
Theorem zero_msg_id_is_redrawn {serde : Serde} :
  (forall n ty w, Frame.wrap n ty (Some 0) w = Frame.wrap n ty None w)
  /\ (forall h p w,
         FramedMessage.__init__ (Some 0) h p w = (FramedMessage.mk 0 h p, w))
  /\ (forall m m' p w w' data,
         FramedMessage.msg_id m = 0 ->
         FramedMessage.payload m = Some p ->
         0 < FileBackedBuffer.length p ->
         FramedMessage.serialize m w = Some (Ok data, m', w') ->
         exists b1 hb b2 body f1 f2,
           data = b1 ++ hb ++ b2 ++ body
           /\ Frame.deserialize b1 = Ok f1
           /\ Frame.deserialize b2 = Ok f2
           /\ Frame.type_ f1 = Frame.Types.HEADER
           /\ Frame.length f1 = len hb
           /\ Frame.type_ f2 = Frame.Types.PAYLOAD
           /\ Frame.msg_id f1 = uuid4_of_random (urandom w (drawn w))
           /\ Frame.msg_id f2 = uuid4_of_random (urandom w (S (drawn w)))
           /\ Frame.msg_id f1 <> 0
           /\ Frame.msg_id f2 <> 0
           /\ drawn w' = S (S (drawn w))
           /\ (forall n,
                  0 <= n < 128 -> uuid4_fixed_bit n = false ->
                  Z.testbit (urandom w (drawn w)) n
                  <> Z.testbit (urandom w (S (drawn w))) n ->
                  Frame.msg_id f1 <> Frame.msg_id f2)).
Proof.
  split; [reflexivity|]. split; [reflexivity|].
  intros m m' p w w' data Hid Hp Hpos Hser.
  assert (Ht : FileBackedBuffer.truth p = Ok true).
  { unfold FileBackedBuffer.truth, FileBackedBuffer.__len__.
    destruct (Z.ltb_spec (FileBackedBuffer.length p) 0); [lia|].
    cbn [bind]. destruct (Z.eqb_spec (FileBackedBuffer.length p) 0);
      [lia | reflexivity]. }
  destruct (serialize_dual _ _ _ _ _ _ Hp Ht Hser)
    as (hb & f1 & w1 & f2 & body & Hd & Hw1 & Hw2 & Hpk1 & Hpk2 & -> & _).
  rewrite Hid, wrap_zero in Hw1. injection Hw1 as -> ->.
  rewrite Hid, wrap_zero in Hw2. cbn [urandom drawn] in Hw2.
  injection Hw2 as -> ->.
  set (u1 := uuid4_of_random (urandom w (drawn w))) in *.
  set (u2 := uuid4_of_random (urandom w (S (drawn w)))) in *.
  pose proof (uuid4_range (urandom w (drawn w))) as Hr1. fold u1 in Hr1.
  pose proof (uuid4_range (urandom w (S (drawn w)))) as Hr2. fold u2 in Hr2.
  eexists (frame_layout _), hb, (frame_layout _), body, _, _.
  split; [reflexivity|].
  split.
  { rewrite deserialize_layout by exact Hpk1.
    cbn [Frame.type_ Frame.version Frame.length Frame.msg_id Frame.id_
         Frame.Types.of_int bind].
    rewrite Z.mod_small by exact Hr1. reflexivity. }
  split.
  { rewrite deserialize_layout by exact Hpk2.
    cbn [Frame.type_ Frame.version Frame.length Frame.msg_id Frame.id_
         Frame.Types.of_int bind].
    rewrite Z.mod_small by exact Hr2. reflexivity. }
  cbn [Frame.type_ Frame.length Frame.msg_id drawn].
  repeat split; try reflexivity.
  - apply uuid4_nonzero.
  - apply uuid4_nonzero.
  - intros n Hn Hf Hb. exact (uuid4_differ _ _ n Hn Hf Hb).
Qed.

Lemma zero_msg_id_is_redrawn_witness :
  (FramedMessage.msg_id zero_id_message = 0
   /\ FramedMessage.payload zero_id_message = Some work_payload
   /\ 0 < FileBackedBuffer.length work_payload
   /\ 0 <= 0 < 128 /\ uuid4_fixed_bit 0 = false
   /\ Z.testbit (urandom counting_world (drawn counting_world)) 0
      <> Z.testbit (urandom counting_world (S (drawn counting_world))) 0)
  /\ exists data m' w' b1 hb b2 body f1 f2,
      FramedMessage.serialize (serde := FlatJson.serde) zero_id_message
        counting_world = Some (Ok data, m', w')
      /\ data = b1 ++ hb ++ b2 ++ body
      /\ Frame.deserialize b1 = Ok f1
      /\ Frame.deserialize b2 = Ok f2
      /\ Frame.msg_id f1 <> 0
      /\ Frame.msg_id f2 <> 0
      /\ Frame.msg_id f1 <> Frame.msg_id f2.
Proof.
  assert (H : FramedMessage.msg_id zero_id_message = 0
              /\ FramedMessage.payload zero_id_message = Some work_payload
              /\ 0 < FileBackedBuffer.length work_payload
              /\ 0 <= 0 < 128 /\ uuid4_fixed_bit 0 = false
              /\ Z.testbit (urandom counting_world (drawn counting_world)) 0
                 <> Z.testbit
                      (urandom counting_world (S (drawn counting_world))) 0).
  { cbn. repeat split; try reflexivity; try lia; discriminate. }
  split; [exact H|].
  destruct H as (H1 & H2 & H3 & H4 & H5 & H6).
  destruct (FramedMessage.serialize (serde := FlatJson.serde)
              zero_id_message counting_world)
    as [[[[data|e] m'] w']|] eqn:Hs;
    [|vm_compute in Hs; discriminate Hs | vm_compute in Hs; discriminate Hs].
  destruct (zero_msg_id_is_redrawn (serde := FlatJson.serde))
    as (_ & _ & Hz).
  destruct (Hz zero_id_message m' work_payload counting_world w' data
              H1 H2 H3 Hs)
    as (b1 & hb & b2 & body & f1 & f2 & Hd & Hd1 & Hd2 & _ & _ & _ & _ & _
        & Hn1 & Hn2 & _ & Hdiff).
  exists data, m', w', b1, hb, b2, body, f1, f2.
  repeat split; try assumption; try reflexivity.
  exact (Hdiff 0 H4 H5 H6).
Defined.

(** C3, as the code has it.  From any state the engine can be in between
    two calls of [put], whenever feeding an input whole, in one call,
    stays within the interpreter's recursion limit, feeding it in chunks
    does too, and the two come to the same end: the completed messages
    are the same; when no exception is raised the final engine states are
    equal; when one is raised it is the same exception, and the two
    engines differ at most in the bytes left in [framebuffer].  In
    particular [put(a ++ b)] agrees in this sense with [put(a)] followed
    by [put(b)].  An input no longer than 26 bytes for every activation
    the stack takes stays within the limit. *)
Theorem chunking_invariance {serde : Serde}
  (limit : nat) (s : FramedBuffer.t) (chunks : list bytes) :
  (1 <= limit)%nat ->
  between_puts s ->
  FramedBuffer.put_within limit s (List.concat chunks)
  <> FramedBuffer.OutOfFuel ->
  FramedBuffer.put_all_within limit s chunks <> FramedBuffer.OutOfFuel
  /\ agree (FramedBuffer.put_all_within limit s chunks)
       (FramedBuffer.put_within limit s (List.concat chunks))
  /\ completed (FramedBuffer.put_all_within limit s chunks)
     = completed (FramedBuffer.put_within limit s (List.concat chunks))
  /\ (forall s',
         FramedBuffer.put_within limit s (List.concat chunks)
         = FramedBuffer.Done s' <->
         FramedBuffer.put_all_within limit s chunks = FramedBuffer.Done s')
  /\ (forall a b,
         FramedBuffer.put_within limit s (a ++ b) <> FramedBuffer.OutOfFuel ->
         then_put_within limit (FramedBuffer.put_within limit s a) b
         <> FramedBuffer.OutOfFuel
         /\ agree (then_put_within limit (FramedBuffer.put_within limit s a) b)
              (FramedBuffer.put_within limit s (a ++ b)))
  /\ (forall data,
         fits_within limit data ->
         FramedBuffer.put_within limit s data <> FramedBuffer.OutOfFuel).
Proof.
  intros Hl Hs Hne.
  pose proof (put_all_within_whole limit chunks s Hl Hs Hne) as Hall.
  assert (Ha : agree (FramedBuffer.put_all_within limit s chunks)
                 (FramedBuffer.put_within limit s (List.concat chunks))).
  { rewrite (put_all_within_put_all limit chunks s Hall).
    rewrite (put_within_put limit s _ Hne).
    apply put_all_agree. exact Hs. }
  split; [exact Hall|].
  split; [exact Ha|].
  split; [|split; [|split]].
  - destruct (FramedBuffer.put_all_within limit s chunks) as [s1|e1 s1|],
      (FramedBuffer.put_within limit s (List.concat chunks)) as [s2|e2 s2|];
      cbn [agree] in Ha; try contradiction; try reflexivity.
    + subst. reflexivity.
    + destruct Ha as [_ Hq]. apply (f_equal FramedBuffer.q) in Hq.
      cbn [completed state_of option_map]. f_equal. exact Hq.
  - intros s'.
    destruct (FramedBuffer.put_all_within limit s chunks) as [s1|e1 s1|],
      (FramedBuffer.put_within limit s (List.concat chunks)) as [s2|e2 s2|];
      cbn [agree] in Ha; try contradiction;
      split; intros H; try discriminate; congruence.
  - intros a b Hab.
    pose proof (put_split_within limit s a b Hl Hs Hab) as Hsplit.
    split; [exact Hsplit|].
    rewrite (put_within_put limit s (a ++ b) Hab).
    destruct (FramedBuffer.put_within limit s a) as [s1|e1 s1|] eqn:E;
      [| |cbn in Hsplit; congruence].
    + cbn [then_put_within] in Hsplit |- *.
      rewrite (put_within_put limit s1 b Hsplit).
      pose proof (put_split s a b Hs) as Hp.
      rewrite <- (put_within_put limit s a) in Hp
        by (rewrite E; discriminate).
      rewrite E in Hp. exact Hp.
    + cbn [then_put_within].
      pose proof (put_split s a b Hs) as Hp.
      rewrite <- (put_within_put limit s a) in Hp
        by (rewrite E; discriminate).
      rewrite E in Hp. exact Hp.
  - intros data Hfit. apply put_within_fits; assumption.
Qed.

Lemma chunking_invariance_witness :
  ((1 <= 2)%nat
   /\ between_puts FramedBuffer.__init__
   /\ FramedBuffer.put_within (serde := FlatJson.serde) 2
        FramedBuffer.__init__ (List.concat (byte_by_byte work_bytes))
      <> FramedBuffer.OutOfFuel)
  /\ FramedBuffer.put_all_within (serde := FlatJson.serde) 2
       FramedBuffer.__init__ (byte_by_byte work_bytes)
     <> FramedBuffer.OutOfFuel
  /\ agree
       (FramedBuffer.put_all_within (serde := FlatJson.serde) 2
          FramedBuffer.__init__ (byte_by_byte work_bytes))
       (FramedBuffer.put_within (serde := FlatJson.serde) 2
          FramedBuffer.__init__ (List.concat (byte_by_byte work_bytes)))
  /\ completed
       (FramedBuffer.put_all_within (serde := FlatJson.serde) 2
          FramedBuffer.__init__ (byte_by_byte work_bytes))
     = completed
         (FramedBuffer.put_within (serde := FlatJson.serde) 2
            FramedBuffer.__init__ (List.concat (byte_by_byte work_bytes))).
Proof.
  assert (H1 : (1 <= 2)%nat) by lia.
  assert (H3 : FramedBuffer.put_within (serde := FlatJson.serde) 2
                 FramedBuffer.__init__
                 (List.concat (byte_by_byte work_bytes))
               <> FramedBuffer.OutOfFuel)
    by (vm_compute; discriminate).
  split; [exact (conj H1 (conj between_puts_init H3))|].
  destruct (chunking_invariance (serde := FlatJson.serde) 2
              FramedBuffer.__init__ (byte_by_byte work_bytes)
              H1 between_puts_init H3)
    as (Hn & Ha & Hc & _).
  split; [exact Hn|]. split; assumption.
Defined.

(** C3 as stated fails on input that makes [put] raise.  If the caller
    lets the exception end the feeding, a header of unknown kind followed
    by one more byte leaves 27 bytes in [framebuffer] when fed whole and
    26 when fed as two chunks; if the caller catches it and goes on, a
    COMMAND message whose header cannot be decoded, followed by one more
    byte, loses that byte when fed whole and keeps it when fed as two
    chunks. *)
Lemma chunking_changes_state_after_error :
  (exists s1 s2,
      FramedBuffer.put (serde := FlatJson.serde) FramedBuffer.__init__
        (kind3_header ++ [x07]) = FramedBuffer.Raised ValueError s1
      /\ FramedBuffer.put_all (serde := FlatJson.serde) FramedBuffer.__init__
           [kind3_header; [x07]] = FramedBuffer.Raised ValueError s2
      /\ FramedBuffer.framebuffer s1 = kind3_header ++ [x07]
      /\ FramedBuffer.framebuffer s2 = kind3_header
      /\ s1 <> s2)
  /\ FramedBuffer.framebuffer
       (put_each (serde := FlatJson.serde) FramedBuffer.__init__
          [undecodable_command ++ [x07]]) = []
  /\ FramedBuffer.framebuffer
       (put_each (serde := FlatJson.serde) FramedBuffer.__init__
          [undecodable_command; [x07]]) = [x07]
  /\ put_each (serde := FlatJson.serde) FramedBuffer.__init__
       [undecodable_command ++ [x07]]
     <> put_each (serde := FlatJson.serde) FramedBuffer.__init__
          [undecodable_command; [x07]].
Proof.
  split; [|split; [|split]].
  - do 2 eexists.
    split; [vm_compute; reflexivity|].
    split; [vm_compute; reflexivity|].
    split; [reflexivity|].
    split; [reflexivity|].
    intros H. apply (f_equal FramedBuffer.framebuffer) in H.
    vm_compute in H. discriminate H.
  - vm_compute. reflexivity.
  - vm_compute. reflexivity.
  - intros H. vm_compute in H. discriminate H.
Qed.

(** * Further properties of the code *)

(** ** Identifiers and frames *)

Lemma be_bytes_high (n : nat) (u v : Z) :
  Struct.be_bytes n (u * 256 ^ Z.of_nat n + v) = Struct.be_bytes n v.
Proof.
  revert u. induction n as [|k IH]; intros u; [reflexivity|].
  cbn [Struct.be_bytes].
  assert (Hp : 0 < 256 ^ Z.of_nat k) by (apply Z.pow_pos_nonneg; lia).
  rewrite Nat2Z.inj_succ, Z.pow_succ_r by lia.
  replace (u * (256 * 256 ^ Z.of_nat k) + v)
    with ((u * 256) * 256 ^ Z.of_nat k + v) by ring.
  rewrite IH. f_equal.
  rewrite !Z.shiftr_div_pow2 by lia. rewrite <- pow256.
  rewrite Z.div_add_l by lia.
  unfold Struct.byte_of_Z.
  rewrite Z.add_comm, Z.mod_add by lia. reflexivity.
Qed.

Lemma be_bytes_be_value (l : bytes) :
  Struct.be_bytes (List.length l) (Struct.be_value l) = l.
Proof.
  induction l as [|b l IH]; [reflexivity|].
  cbn [List.length Struct.be_bytes].
  rewrite be_value_cons.
  pose proof (be_value_range l) as Hr.
  assert (Hp : 0 < 256 ^ Z.of_nat (List.length l))
    by (apply Z.pow_pos_nonneg; lia).
  rewrite be_bytes_high, IH. f_equal.
  rewrite Z.shiftr_div_pow2 by lia. rewrite <- pow256.
  rewrite Z.div_add_l by lia.
  rewrite Z.div_small by lia.
  rewrite Z.add_0_r. apply byte_of_Z_of_byte.
Qed.

Lemma split_join_uuid (hi lo : Z) :
  0 <= hi < 2 ^ 64 -> 0 <= lo < 2 ^ 64 ->
  split_uuid (join_uuid hi lo) = (hi, lo).
Proof.
  intros Hhi Hlo. unfold join_uuid. rewrite lor_shiftl_64 by exact Hlo.
  unfold split_uuid. rewrite !land_MAX_INT64.
  rewrite Z.shiftr_div_pow2 by lia.
  rewrite Z.div_add_l by lia. rewrite (Z.div_small lo) by lia.
  rewrite Z.add_0_r, (Z.mod_small hi) by lia.
  rewrite Z.add_comm, Z.mod_add by lia.
  rewrite Z.mod_small by lia. reflexivity.
Qed.

(** X1. [split_uuid] always gives two words that fit 64 bits, whatever
    integer it is given; [join_uuid] undoes it on 128-bit values, and
    [split_uuid] undoes [join_uuid] on two 64-bit words. *)
Theorem uuid_words_round_trip :
  (forall v,
      0 <= fst (split_uuid v) < 2 ^ 64 /\ 0 <= snd (split_uuid v) < 2 ^ 64)
  /\ (forall v,
         0 <= v < 2 ^ 128 ->
         join_uuid (fst (split_uuid v)) (snd (split_uuid v)) = v)
  /\ (forall hi lo,
         0 <= hi < 2 ^ 64 -> 0 <= lo < 2 ^ 64 ->
         split_uuid (join_uuid hi lo) = (hi, lo)).
Proof.
  split; [exact split_uuid_range|].
  split; [exact join_split_uuid | exact split_join_uuid].
Qed.

Lemma uuid_words_round_trip_witness :
  (0 <= 2 ^ 100 + 5 < 2 ^ 128 /\ 0 <= 3 < 2 ^ 64 /\ 0 <= 9 < 2 ^ 64)
  /\ join_uuid (fst (split_uuid (2 ^ 100 + 5)))
       (snd (split_uuid (2 ^ 100 + 5))) = 2 ^ 100 + 5
  /\ split_uuid (join_uuid 3 9) = (3, 9).
Proof.
  assert (H1 : 0 <= 2 ^ 100 + 5 < 2 ^ 128) by lia.
  assert (H2 : 0 <= 3 < 2 ^ 64) by lia.
  assert (H3 : 0 <= 9 < 2 ^ 64) by lia.
  split; [repeat split; lia|].
  split.
  - exact (proj1 (proj2 uuid_words_round_trip) _ H1).
  - exact (proj2 (proj2 uuid_words_round_trip) 3 9 H2 H3).
Defined.

(** X2. [Frame.serialize] returns exactly when kind and version fit one
    byte and sequence id and length fit 32 bits; otherwise it raises
    [ValueError] for a kind or version out of range, and [struct.error]
    for a sequence id or length out of range.  The message id never makes
    it fail: it is cut to its low 128 bits, which is what deserializing
    the bytes gives back. *)
Theorem serialize_returns_iff (f : Frame.t) :
  ((exists bs, Frame.serialize f = Ok bs) <-> frame_packable f)
  /\ (~ (0 <= Frame.type_ f < 256 /\ 0 <= Frame.version f < 256) ->
      Frame.serialize f = Raise ValueError)
  /\ (0 <= Frame.type_ f < 256 -> 0 <= Frame.version f < 256 ->
      ~ (0 <= Frame.id_ f < 2 ^ 32 /\ 0 <= Frame.length f < 2 ^ 32) ->
      Frame.serialize f = Raise StructError)
  /\ (forall bs,
         Frame.serialize f = Ok bs ->
         Frame.Types.mem (Frame.type_ f) = true ->
         Frame.deserialize bs
         = Ok (Frame.mk (Frame.type_ f) (Frame.version f) (Frame.length f)
                 (Frame.msg_id f mod 2 ^ 128) (Frame.id_ f))).
Proof.
  split; [|split; [|split]].
  - split.
    + intros [bs H]. apply serialize_returns in H. tauto.
    + intros H. eexists. apply serialize_packable. exact H.
  - intros H. unfold Frame.serialize, Struct.bytes_of_int.
    destruct ((0 <=? Frame.type_ f) && (Frame.type_ f <? 256)) eqn:Et;
      [|reflexivity].
    destruct ((0 <=? Frame.version f) && (Frame.version f <? 256)) eqn:Ev;
      [|reflexivity].
    apply range_check in Et, Ev. tauto.
  - intros Ht Hv H. unfold Frame.serialize, Struct.bytes_of_int,
      Struct.pack_I, Struct.pack_uint.
    rewrite (proj2 (range_check 0 256 _) Ht).
    rewrite (proj2 (range_check 0 256 _) Hv). cbn [bind].
    destruct (split_uuid (Frame.msg_id f)) as [hi lo].
    change (2 ^ (8 * Z.of_nat 4)) with (2 ^ 32).
    destruct ((0 <=? Frame.id_ f) && (Frame.id_ f <? 2 ^ 32)) eqn:Ei;
      [|reflexivity].
    cbn [bind].
    destruct ((0 <=? Frame.length f) && (Frame.length f <? 2 ^ 32)) eqn:El;
      [|reflexivity].
    apply range_check in Ei, El. tauto.
  - intros bs H Hty. apply serialize_returns in H as [Hp ->].
    rewrite deserialize_layout by exact Hp.
    unfold Frame.Types.of_int. rewrite Hty. reflexivity.
Qed.

(** A COMMAND frame whose message id does not fit 128 bits, and one whose
    length does not fit 32 bits. *)
Lemma serialize_returns_iff_witness :
  (frame_packable (Frame.mk 2 1 4 (2 ^ 128 + 5) 1)
   /\ ~ (0 <= Frame.type_ (Frame.mk 256 1 4 5 1) < 256
         /\ 0 <= Frame.version (Frame.mk 256 1 4 5 1) < 256)
   /\ ~ (0 <= Frame.id_ (Frame.mk 2 1 (2 ^ 32) 5 1) < 2 ^ 32
         /\ 0 <= Frame.length (Frame.mk 2 1 (2 ^ 32) 5 1) < 2 ^ 32))
  /\ (exists bs,
         Frame.serialize (Frame.mk 2 1 4 (2 ^ 128 + 5) 1) = Ok bs
         /\ Frame.deserialize bs = Ok (Frame.mk 2 1 4 5 1))
  /\ Frame.serialize (Frame.mk 256 1 4 5 1) = Raise ValueError
  /\ Frame.serialize (Frame.mk 2 1 (2 ^ 32) 5 1) = Raise StructError.
Proof.
  assert (H1 : frame_packable (Frame.mk 2 1 4 (2 ^ 128 + 5) 1))
    by (unfold frame_packable; cbn; lia).
  assert (H2 : ~ (0 <= Frame.type_ (Frame.mk 256 1 4 5 1) < 256
                  /\ 0 <= Frame.version (Frame.mk 256 1 4 5 1) < 256))
    by (cbn; lia).
  assert (H3 : ~ (0 <= Frame.id_ (Frame.mk 2 1 (2 ^ 32) 5 1) < 2 ^ 32
                  /\ 0 <= Frame.length (Frame.mk 2 1 (2 ^ 32) 5 1)
                     < 2 ^ 32))
    by (cbn; lia).
  split; [exact (conj H1 (conj H2 H3))|].
  split; [|split].
  - destruct (proj2 (proj1 (serialize_returns_iff
                              (Frame.mk 2 1 4 (2 ^ 128 + 5) 1))) H1)
      as [bs Hs].
    exists bs. split; [exact Hs|].
    exact (proj2 (proj2 (proj2 (serialize_returns_iff
                                  (Frame.mk 2 1 4 (2 ^ 128 + 5) 1))))
             bs Hs eq_refl).
  - exact (proj1 (proj2 (serialize_returns_iff (Frame.mk 256 1 4 5 1))) H2).
  - apply (proj1 (proj2 (proj2 (serialize_returns_iff
                                  (Frame.mk 2 1 (2 ^ 32) 5 1)))));
      [cbn; lia | cbn; lia | exact H3].
Defined.

(** X3. [Frame.deserialize] accepts exactly 26 bytes: any other number,
    larger ones included, raises [struct.error].  A frame it returns has
    a known kind and a message id that fits 128 bits, and serializing it
    gives back the very bytes it was parsed from. *)
Theorem deserialize_then_serialize :
  (forall buf,
      List.length buf <> Frame.fmt_size ->
      Frame.deserialize buf = Raise StructError)
  /\ (forall buf f,
         Frame.deserialize buf = Ok f ->
         Frame.serialize f = Ok buf
         /\ Frame.Types.mem (Frame.type_ f) = true
         /\ 0 <= Frame.msg_id f < 2 ^ 128).
Proof.
  split; [exact deserialize_length|].
  intros buf f Hd.
  assert (Hlen : List.length buf = Frame.fmt_size).
  { destruct (Nat.eq_dec (List.length buf) Frame.fmt_size) as [H|H];
      [exact H|].
    rewrite (deserialize_length buf H) in Hd. discriminate. }
  destruct (at_least_a_header buf ltac:(lia))
    as (k & hdr & tl & -> & Hh & v & i4 & l4 & h8 & lo8 & -> & Hi & Hl
        & Hhi & Hlo).
  assert (Htl : tl = []).
  { cbn [List.length] in Hlen. rewrite !length_app in Hlen.
    cbn [List.length] in Hlen. rewrite !length_app in Hlen.
    unfold Frame.fmt_size in Hlen.
    destruct tl; [reflexivity | cbn [List.length] in Hlen; lia]. }
  subst tl. rewrite app_nil_r in *.
  change (k :: v :: i4 ++ l4 ++ h8 ++ lo8)
    with ([k; v] ++ i4 ++ l4 ++ h8 ++ lo8) in *.
  rewrite deserialize_fields in Hd by assumption.
  unfold Frame.Types.of_int in Hd.
  destruct (Frame.Types.mem (Struct.Z_of_byte k)) eqn:Hk; [|discriminate].
  cbn [bind] in Hd. injection Hd as <-.
  pose proof (Z_of_byte_range k) as Rk.
  pose proof (Z_of_byte_range v) as Rv.
  pose proof (be_value_range i4) as Ri. rewrite Hi in Ri.
  pose proof (be_value_range l4) as Rl. rewrite Hl in Rl.
  pose proof (be_value_range h8) as Rh. rewrite Hhi in Rh.
  pose proof (be_value_range lo8) as Ro. rewrite Hlo in Ro.
  change (256 ^ Z.of_nat 4) with (2 ^ 32) in *.
  change (256 ^ Z.of_nat 8) with (2 ^ 64) in *.
  split; [|split].
  - rewrite serialize_packable
      by (unfold frame_packable; cbn [Frame.type_ Frame.version Frame.id_
            Frame.length]; lia).
    unfold frame_layout.
    cbn [Frame.type_ Frame.version Frame.id_ Frame.length Frame.msg_id].
    rewrite split_join_uuid by assumption. cbn [fst snd].
    rewrite !byte_of_Z_of_byte.
    rewrite <- Hi at 1. rewrite <- Hl at 1.
    rewrite <- Hhi at 1. rewrite <- Hlo at 1.
    rewrite !be_bytes_be_value. reflexivity.
  - exact Hk.
  - cbn [Frame.msg_id]. unfold join_uuid.
    rewrite lor_shiftl_64 by exact Ro. nia.
Qed.

Lemma deserialize_then_serialize_witness :
  (List.length (command_header ++ [x7b]) <> Frame.fmt_size
   /\ Frame.deserialize command_header
      = Ok (Frame.mk Frame.Types.COMMAND 1 16 7 1))
  /\ Frame.deserialize (command_header ++ [x7b]) = Raise StructError
  /\ Frame.serialize (Frame.mk Frame.Types.COMMAND 1 16 7 1)
     = Ok command_header.
Proof.
  assert (H1 : List.length (command_header ++ [x7b]) <> Frame.fmt_size)
    by (cbn; unfold Frame.fmt_size; lia).
  assert (H2 : Frame.deserialize command_header
               = Ok (Frame.mk Frame.Types.COMMAND 1 16 7 1))
    by reflexivity.
  split; [exact (conj H1 H2)|].
  split.
  - exact (proj1 deserialize_then_serialize _ H1).
  - exact (proj1 (proj2 deserialize_then_serialize _ _ H2)).
Defined.

(** ** Spooled buffers *)

Lemma write_at_end (b : FileBackedBuffer.t) (x : bytes) :
  at_end b ->
  FileBackedBuffer.write b x
  = (FileBackedBuffer.mk (FileBackedBuffer.length b + len x)
       (mkFile (content (FileBackedBuffer.fp b) ++ x)
          (List.length (content (FileBackedBuffer.fp b)) + List.length x))
       (FileBackedBuffer._min_chunk b) (FileBackedBuffer._max_chunk b),
     len x).
Proof.
  unfold at_end. intros He.
  destruct b as [n [c p] lo hi]. cbn [FileBackedBuffer.fp content pos] in *.
  subst p. destruct x as [|y x].
  - rewrite buffer_write_nil. cbn [len List.length Z.of_nat].
    rewrite Z.add_0_r, app_nil_r, Nat.add_0_r. reflexivity.
  - unfold FileBackedBuffer.write, file_write.
    cbn [FileBackedBuffer.fp FileBackedBuffer.length content pos
         FileBackedBuffer._min_chunk FileBackedBuffer._max_chunk].
    rewrite firstn_all, Nat.sub_diag.
    rewrite skipn_all2 by lia.
    cbn [repeat app]. rewrite app_nil_r. reflexivity.
Qed.

Lemma write_all_at_end (chunks : list bytes) (b : FileBackedBuffer.t) :
  at_end b ->
  write_all b chunks
  = FileBackedBuffer.mk
      (FileBackedBuffer.length b + len (List.concat chunks))
      (mkFile (content (FileBackedBuffer.fp b) ++ List.concat chunks)
         (List.length (content (FileBackedBuffer.fp b))
          + List.length (List.concat chunks)))
      (FileBackedBuffer._min_chunk b) (FileBackedBuffer._max_chunk b).
Proof.
  revert b. induction chunks as [|c chunks IH]; intros b He.
  - cbn [write_all fold_left List.concat len List.length Z.of_nat].
    rewrite Z.add_0_r, app_nil_r, Nat.add_0_r.
    unfold at_end in He. destruct b as [n [c p] lo hi].
    cbn [FileBackedBuffer.fp content pos] in *. subst p. reflexivity.
  - cbn [write_all fold_left List.concat].
    rewrite (write_at_end b c He). cbn [fst].
    change (fold_left (fun b0 c0 => fst (FileBackedBuffer.write b0 c0))
              chunks ?x) with (write_all x chunks).
    rewrite IH by (unfold at_end; cbn; rewrite length_app; reflexivity).
    cbn [FileBackedBuffer.fp FileBackedBuffer.length content pos
         FileBackedBuffer._min_chunk FileBackedBuffer._max_chunk].
    rewrite len_app, !length_app, <- app_assoc, Z.add_assoc, Nat.add_assoc.
    reflexivity.
Qed.

(** X4. [readall] returns everything the buffer holds, wherever the file
    position is, and leaves the buffer exactly as it found it. *)
Theorem readall_is_pure (b : FileBackedBuffer.t) :
  FileBackedBuffer.readall b = (content (FileBackedBuffer.fp b), b).
Proof.
  destruct b as [n [c p] lo hi]. reflexivity.
Qed.

(** X5. Writes to a new temporary buffer accumulate: after any sequence
    of [write] calls the buffer holds the chunks joined, [len] is their
    total size, and the buffer is the one a single [from_data] of the
    joined chunks builds. *)
Theorem writes_accumulate (chunks : list bytes) :
  content (FileBackedBuffer.fp (write_all FileBackedBuffer.from_temp chunks))
  = List.concat chunks
  /\ FileBackedBuffer.__len__ (write_all FileBackedBuffer.from_temp chunks)
     = Ok (len (List.concat chunks))
  /\ write_all FileBackedBuffer.from_temp chunks
     = FileBackedBuffer.from_data (List.concat chunks).
Proof.
  rewrite (write_all_at_end chunks FileBackedBuffer.from_temp eq_refl).
  unfold FileBackedBuffer.from_data.
  rewrite (write_at_end FileBackedBuffer.from_temp (List.concat chunks)
             eq_refl).
  cbn [fst FileBackedBuffer.fp content FileBackedBuffer.length
       FileBackedBuffer.from_temp FileBackedBuffer.__init__ app
       FileBackedBuffer._min_chunk FileBackedBuffer._max_chunk].
  split; [reflexivity|]. split; [|reflexivity].
  unfold FileBackedBuffer.__len__. cbn [FileBackedBuffer.length].
  pose proof (len_nonneg (List.concat chunks)).
  destruct (Z.ltb_spec (0 + len (List.concat chunks)) 0); [lia|].
  reflexivity.
Qed.

(** X6. [len] counts the bytes written, not the size of the file: after
    [seek(0)] a write of [k] bytes over a buffer that holds [n >= k] bytes
    replaces its first [k] bytes, leaves it [n] bytes long, and makes
    [len] report [n + k]. *)
Theorem overwrite_is_counted_twice (raw x : bytes) :
  (List.length x <= List.length raw)%nat ->
  let b := fst (FileBackedBuffer.write
                  (FileBackedBuffer.seek (FileBackedBuffer.from_data raw) 0)
                  x) in
  content (FileBackedBuffer.fp b) = x ++ skipn (List.length x) raw
  /\ len (content (FileBackedBuffer.fp b)) = len raw
  /\ FileBackedBuffer.length b = len raw + len x.
Proof.
  intros Hle b. subst b. unfold FileBackedBuffer.from_data.
  rewrite (write_at_end FileBackedBuffer.from_temp raw eq_refl).
  cbn [fst FileBackedBuffer.seek FileBackedBuffer.fp file_seek content
       FileBackedBuffer.length FileBackedBuffer.from_temp
       FileBackedBuffer.__init__ app FileBackedBuffer._min_chunk
       FileBackedBuffer._max_chunk].
  destruct x as [|y x].
  - rewrite buffer_write_nil.
    unfold FileBackedBuffer.seek, file_seek.
    cbn [fst FileBackedBuffer.fp content FileBackedBuffer.length
         List.length skipn app].
    unfold len. cbn [List.length]. repeat split; lia.
  - unfold FileBackedBuffer.write, FileBackedBuffer.seek, file_seek,
      file_write.
    cbn [FileBackedBuffer.fp FileBackedBuffer.length content pos fst
         firstn Nat.sub repeat app Nat.add].
    split; [reflexivity|]. split; [|reflexivity].
    unfold len. cbn [List.length] in *.
    rewrite length_app, length_skipn. cbn [List.length]. lia.
Qed.

Lemma overwrite_is_counted_twice_witness :
  (List.length [x41] <= List.length [x01; x02; x03])%nat
  /\ content (FileBackedBuffer.fp
                (fst (FileBackedBuffer.write
                        (FileBackedBuffer.seek
                           (FileBackedBuffer.from_data [x01; x02; x03]) 0)
                        [x41])))
     = [x41; x02; x03]
  /\ FileBackedBuffer.length
       (fst (FileBackedBuffer.write
               (FileBackedBuffer.seek
                  (FileBackedBuffer.from_data [x01; x02; x03]) 0)
               [x41]))
     = 4.
Proof.
  assert (H : (List.length [x41] <= List.length [x01; x02; x03])%nat)
    by (cbn; lia).
  split; [exact H|].
  destruct (overwrite_is_counted_twice [x01; x02; x03] [x41] H)
    as (Hc & _ & Hl).
  split; [exact Hc | exact Hl].
Defined.

(** X7. [from_data] given bytes, [from_buffer] given an [io.BytesIO] and
    [from_dict], when it returns, build a buffer whose recorded length is
    the size of what the file holds and whose chunk size lies between
    4096 and 1048576, so that it can be sent as a payload: [from_data]
    holds the given bytes, [from_buffer] the [io.BytesIO] itself, its
    position included, and [from_dict] the encoded value. *)
Theorem constructors_build_consistent_buffers {serde : Serde} :
  (forall raw,
      content (FileBackedBuffer.fp (FileBackedBuffer.from_data raw)) = raw
      /\ FileBackedBuffer.length (FileBackedBuffer.from_data raw) = len raw
      /\ FileBackedBuffer.__len__ (FileBackedBuffer.from_data raw)
         = Ok (len raw)
      /\ 4096 <= FileBackedBuffer.chunksize (FileBackedBuffer.from_data raw)
         <= 1048576)
  /\ (forall f b,
         FileBackedBuffer.from_buffer (BytesIO f) = inl b ->
         FileBackedBuffer.fp b = f
         /\ FileBackedBuffer.length b = len (content f)
         /\ FileBackedBuffer.__len__ b = Ok (len (content f))
         /\ 4096 <= FileBackedBuffer.chunksize b <= 1048576)
  /\ (forall v b,
         FileBackedBuffer.from_dict v = inl b ->
         exists d,
           dumps v = Ok d
           /\ content (FileBackedBuffer.fp b) = d
           /\ FileBackedBuffer.length b = len d
           /\ FileBackedBuffer.__len__ b = Ok (len d)
           /\ 4096 <= FileBackedBuffer.chunksize b <= 1048576).
Proof.
  assert (Hcs : forall fp n,
             4096 <= FileBackedBuffer.chunksize
                       (FileBackedBuffer.mk n fp (2 ^ 12) (2 ^ 20))
             <= 1048576).
  { intros fp n. unfold FileBackedBuffer.chunksize.
    cbn [FileBackedBuffer.length FileBackedBuffer._min_chunk
         FileBackedBuffer._max_chunk].
    change (2 ^ 12) with 4096. change (2 ^ 20) with 1048576. lia. }
  assert (Hlen : forall fp n,
             0 <= n ->
             FileBackedBuffer.__len__
               (FileBackedBuffer.mk n fp (2 ^ 12) (2 ^ 20)) = Ok n).
  { intros fp n Hn. unfold FileBackedBuffer.__len__.
    cbn [FileBackedBuffer.length].
    destruct (Z.ltb_spec n 0); [lia | reflexivity]. }
  assert (Hdata : forall raw,
             content (FileBackedBuffer.fp (FileBackedBuffer.from_data raw))
             = raw
             /\ FileBackedBuffer.length (FileBackedBuffer.from_data raw)
                = len raw
             /\ FileBackedBuffer.__len__ (FileBackedBuffer.from_data raw)
                = Ok (len raw)
             /\ 4096 <= FileBackedBuffer.chunksize
                          (FileBackedBuffer.from_data raw) <= 1048576).
  { intros raw. unfold FileBackedBuffer.from_data.
    rewrite (write_at_end FileBackedBuffer.from_temp raw eq_refl).
    cbn [fst FileBackedBuffer.fp content FileBackedBuffer.length
         FileBackedBuffer.from_temp FileBackedBuffer.__init__ app
         FileBackedBuffer._min_chunk FileBackedBuffer._max_chunk].
    split; [reflexivity|]. split; [reflexivity|]. split; [|apply Hcs].
    rewrite Hlen by (pose proof (len_nonneg raw); lia).
    reflexivity. }
  split; [exact Hdata|]. split.
  - intros f b. cbn [FileBackedBuffer.from_buffer]. intros [= <-].
    unfold FileBackedBuffer.__init__.
    split; [reflexivity|]. split; [reflexivity|]. split; [|apply Hcs].
    apply Hlen, len_nonneg.
  - intros v b. unfold FileBackedBuffer.from_dict.
    destruct (dumps v) as [d|e]; [|discriminate].
    intros [= <-]. exists d. split; [reflexivity|].
    exact (Hdata d).
Qed.

Lemma constructors_build_consistent_buffers_witness :
  (FileBackedBuffer.from_buffer (BytesIO (mkFile [x01; x02] 1))
   = inl (FileBackedBuffer.mk 2 (mkFile [x01; x02] 1) (2 ^ 12) (2 ^ 20))
   /\ FileBackedBuffer.from_dict (serde := FlatJson.serde) FlatJson.ping
      = inl (FileBackedBuffer.from_data (skipn 26 ping_bytes)))
  /\ (FileBackedBuffer.fp
        (FileBackedBuffer.mk 2 (mkFile [x01; x02] 1) (2 ^ 12) (2 ^ 20))
      = mkFile [x01; x02] 1
      /\ FileBackedBuffer.length
           (FileBackedBuffer.mk 2 (mkFile [x01; x02] 1) (2 ^ 12) (2 ^ 20))
         = len (content (mkFile [x01; x02] 1))
      /\ FileBackedBuffer.__len__
           (FileBackedBuffer.mk 2 (mkFile [x01; x02] 1) (2 ^ 12) (2 ^ 20))
         = Ok (len (content (mkFile [x01; x02] 1)))
      /\ 4096 <= FileBackedBuffer.chunksize
                   (FileBackedBuffer.mk 2 (mkFile [x01; x02] 1) (2 ^ 12)
                      (2 ^ 20)) <= 1048576)
  /\ exists d,
      dumps (Serde := FlatJson.serde) FlatJson.ping = Ok d
      /\ content (FileBackedBuffer.fp
                    (FileBackedBuffer.from_data (skipn 26 ping_bytes))) = d
      /\ FileBackedBuffer.length
           (FileBackedBuffer.from_data (skipn 26 ping_bytes)) = len d
      /\ FileBackedBuffer.__len__
           (FileBackedBuffer.from_data (skipn 26 ping_bytes)) = Ok (len d)
      /\ 4096 <= FileBackedBuffer.chunksize
                   (FileBackedBuffer.from_data (skipn 26 ping_bytes))
         <= 1048576.
Proof.
  assert (H1 : FileBackedBuffer.from_buffer (BytesIO (mkFile [x01; x02] 1))
               = inl (FileBackedBuffer.mk 2 (mkFile [x01; x02] 1) (2 ^ 12)
                        (2 ^ 20))) by reflexivity.
  assert (H2 : FileBackedBuffer.from_dict (serde := FlatJson.serde)
                 FlatJson.ping
               = inl (FileBackedBuffer.from_data (skipn 26 ping_bytes)))
    by reflexivity.
  split; [exact (conj H1 H2)|].
  destruct (constructors_build_consistent_buffers (serde := FlatJson.serde))
    as (_ & Hbuf & Hdict).
  split.
  - exact (Hbuf _ _ H1).
  - exact (Hdict _ _ H2).
Defined.

(** ** What the generator yields *)

Lemma iter_dual {serde : Serde} (m : FramedMessage.t)
  (p : FileBackedBuffer.t) (w : World) :
  FramedMessage.payload m = Some p ->
  FileBackedBuffer.truth p = Ok true ->
  FramedMessage.__iter__ m w
  = match dumps (FramedMessage.header m) with
    | Raise e => FramedMessage.stop e [] m w
    | Ok hb =>
        let (f1, w1) := Frame.wrap (len hb) Frame.Types.HEADER
                          (Some (FramedMessage.msg_id m)) w in
        match Frame.serialize f1 with
        | Raise e => FramedMessage.stop e [] m w1
        | Ok fb1 =>
            let (f2, w2) := Frame.wrap (FileBackedBuffer.length p)
                              Frame.Types.PAYLOAD
                              (Some (FramedMessage.msg_id m)) w1 in
            match Frame.serialize f2 with
            | Raise e => FramedMessage.stop e [fb1; hb] m w2
            | Ok fb2 =>
                match FramedMessage.read_chunks
                        (S (List.length (content (FileBackedBuffer.fp p))))
                        (FileBackedBuffer.seek p 0)
                        (FileBackedBuffer.chunksize p) with
                | None => None
                | Some (body, p') =>
                    Some (FramedMessage.mkProduced
                            (fb1 :: hb :: fb2 :: body) None
                            (FramedMessage.mk (FramedMessage.msg_id m)
                               (FramedMessage.header m) (Some p')) w2)
                end
            end
        end
    end.
Proof.
  intros Hp Ht. unfold FramedMessage.__iter__, FramedMessage.has_payload.
  rewrite Hp, Ht.
  destruct (dumps (FramedMessage.header m)) as [hb|]; [|reflexivity].
  destruct (Frame.wrap _ _ _ w) as [f1 w1].
  destruct (Frame.serialize f1) as [fb1|]; [|reflexivity].
  cbn [negb].
  assert (Hlen : FileBackedBuffer.__len__ p
                 = Ok (FileBackedBuffer.length p)).
  { unfold FileBackedBuffer.truth in Ht.
    unfold FileBackedBuffer.__len__ in *.
    destruct (FileBackedBuffer.length p <? 0); [discriminate|reflexivity]. }
  rewrite Hlen.
  destruct (Frame.wrap _ _ _ w1) as [f2 w2].
  destruct (Frame.serialize f2) as [fb2|]; [|reflexivity].
  reflexivity.
Qed.

Lemma truth_of_positive (p : FileBackedBuffer.t) :
  0 < FileBackedBuffer.length p -> FileBackedBuffer.truth p = Ok true.
Proof.
  intros H. unfold FileBackedBuffer.truth, FileBackedBuffer.__len__.
  destruct (Z.ltb_spec (FileBackedBuffer.length p) 0); [lia|].
  cbn [bind]. destruct (Z.eqb_spec (FileBackedBuffer.length p) 0);
    [lia | reflexivity].
Qed.

(** The reads of the payload loop: no chunk is empty, none exceeds the
    size asked for, and the position moves by what was read. *)
Lemma read_chunks_bounded (fuel : nat) (p p' : FileBackedBuffer.t)
  (size : Z) (cs : list bytes) :
  0 < size ->
  FramedMessage.read_chunks fuel p size = Some (cs, p') ->
  Forall (fun c => 0 < len c <= size) cs
  /\ content (FileBackedBuffer.fp p') = content (FileBackedBuffer.fp p)
  /\ pos (FileBackedBuffer.fp p')
     = (pos (FileBackedBuffer.fp p) + List.length (List.concat cs))%nat.
Proof.
  intros Hs. revert p cs.
  induction fuel as [|fuel IH]; intros p cs; [discriminate|].
  cbn [FramedMessage.read_chunks].
  unfold FileBackedBuffer.read, file_read.
  destruct (Z.ltb_spec size 0); [lia|].
  set (chunk := firstn (Z.to_nat size)
                  (skipn (pos (FileBackedBuffer.fp p))
                     (content (FileBackedBuffer.fp p)))).
  assert (Hc : len chunk <= size).
  { unfold len, chunk. rewrite length_firstn. lia. }
  destruct chunk as [|x chunk'] eqn:Ec.
  - cbn [is_empty]. intros [= <- <-].
    cbn [FileBackedBuffer.fp content pos List.concat List.length].
    split; [constructor|]. split; [reflexivity | lia].
  - cbn [is_empty].
    match goal with |- context [FramedMessage.read_chunks fuel ?q size] =>
      destruct (FramedMessage.read_chunks fuel q size) as [[cs' p'']|] eqn:Er
    end; [|discriminate].
    intros [= <- <-].
    apply IH in Er as (Hall & Hcont & Hpos).
    cbn [FileBackedBuffer.fp content pos] in Hcont, Hpos.
    split; [|split].
    + constructor; [|exact Hall].
      split; [unfold len; cbn [List.length]; lia | exact Hc].
    + exact Hcont.
    + rewrite Hpos. cbn [List.concat]. rewrite length_app. lia.
Qed.

(** X8. A message with a non-empty payload whose chunk size is positive
    yields, when nothing raises, the HEADER frame, the header bytes, the
    PAYLOAD frame and then the payload from its start in chunks: none
    empty, none longer than the chunk size, together the whole contents;
    the payload is left read to its end. *)
Theorem payload_is_yielded_in_chunks {serde : Serde}
  (m : FramedMessage.t) (p : FileBackedBuffer.t) (w : World)
  (r : FramedMessage.produced) :
  FramedMessage.payload m = Some p ->
  0 < FileBackedBuffer.length p ->
  0 < FileBackedBuffer.chunksize p ->
  FramedMessage.__iter__ m w = Some r ->
  FramedMessage.raised r = None ->
  exists b1 hb b2 body p',
    FramedMessage.chunks r = b1 :: hb :: b2 :: body
    /\ List.length b1 = Frame.fmt_size
    /\ List.length b2 = Frame.fmt_size
    /\ Forall (fun c => 0 < len c <= FileBackedBuffer.chunksize p) body
    /\ List.concat body = content (FileBackedBuffer.fp p)
    /\ FramedMessage.payload (FramedMessage.self_after r) = Some p'
    /\ content (FileBackedBuffer.fp p') = content (FileBackedBuffer.fp p)
    /\ at_end p'.
Proof.
  intros Hp Hpos Hcs Hit Hr.
  rewrite (iter_dual m p w Hp (truth_of_positive p Hpos)) in Hit.
  unfold FramedMessage.stop in Hit.
  destruct (dumps (FramedMessage.header m)) as [hb|];
    [|injection Hit as <-; discriminate].
  destruct (Frame.wrap _ _ _ w) as [f1 w1].
  destruct (Frame.serialize f1) as [fb1|] eqn:E1;
    [|injection Hit as <-; discriminate].
  destruct (Frame.wrap _ _ _ w1) as [f2 w2].
  destruct (Frame.serialize f2) as [fb2|] eqn:E2;
    [|injection Hit as <-; discriminate].
  apply serialize_returns in E1 as [_ ->].
  apply serialize_returns in E2 as [_ ->].
  destruct (FramedMessage.read_chunks _ _ _) as [[body p']|] eqn:Er;
    [|discriminate].
  injection Hit as <-.
  destruct (read_chunks_returns _ _ (FileBackedBuffer.chunksize p)
              (Nat.lt_succ_diag_r _ : (_ - pos (FileBackedBuffer.fp
                 (FileBackedBuffer.seek p 0)) < _)%nat))
    as (cs & q' & Hrc & Hcat).
  cbn [FileBackedBuffer.seek FileBackedBuffer.fp file_seek content pos]
    in Hrc, Hcat.
  change (FileBackedBuffer.mk (FileBackedBuffer.length p)
            (mkFile (content (FileBackedBuffer.fp p)) 0)
            (FileBackedBuffer._min_chunk p) (FileBackedBuffer._max_chunk p))
    with (FileBackedBuffer.seek p 0) in Hrc.
  rewrite Nat.sub_0_r in Hrc. rewrite Hrc in Er. injection Er as <- <-.
  specialize (Hcat ltac:(lia)). cbn [skipn] in Hcat.
  destruct (read_chunks_bounded _ _ _ _ _ Hcs Hrc) as (Hall & Hcont & Hp').
  cbn [FileBackedBuffer.seek FileBackedBuffer.fp file_seek content pos]
    in Hcont, Hp'.
  exists (frame_layout f1), hb, (frame_layout f2), cs, q'.
  cbn [FramedMessage.chunks FramedMessage.self_after FramedMessage.payload].
  repeat split; try reflexivity; try assumption.
  unfold at_end. rewrite Hp', Hcont, Hcat. reflexivity.
Qed.

Lemma payload_is_yielded_in_chunks_witness :
  (FramedMessage.payload work_message = Some work_payload
   /\ 0 < FileBackedBuffer.length work_payload
   /\ 0 < FileBackedBuffer.chunksize work_payload
   /\ FramedMessage.__iter__ (serde := FlatJson.serde) work_message
        zero_world = Some work_produced
   /\ FramedMessage.raised work_produced = None)
  /\ exists b1 hb b2 body p',
      FramedMessage.chunks work_produced = b1 :: hb :: b2 :: body
      /\ List.length b1 = Frame.fmt_size
      /\ List.length b2 = Frame.fmt_size
      /\ Forall (fun c => 0 < len c <= FileBackedBuffer.chunksize
                                         work_payload) body
      /\ List.concat body = content (FileBackedBuffer.fp work_payload)
      /\ FramedMessage.payload (FramedMessage.self_after work_produced)
         = Some p'
      /\ content (FileBackedBuffer.fp p')
         = content (FileBackedBuffer.fp work_payload)
      /\ at_end p'.
Proof.
  assert (H1 : FramedMessage.payload work_message = Some work_payload)
    by reflexivity.
  assert (H2 : 0 < FileBackedBuffer.length work_payload) by (cbn; lia).
  assert (H3 : 0 < FileBackedBuffer.chunksize work_payload) by (cbn; lia).
  assert (H4 : FramedMessage.__iter__ (serde := FlatJson.serde)
                 work_message zero_world = Some work_produced)
    by reflexivity.
  assert (H5 : FramedMessage.raised work_produced = None) by reflexivity.
  split; [repeat split; assumption|].
  exact (payload_is_yielded_in_chunks (serde := FlatJson.serde)
           work_message work_payload zero_world work_produced
           H1 H2 H3 H4 H5).
Defined.

(** X9. A payload whose length does not fit the 32-bit length field,
    but fits [len()] on a 64-bit CPython, stops the generator midway: it
    yields the HEADER frame and the header bytes, then raises
    [struct.error] when it packs the PAYLOAD frame; no PAYLOAD frame and
    no payload byte is yielded, and [serialize] raises the same error. *)
Theorem oversize_payload_stops_after_header {serde : Serde}
  (m : FramedMessage.t) (p : FileBackedBuffer.t) (w : World) (hb : bytes) :
  FramedMessage.payload m = Some p ->
  2 ^ 32 <= FileBackedBuffer.length p <= maxsize ->
  dumps (FramedMessage.header m) = Ok hb ->
  len hb < 2 ^ 32 ->
  exists r f,
    FramedMessage.__iter__ m w = Some r
    /\ FramedMessage.chunks r = [frame_layout f; hb]
    /\ Frame.type_ f = Frame.Types.HEADER
    /\ Frame.length f = len hb
    /\ FramedMessage.raised r = Some StructError
    /\ exists m' w',
        FramedMessage.serialize m w = Some (Raise StructError, m', w').
Proof.
  intros Hp [Hbig _] Hd Hlen.
  assert (Hit : exists r f,
             FramedMessage.__iter__ m w = Some r
             /\ FramedMessage.chunks r = [frame_layout f; hb]
             /\ Frame.type_ f = Frame.Types.HEADER
             /\ Frame.length f = len hb
             /\ FramedMessage.raised r = Some StructError).
  { rewrite (iter_dual m p w Hp (truth_of_positive p ltac:(lia))), Hd.
    pose proof (wrap_packable (len hb) Frame.Types.HEADER
                  (Some (FramedMessage.msg_id m)) w
                  (conj (len_nonneg hb) Hlen) eq_refl) as Hpk1.
    destruct (Frame.wrap _ _ _ w) as [f1 w1] eqn:Ew1. cbn [fst] in Hpk1.
    rewrite (serialize_packable f1 Hpk1).
    symmetry in Ew1. apply wrap_fields in Ew1 as [Hty Hl].
    destruct (Frame.wrap _ _ _ w1) as [f2 w2] eqn:Ew2.
    assert (Hs2 : Frame.serialize f2 = Raise StructError).
    { unfold Frame.wrap in Ew2.
      destruct (if FramedMessage.msg_id m =? 0 then uuid4 w1
                else (FramedMessage.msg_id m, w1)) as [i w3].
      injection Ew2 as <- _.
      unfold Frame.serialize, Struct.pack_I, Struct.pack_uint.
      cbn [Frame.type_ Frame.version Frame.id_ Frame.length Frame.msg_id].
      destruct (split_uuid i) as [hi lo].
      change (2 ^ (8 * Z.of_nat 4)) with (2 ^ 32).
      destruct ((0 <=? FileBackedBuffer.length p)
                && (FileBackedBuffer.length p <? 2 ^ 32)) eqn:El.
      - apply range_check in El. lia.
      - reflexivity. }
    rewrite Hs2. unfold FramedMessage.stop.
    eexists _, f1. split; [reflexivity|].
    cbn [FramedMessage.chunks FramedMessage.raised]. auto. }
  destruct Hit as (r & f & Hit & Hc & Hty & Hl & Hr).
  exists r, f. repeat split; try assumption.
  unfold FramedMessage.serialize. rewrite Hit, Hr. eauto.
Qed.

Lemma oversize_payload_stops_after_header_witness :
  (FramedMessage.payload oversize_message
   = Some (FileBackedBuffer.__init__ (mkFile [x01] 0) (2 ^ 32))
   /\ 2 ^ 32 <= FileBackedBuffer.length
                  (FileBackedBuffer.__init__ (mkFile [x01] 0) (2 ^ 32))
      <= maxsize
   /\ FlatJson.dumps (FramedMessage.header oversize_message)
      = Ok (firstn 16 (skipn 26 work_bytes))
   /\ len (firstn 16 (skipn 26 work_bytes)) < 2 ^ 32)
  /\ exists r f,
      FramedMessage.__iter__ (serde := FlatJson.serde) oversize_message
        zero_world = Some r
      /\ FramedMessage.chunks r
         = [frame_layout f; firstn 16 (skipn 26 work_bytes)]
      /\ Frame.type_ f = Frame.Types.HEADER
      /\ Frame.length f = len (firstn 16 (skipn 26 work_bytes))
      /\ FramedMessage.raised r = Some StructError
      /\ exists m' w',
          FramedMessage.serialize (serde := FlatJson.serde)
            oversize_message zero_world
          = Some (Raise StructError, m', w').
Proof.
  assert (H1 : FramedMessage.payload oversize_message
               = Some (FileBackedBuffer.__init__ (mkFile [x01] 0) (2 ^ 32)))
    by reflexivity.
  assert (H2 : 2 ^ 32 <= FileBackedBuffer.length
                           (FileBackedBuffer.__init__ (mkFile [x01] 0)
                              (2 ^ 32)) <= maxsize)
    by (unfold maxsize; cbn; lia).
  assert (H3 : FlatJson.dumps (FramedMessage.header oversize_message)
               = Ok (firstn 16 (skipn 26 work_bytes))) by reflexivity.
  assert (H4 : len (firstn 16 (skipn 26 work_bytes)) < 2 ^ 32)
    by (cbn; lia).
  split; [exact (conj H1 (conj H2 (conj H3 H4)))|].
  exact (oversize_payload_stops_after_header (serde := FlatJson.serde)
           oversize_message _ zero_world _ H1 H2 H3 H4).
Defined.

(** ** The queue of completed messages *)

Section Queue.

Context {serde : Serde}.

Import FramedBuffer.

Lemma finish_q_prepend (pre : list FramedMessage.t) (s : t) :
  finish (q_prepend pre s) = outcome_map (q_prepend pre) (finish s).
Proof.
  destruct s as [q0 h fb b cf n].
  unfold finish, load_bb, q_prepend.
  cbn [q header framebuffer bb current_frame to_read].
  destruct cf as [frame|]; [|reflexivity].
  destruct (FileBackedBuffer.read (FileBackedBuffer.seek b 0) (-1))
    as [d b'].
  destruct (Frame.type_ frame =? Frame.Types.HEADER).
  { destruct (load d); reflexivity. }
  destruct (Frame.type_ frame =? Frame.Types.PAYLOAD).
  { cbn. rewrite app_assoc. reflexivity. }
  destruct (Frame.type_ frame =? Frame.Types.COMMAND); [|reflexivity].
  destruct (load d); cbn; [rewrite app_assoc|]; reflexivity.
Qed.

Lemma consume_step_q_prepend (pre : list FramedMessage.t) (s : t)
  (data : bytes) :
  consume_step (q_prepend pre s) data
  = outcome_map (q_prepend pre) (consume_step s data).
Proof.
  unfold consume_step.
  change (to_read (q_prepend pre s)) with (to_read s).
  change (bb (q_prepend pre s)) with (bb s).
  destruct (FileBackedBuffer.write (bb s) (slice_to data (to_read s)))
    as [b written].
  change (set_to_read (set_bb (q_prepend pre s) b) (to_read s - written))
    with (q_prepend pre (set_to_read (set_bb s b) (to_read s - written))).
  change (to_read (q_prepend pre ?x)) with (to_read x).
  destruct (to_read (set_to_read (set_bb s b) (to_read s - written)) =? 0).
  - apply finish_q_prepend.
  - reflexivity.
Qed.

Lemma handle_frame_fuel_q_prepend (fuel : nat)
  (pre : list FramedMessage.t) (s : t) (data : bytes) :
  handle_frame_fuel fuel (q_prepend pre s) data
  = outcome_map (q_prepend pre) (handle_frame_fuel fuel s data).
Proof.
  revert s data. induction fuel as [|fuel IH]; intros s data;
    [reflexivity|].
  rewrite !handle_frame_fuel_S. cbv zeta.
  change (framebuffer (set_framebuffer (q_prepend pre s)
                         (framebuffer (q_prepend pre s) ++ data)))
    with (framebuffer s ++ data).
  change (framebuffer (set_framebuffer s (framebuffer s ++ data)))
    with (framebuffer s ++ data).
  destruct (Frame.from_data (framebuffer s ++ data)) as [[frame rest]|e].
  - destruct (negb (Frame.Types.mem (Frame.type_ frame))); [reflexivity|].
    rewrite !consume_with_step.
    match goal with
    | |- context [consume_step ?a rest] =>
        match goal with
        | |- context [outcome_map _ (match consume_step ?b rest with _ => _ end)] =>
            change a with (q_prepend pre b)
        end
    end.
    rewrite consume_step_q_prepend.
    match goal with |- context [consume_step ?b rest] =>
      destruct (consume_step b rest) as [s1| |]
    end; cbn [outcome_map]; try reflexivity.
    cbn [to_read set_to_read q_prepend].
    destruct (is_empty _); [reflexivity|].
    apply IH.
  - destruct e; reflexivity.
Qed.

Lemma put_q_prepend (pre : list FramedMessage.t) (s : t) (data : bytes) :
  put (q_prepend pre s) data = outcome_map (q_prepend pre) (put s data).
Proof.
  unfold put. change (to_read (q_prepend pre s)) with (to_read s).
  destruct (to_read s =? 0).
  - apply handle_frame_fuel_q_prepend.
  - unfold consume. rewrite !consume_with_step.
    rewrite consume_step_q_prepend.
    change (fuel_for (q_prepend pre s) data) with (fuel_for s data).
    destruct (consume_step s data) as [s1| |]; cbn [outcome_map];
      try reflexivity.
    change (to_read (q_prepend pre s)) with (to_read s).
    destruct (is_empty _); [reflexivity|].
    apply handle_frame_fuel_q_prepend.
Qed.

End Queue.

(** X10. [put] only ever appends to the queue of completed messages:
    whether it returns or raises, the messages that were on the queue are
    still there, in the same order, ahead of any new one. *)
Theorem put_only_appends {serde : Serde}
  (s s' : FramedBuffer.t) (data : bytes) :
  state_of (FramedBuffer.put s data) = Some s' ->
  exists new, FramedBuffer.q s' = FramedBuffer.q s ++ new.
Proof.
  intros H.
  set (s0 := FramedBuffer.mk [] (FramedBuffer.header s)
               (FramedBuffer.framebuffer s) (FramedBuffer.bb s)
               (FramedBuffer.current_frame s) (FramedBuffer.to_read s)).
  assert (Hs : s = q_prepend (FramedBuffer.q s) s0).
  { destruct s. unfold q_prepend, s0. cbn. rewrite app_nil_r. reflexivity. }
  rewrite Hs, put_q_prepend in H.
  destruct (FramedBuffer.put s0 data) as [s1|e s1|];
    cbn [outcome_map state_of] in H; try discriminate;
    injection H as <-; exists (FramedBuffer.q s1); reflexivity.
Qed.

Lemma put_only_appends_witness :
  state_of (FramedBuffer.put (serde := FlatJson.serde)
              (q_prepend [pong_message] FramedBuffer.__init__) ping_bytes)
  = Some (q_prepend [pong_message; ping_message]
            (FramedBuffer.set_current_frame FramedBuffer.__init__
               (Some (Frame.mk Frame.Types.COMMAND 1 16 7 1))))
  /\ exists new,
      FramedBuffer.q
        (q_prepend [pong_message; ping_message]
           (FramedBuffer.set_current_frame FramedBuffer.__init__
              (Some (Frame.mk Frame.Types.COMMAND 1 16 7 1))))
      = FramedBuffer.q (q_prepend [pong_message] FramedBuffer.__init__)
        ++ new.
Proof.
  assert (H : state_of (FramedBuffer.put (serde := FlatJson.serde)
                          (q_prepend [pong_message] FramedBuffer.__init__)
                          ping_bytes)
              = Some (q_prepend [pong_message; ping_message]
                        (FramedBuffer.set_current_frame
                           FramedBuffer.__init__
                           (Some (Frame.mk Frame.Types.COMMAND 1 16 7 1)))))
    by reflexivity.
  split; [exact H|].
  exact (put_only_appends (serde := FlatJson.serde) _ _ _ H).
Defined.

(** X11. Taking a completed message off the queue does not disturb
    reassembly: [get_nowait] followed by [put] ends as [put] followed by
    [get_nowait] does, with the same message taken and the same engine
    left, whether [put] returns or raises. *)
Theorem get_nowait_commutes_with_put {serde : Serde}
  (s s1 : FramedBuffer.t) (m : FramedMessage.t) (data : bytes) :
  FramedBuffer.get_nowait s = Ok (m, s1) ->
  (forall s1',
      FramedBuffer.put s1 data = FramedBuffer.Done s1' ->
      exists s',
        FramedBuffer.put s data = FramedBuffer.Done s'
        /\ FramedBuffer.get_nowait s' = Ok (m, s1'))
  /\ (forall e s1',
         FramedBuffer.put s1 data = FramedBuffer.Raised e s1' ->
         exists s',
           FramedBuffer.put s data = FramedBuffer.Raised e s'
           /\ FramedBuffer.get_nowait s' = Ok (m, s1')).
Proof.
  intros Hg.
  assert (Hs : s = q_prepend [m] s1).
  { unfold FramedBuffer.get_nowait in Hg. destruct s as [q0 h fb b cf n].
    cbn [FramedBuffer.q] in Hg. destruct q0 as [|m0 q0]; [discriminate|].
    injection Hg as <- <-. reflexivity. }
  assert (Hget : forall x, FramedBuffer.get_nowait (q_prepend [m] x)
                           = Ok (m, x)).
  { intros [q0 h fb b cf n]. reflexivity. }
  subst s. rewrite put_q_prepend. split.
  - intros s1' H. rewrite H. eexists. split; [reflexivity | apply Hget].
  - intros e s1' H. rewrite H. eexists. split; [reflexivity | apply Hget].
Qed.

Lemma get_nowait_commutes_with_put_witness :
  (FramedBuffer.get_nowait (q_prepend [pong_message] FramedBuffer.__init__)
   = Ok (pong_message, FramedBuffer.__init__)
   /\ FramedBuffer.put (serde := FlatJson.serde) FramedBuffer.__init__
        ping_bytes
      = FramedBuffer.Done
          (q_prepend [ping_message]
             (FramedBuffer.set_current_frame FramedBuffer.__init__
                (Some (Frame.mk Frame.Types.COMMAND 1 16 7 1)))))
  /\ exists s',
      FramedBuffer.put (serde := FlatJson.serde)
        (q_prepend [pong_message] FramedBuffer.__init__) ping_bytes
      = FramedBuffer.Done s'
      /\ FramedBuffer.get_nowait s'
         = Ok (pong_message,
               q_prepend [ping_message]
                 (FramedBuffer.set_current_frame FramedBuffer.__init__
                    (Some (Frame.mk Frame.Types.COMMAND 1 16 7 1)))).
Proof.
  assert (H1 : FramedBuffer.get_nowait
                 (q_prepend [pong_message] FramedBuffer.__init__)
               = Ok (pong_message, FramedBuffer.__init__)) by reflexivity.
  assert (H2 : FramedBuffer.put (serde := FlatJson.serde)
                 FramedBuffer.__init__ ping_bytes
               = FramedBuffer.Done
                   (q_prepend [ping_message]
                      (FramedBuffer.set_current_frame FramedBuffer.__init__
                         (Some (Frame.mk Frame.Types.COMMAND 1 16 7 1)))))
    by reflexivity.
  split; [exact (conj H1 H2)|].
  exact (proj1 (get_nowait_commutes_with_put (serde := FlatJson.serde)
                  _ _ _ ping_bytes H1) _ H2).
Defined.

(** ** What the engine holds between two calls of [put], and what it
    raises *)

Section Pending.

Context {serde : Serde}.

Import FramedBuffer.

Lemma from_data_raises (l : bytes) (e : exn) :
  Frame.from_data l = Raise e -> e = StructError \/ e = ValueError.
Proof.
  intros H.
  destruct (Nat.lt_ge_cases (List.length l) Frame.fmt_size) as [Hs|Hl].
  - rewrite from_data_short in H by exact Hs. injection H as <-. now left.
  - destruct (Frame.Types.mem (Struct.Z_of_byte (hd x00 l))) eqn:Hk.
    + rewrite from_data_known_kind in H by assumption. discriminate.
    + rewrite from_data_unknown_kind in H by assumption.
      injection H as <-. now right.
Qed.

Lemma write_spooled (body data : bytes) :
  FileBackedBuffer.write (spooled body) data
  = (spooled (body ++ data), len data).
Proof.
  destruct data as [|x l].
  { rewrite app_nil_r. unfold FileBackedBuffer.write, file_write, spooled.
    cbn [FileBackedBuffer.fp FileBackedBuffer.length
         FileBackedBuffer._min_chunk FileBackedBuffer._max_chunk].
    rewrite Z.add_0_r. reflexivity. }
  unfold FileBackedBuffer.write, file_write, spooled.
  cbn [FileBackedBuffer.fp FileBackedBuffer.length content pos
       FileBackedBuffer._min_chunk FileBackedBuffer._max_chunk].
  rewrite firstn_all, Nat.sub_diag, skipn_all2 by lia.
  cbn [repeat app]. rewrite app_nil_r.
  unfold len. rewrite !length_app. f_equal. f_equal. lia.
Qed.

Lemma finish_outcome (s : t) :
  match finish s with
  | Done s' =>
      to_read s' = 0 /\ bb s' = FileBackedBuffer.from_temp
      /\ framebuffer s' = framebuffer s
      /\ current_frame s' = current_frame s
  | Raised e s' =>
      to_read s' = to_read s /\ framebuffer s' = framebuffer s
      /\ current_frame s' = current_frame s
      /\ ((current_frame s = None /\ e = AttributeError)
          \/ (exists f, current_frame s = Some f
                        /\ Frame.Types.mem (Frame.type_ f) = false
                        /\ e = UnknownFrameType)
          \/ exists body, load body = Raise e)
  | OutOfFuel => False
  end.
Proof.
  unfold finish, load_bb.
  destruct (current_frame s) as [frame|] eqn:Ecf.
  2:{ repeat split; try assumption. left. split; reflexivity. }
  destruct (FileBackedBuffer.read (FileBackedBuffer.seek (bb s) 0) (-1))
    as [data b].
  destruct (Frame.type_ frame =? Frame.Types.HEADER) eqn:E0.
  { destruct (load data) eqn:El; cbn; repeat split; try assumption.
    right. right. exists data. exact El. }
  destruct (Frame.type_ frame =? Frame.Types.PAYLOAD) eqn:E1.
  { cbn. repeat split; assumption. }
  destruct (Frame.type_ frame =? Frame.Types.COMMAND) eqn:E2.
  { destruct (load data) eqn:El; cbn; repeat split; try assumption.
    right. right. exists data. exact El. }
  cbn. repeat split; try assumption.
  right. left. exists frame. unfold Frame.Types.mem. rewrite E0, E1, E2. repeat split.
Qed.

Lemma consume_step_rest (s s' : t) (data : bytes) :
  0 <= to_read s ->
  consume_step s data = Done s' ->
  is_empty (slice_from data (to_read s)) = false -> to_read s' = 0.
Proof.
  intros Ht. unfold consume_step.
  pose proof (buffer_write_written (bb s) (slice_to data (to_read s)))
    as Hw.
  destruct (FileBackedBuffer.write (bb s) (slice_to data (to_read s)))
    as [b1 w1].
  cbn [snd] in Hw. rewrite slice_to_len in Hw by lia.
  cbn [to_read set_to_read].
  destruct (Z.eqb_spec (to_read s - w1) 0).
  - intros Hf _. apply finish_to_read in Hf. exact Hf.
  - intros _ He. rewrite slice_from_all in He by lia. discriminate.
Qed.

Lemma consume_step_pending (s : t) (data : bytes) :
  0 <= to_read s ->
  (exists f, current_frame s = Some f
             /\ Frame.Types.mem (Frame.type_ f) = true) ->
  match consume_step s data with
  | Done s' => frame_pending s'
  | Raised e s' => (exists body, load body = Raise e) /\ to_read s' = 0
  | OutOfFuel => False
  end.
Proof.
  intros Ht [f [Hcf Hk]]. unfold consume_step.
  pose proof (buffer_write_written (bb s) (slice_to data (to_read s)))
    as Hw.
  destruct (FileBackedBuffer.write (bb s) (slice_to data (to_read s)))
    as [b1 w1].
  cbn [snd] in Hw. rewrite slice_to_len in Hw by lia.
  cbn [to_read set_to_read].
  destruct (Z.eqb_spec (to_read s - w1) 0) as [Hz|Hz].
  - match goal with |- context [finish ?x] =>
      pose proof (finish_outcome x) as Hf; destruct (finish x) as [s1|e s1|]
    end.
    + destruct Hf as [H0 _]. split; [lia|]. intros Hn. contradiction.
    + destruct Hf as [H0 [_ [_ Hc]]].
      cbn [to_read set_to_read current_frame set_bb] in H0, Hc.
      split; [|lia].
      destruct Hc as [[Hc _]|[[f' [Hc [Hk' _]]]|Hc]].
      * congruence.
      * rewrite Hcf in Hc. injection Hc as <-. congruence.
      * exact Hc.
    + exact Hf.
  - split; cbn [to_read set_to_read current_frame set_bb]; [lia|].
    intros _. exists f. split; assumption.
Qed.

Lemma handle_frame_fuel_pending (fuel : nat) (s : t) (data : bytes) :
  to_read s = 0 ->
  match handle_frame_fuel fuel s data with
  | Done s' => frame_pending s'
  | Raised e s' => raised_by_input e /\ to_read s' = 0
  | OutOfFuel => True
  end.
Proof.
  revert s data. induction fuel as [|fuel IH]; intros s data Ht;
    [exact I|].
  rewrite handle_frame_fuel_S. cbv zeta. cbn [framebuffer set_framebuffer].
  destruct (Frame.from_data (framebuffer s ++ data)) as [[frame rest]|e]
    eqn:E.
  - pose proof (from_data_returns _ _ _ E) as [_ [_ Hk]].
    pose proof (from_data_length_range _ _ _ E) as Hr.
    rewrite Hk. cbn [negb]. rewrite consume_with_step.
    match goal with |- context [consume_step ?s0 ?d] =>
      pose proof (consume_step_pending s0 d) as Hp;
      pose proof (consume_step_rest s0) as Hrest;
      destruct (consume_step s0 d) as [s1|e1 s1|] eqn:Es
    end.
    + cbn [to_read set_to_read] in Hp, Hrest |- *.
      destruct (is_empty _) eqn:Ee.
      * apply Hp; [lia|]. exists frame. split; [reflexivity|exact Hk].
      * apply IH. apply (Hrest s1 rest); [lia|exact Es|exact Ee].
    + destruct Hp as [Hl H0].
      * cbn [to_read set_to_read]. lia.
      * exists frame. split; [reflexivity|exact Hk].
      * split; [right; exact Hl | exact H0].
    + exact I.
  - destruct (from_data_raises _ _ E) as [-> | ->].
    + split; cbn [to_read set_framebuffer]; [lia|]. intros Hn. contradiction.
    + split; [left; reflexivity | exact Ht].
Qed.

Lemma put_within_pending (limit : nat) (s : t) (data : bytes) :
  frame_pending s ->
  match put_within limit s data with
  | Done s' => frame_pending s'
  | Raised e s' => raised_by_input e /\ to_read s' = 0
  | OutOfFuel => True
  end.
Proof.
  intros [Ht Hcf]. unfold put_within.
  destruct (Z.eqb_spec (to_read s) 0) as [Hz|Hz].
  - apply handle_frame_fuel_pending. exact Hz.
  - rewrite consume_with_step.
    pose proof (consume_step_pending s data Ht (Hcf Hz)) as Hp.
    pose proof (consume_step_rest s) as Hrest.
    destruct (consume_step s data) as [s1|e1 s1|] eqn:Es.
    + destruct (is_empty _) eqn:Ee; [exact Hp|].
      apply handle_frame_fuel_pending.
      apply (Hrest s1 data); [exact Ht|exact Es|exact Ee].
    + destruct Hp as [Hl H0]. split; [right; exact Hl | exact H0].
    + exact I.
Qed.

Lemma consume_step_spooling (s s' : t) (data : bytes) (f : Frame.t)
  (body : bytes) :
  framebuffer s = [] -> 0 <= to_read s < 2 ^ 32 ->
  current_frame s = Some f -> Frame.Types.mem (Frame.type_ f) = true ->
  bb s = spooled body -> len body + to_read s = Frame.length f ->
  consume_step s data = Done s' -> spooling s'.
Proof.
  intros Hfb Ht Hcf Hk Hbb Hlen. unfold consume_step.
  rewrite Hbb, write_spooled.
  pose proof (slice_to_len data (to_read s) (proj1 Ht)) as Hw.
  cbn [to_read set_to_read].
  destruct (Z.eqb_spec (to_read s - len (slice_to data (to_read s))) 0)
    as [Hz|Hz].
  - intros Hf.
    match type of Hf with finish ?x = _ =>
      pose proof (finish_outcome x) as Ho; rewrite Hf in Ho
    end.
    destruct Ho as [H0 [Hb [Hf' _]]].
    cbn [framebuffer set_to_read set_bb] in Hf'.
    unfold spooling. rewrite H0, Hf', Hfb.
    split; [lia|]. split; [cbn; unfold Frame.fmt_size; lia|].
    split; [intros _; exact Hb|]. intros Hn. contradiction.
  - intros [= <-]. unfold spooling.
    cbn [to_read set_to_read framebuffer bb set_bb current_frame].
    rewrite Hfb. unfold len in Hw, Hz, Hlen |- *.
    split; [lia|]. split; [cbn; unfold Frame.fmt_size; lia|].
    split; [intros H0; contradiction|]. intros _.
    split; [reflexivity|].
    exists f, (body ++ slice_to data (to_read s)).
    split; [exact Hcf|]. split; [exact Hk|]. split; [reflexivity|].
    rewrite length_app. lia.
Qed.

Lemma handle_frame_fuel_spooling (fuel : nat) (s s' : t) (data : bytes) :
  spooling s -> to_read s = 0 ->
  handle_frame_fuel fuel s data = Done s' -> spooling s'.
Proof.
  revert s s' data.
  induction fuel as [|fuel IH]; intros s s' data Hs Ht; [discriminate|].
  destruct Hs as [Hr [Hfb [Hb _]]].
  rewrite handle_frame_fuel_S. cbv zeta. cbn [framebuffer set_framebuffer].
  destruct (Frame.from_data (framebuffer s ++ data)) as [[frame rest]|e]
    eqn:E.
  - pose proof (from_data_returns _ _ _ E) as [_ [_ Hk]].
    pose proof (from_data_length_range _ _ _ E) as Hlr.
    rewrite Hk. cbn [negb]. rewrite consume_with_step.
    match goal with |- context [consume_step ?s0 ?d] =>
      pose proof (fun x => consume_step_spooling s0 x d frame []) as Hp;
      pose proof (consume_step_rest s0) as Hrest;
      destruct (consume_step s0 d) as [s1|e1 s1|] eqn:Es
    end; try discriminate.
    cbn [to_read set_to_read framebuffer set_framebuffer current_frame
         set_current_frame bb] in Hp, Hrest |- *.
    specialize (Hp s1 eq_refl Hlr eq_refl Hk).
    rewrite (Hb Ht) in Hp. specialize (Hp eq_refl).
    assert (Hs1 : spooling s1)
      by (apply Hp; [unfold len; cbn; lia | reflexivity]).
    destruct (is_empty _) eqn:Ee.
    + intros [= <-]. exact Hs1.
    + apply IH; [exact Hs1|].
      apply (Hrest s1 rest); [lia|exact Es|exact Ee].
  - destruct (from_data_raises _ _ E) as [-> | ->]; [|discriminate].
    intros [= <-]. unfold spooling.
    cbn [to_read framebuffer bb set_framebuffer].
    split; [lia|]. split.
    + destruct (Nat.lt_ge_cases (List.length (framebuffer s ++ data))
                  Frame.fmt_size) as [Hshort|Hlong]; [exact Hshort|].
      apply from_data_long in Hlong. contradiction.
    + split; [exact Hb|]. intros Hn. contradiction.
Qed.

Lemma put_spooling (s s' : t) (data : bytes) :
  spooling s -> put s data = Done s' -> spooling s'.
Proof.
  intros Hs. unfold put. destruct (Z.eqb_spec (to_read s) 0) as [Hz|Hz].
  - apply handle_frame_fuel_spooling; assumption.
  - destruct Hs as [Hr [Hfb [_ Hmid]]].
    destruct (Hmid Hz) as [Hnil [f [body [Hcf [Hk [Hbb Hlen]]]]]].
    unfold consume. rewrite consume_with_step.
    pose proof (fun x => consume_step_spooling s x data f body Hnil Hr Hcf
                           Hk Hbb Hlen) as Hp.
    pose proof (consume_step_rest s) as Hrest.
    destruct (consume_step s data) as [s1|e1 s1|] eqn:Es; try discriminate.
    specialize (Hp s1 eq_refl).
    destruct (is_empty _) eqn:Ee.
    + intros [= <-]. exact Hp.
    + apply handle_frame_fuel_spooling; [exact Hp|].
      apply (Hrest s1 data); [lia|exact Es|exact Ee].
Qed.

Lemma spooling_init : spooling __init__.
Proof.
  unfold spooling. cbn. split; [lia|]. split; [unfold Frame.fmt_size; lia|].
  split; [reflexivity|]. intros H. contradiction.
Qed.

Lemma hd_app_long (a b : bytes) :
  (0 < List.length a)%nat -> hd x00 (a ++ b) = hd x00 a.
Proof. destruct a; cbn; [lia | reflexivity]. Qed.

Lemma put_unknown_kind (s : t) (data : bytes) :
  to_read s = 0 ->
  (Frame.fmt_size <= List.length (framebuffer s ++ data))%nat ->
  Frame.Types.mem (Struct.Z_of_byte (hd x00 (framebuffer s ++ data)))
  = false ->
  put s data = Raised ValueError (set_framebuffer s (framebuffer s ++ data)).
Proof.
  intros Ht Hlen Hk. unfold put. rewrite Ht. cbn [Z.eqb].
  rewrite handle_frame_eq. cbv zeta. cbn [framebuffer set_framebuffer].
  rewrite from_data_unknown_kind by assumption. reflexivity.
Qed.

Lemma put_each_unknown_kind (chunks : list bytes) (s : t) :
  to_read s = 0 ->
  (Frame.fmt_size <= List.length (framebuffer s))%nat ->
  Frame.Types.mem (Struct.Z_of_byte (hd x00 (framebuffer s))) = false ->
  put_each s chunks
  = set_framebuffer s (framebuffer s ++ List.concat chunks).
Proof.
  revert s. induction chunks as [|c chunks IH]; intros s Ht Hlen Hk.
  - cbn. rewrite app_nil_r. destruct s. reflexivity.
  - assert (Hpos : (0 < List.length (framebuffer s))%nat)
      by (unfold Frame.fmt_size in Hlen; lia).
    cbn [put_each List.concat].
    rewrite (put_unknown_kind s c Ht);
      [| rewrite length_app; lia | rewrite hd_app_long; assumption].
    rewrite IH.
    + cbn [framebuffer set_framebuffer]. destruct s. cbn.
      rewrite <- app_assoc. reflexivity.
    + exact Ht.
    + cbn [framebuffer set_framebuffer]. rewrite length_app. lia.
    + cbn [framebuffer set_framebuffer]. rewrite hd_app_long; assumption.
Qed.

End Pending.

(** X12. Between two calls of [put] that returned, the engine holds fewer
    bytes than a frame header in [framebuffer]; while body bytes are
    expected, the temporary buffer holds exactly the bytes of the current
    frame's body received so far, and their number and [to_read] add up to
    the frame's announced length; when none are expected the buffer is a
    fresh one.  This holds of a new engine and after every sequence of
    chunks whose calls all returned. *)
Theorem body_received_so_far_is_spooled {serde : Serde}
  (s s' : FramedBuffer.t) (chunks : list bytes) :
  spooling s ->
  FramedBuffer.put_all s chunks = FramedBuffer.Done s' ->
  spooling s'.
Proof.
  revert s. induction chunks as [|c chunks IH]; intros s Hs.
  - cbn [FramedBuffer.put_all]. intros [= <-]. exact Hs.
  - cbn [FramedBuffer.put_all].
    destruct (FramedBuffer.put s c) as [s1| |] eqn:E; try discriminate.
    apply IH. exact (put_spooling s s1 c Hs E).
Qed.

Lemma body_received_so_far_is_spooled_witness :
  (spooling FramedBuffer.__init__
   /\ FramedBuffer.put_all (serde := FlatJson.serde) FramedBuffer.__init__
        [firstn 30 work_bytes]
      = FramedBuffer.Done
          (FramedBuffer.mk [] JNull [] (spooled [x7b; x22; x74; x79])
             (Some (Frame.mk Frame.Types.HEADER 1 16 7 1)) 12))
  /\ spooling
       (FramedBuffer.mk [] JNull [] (spooled [x7b; x22; x74; x79])
          (Some (Frame.mk Frame.Types.HEADER 1 16 7 1)) 12).
Proof.
  assert (H : FramedBuffer.put_all (serde := FlatJson.serde)
                FramedBuffer.__init__ [firstn 30 work_bytes]
              = FramedBuffer.Done
                  (FramedBuffer.mk [] JNull [] (spooled [x7b; x22; x74; x79])
                     (Some (Frame.mk Frame.Types.HEADER 1 16 7 1)) 12))
    by reflexivity.
  split; [exact (conj spooling_init H)|].
  exact (body_received_so_far_is_spooled (serde := FlatJson.serde)
           _ _ _ spooling_init H).
Defined.

(** X13. Whatever bytes are fed to an engine that knows the frame whose
    body it is reading (a new engine does), and whatever the recursion
    limit, [put] ends in one of three ways: it returns; it raises
    [ValueError], for a frame header of unknown kind, or what [json.load]
    raises on a header or command body; or one chunk holds more frames
    than the stack takes and [RecursionError] leaves it.  The
    [AttributeError] of a missing current frame and both
    [Exception("Unknown Frame Type")] are out of reach.  After a
    [ValueError] or a decoding error no body bytes are expected, and the
    engine, like one whose [put] returned, still knows its frame, so the
    same holds of the next call. *)
Theorem put_raises_only_for_input {serde : Serde}
  (limit : nat) (s : FramedBuffer.t) (data : bytes) :
  frame_pending s ->
  (forall s',
      FramedBuffer.put_within limit s data = FramedBuffer.Done s' ->
      frame_pending s')
  /\ (forall e s',
         FramedBuffer.put_within limit s data = FramedBuffer.Raised e s' ->
         raised_by_input e /\ FramedBuffer.to_read s' = 0
         /\ frame_pending s').
Proof.
  intros Hs. pose proof (put_within_pending limit s data Hs) as Hp. split.
  - intros s' E. rewrite E in Hp. exact Hp.
  - intros e s' E. rewrite E in Hp. destruct Hp as [He H0].
    split; [exact He|]. split; [exact H0|].
    split; [lia|]. intros Hn. contradiction.
Qed.

Lemma put_raises_only_for_input_witness :
  (frame_pending FramedBuffer.__init__
   /\ FramedBuffer.put_within (serde := FlatJson.serde) 1
        FramedBuffer.__init__ undecodable_command
      = FramedBuffer.Raised DecodeError
          (FramedBuffer.mk [] JNull [] (spooled [x78])
             (Some (Frame.mk Frame.Types.COMMAND 1 1 7 1)) 0))
  /\ raised_by_input (serde := FlatJson.serde) DecodeError
  /\ FramedBuffer.to_read
       (FramedBuffer.mk [] JNull [] (spooled [x78])
          (Some (Frame.mk Frame.Types.COMMAND 1 1 7 1)) 0) = 0
  /\ frame_pending
       (FramedBuffer.mk [] JNull [] (spooled [x78])
          (Some (Frame.mk Frame.Types.COMMAND 1 1 7 1)) 0).
Proof.
  assert (H0 : frame_pending FramedBuffer.__init__).
  { split; cbn; [lia|]. intros Hn. contradiction. }
  assert (H : FramedBuffer.put_within (serde := FlatJson.serde) 1
                FramedBuffer.__init__ undecodable_command
              = FramedBuffer.Raised DecodeError
                  (FramedBuffer.mk [] JNull [] (spooled [x78])
                     (Some (Frame.mk Frame.Types.COMMAND 1 1 7 1)) 0))
    by reflexivity.
  split; [exact (conj H0 H)|].
  exact (proj2 (put_raises_only_for_input (serde := FlatJson.serde)
                  1 _ undecodable_command H0) _ _ H).
Defined.

(** X14. A frame header of unknown kind is never recovered from: the
    [ValueError] leaves the accumulated bytes in [framebuffer], so a
    caller who catches it and goes on feeding chunks gets [ValueError]
    from every later [put], whatever the bytes; nothing else of the engine
    changes, and [framebuffer] keeps every byte it is given. *)
Theorem unknown_kind_is_never_recovered {serde : Serde}
  (s : FramedBuffer.t) (data : bytes) (later : list bytes) (next : bytes) :
  FramedBuffer.to_read s = 0 ->
  (Frame.fmt_size <= List.length (FramedBuffer.framebuffer s ++ data))%nat ->
  Frame.Types.mem
    (Struct.Z_of_byte (hd x00 (FramedBuffer.framebuffer s ++ data))) = false ->
  put_each s (data :: later)
  = FramedBuffer.set_framebuffer s
      (FramedBuffer.framebuffer s ++ data ++ List.concat later)
  /\ FramedBuffer.put (put_each s (data :: later)) next
     = FramedBuffer.Raised ValueError
         (FramedBuffer.set_framebuffer s
            (FramedBuffer.framebuffer s ++ data ++ List.concat later
             ++ next)).
Proof.
  intros Ht Hlen Hk.
  assert (Hpos : (0 < List.length (FramedBuffer.framebuffer s ++ data))%nat)
    by (unfold Frame.fmt_size in Hlen; lia).
  assert (He : put_each s (data :: later)
               = FramedBuffer.set_framebuffer s
                   (FramedBuffer.framebuffer s ++ data ++ List.concat later)).
  { cbn [put_each]. rewrite (put_unknown_kind s data Ht Hlen Hk).
    rewrite put_each_unknown_kind; try assumption.
    destruct s. cbn. rewrite <- app_assoc. reflexivity. }
  split; [exact He|]. rewrite He.
  rewrite put_unknown_kind.
  - destruct s. cbn. rewrite <- !app_assoc. reflexivity.
  - exact Ht.
  - cbn [FramedBuffer.framebuffer FramedBuffer.set_framebuffer].
    unfold Frame.fmt_size in *. rewrite length_app in Hlen.
    repeat rewrite length_app. lia.
  - cbn [FramedBuffer.framebuffer FramedBuffer.set_framebuffer].
    replace ((FramedBuffer.framebuffer s ++ data ++ List.concat later)
             ++ next)
      with ((FramedBuffer.framebuffer s ++ data)
            ++ List.concat later ++ next)
      by (rewrite <- !app_assoc; reflexivity).
    rewrite hd_app_long; [exact Hk | exact Hpos].
Qed.

Lemma unknown_kind_is_never_recovered_witness :
  (FramedBuffer.to_read FramedBuffer.__init__ = 0
   /\ (Frame.fmt_size
       <= List.length
            (FramedBuffer.framebuffer FramedBuffer.__init__ ++ kind3_header))%nat
   /\ Frame.Types.mem
        (Struct.Z_of_byte
           (hd x00 (FramedBuffer.framebuffer FramedBuffer.__init__
                    ++ kind3_header))) = false)
  /\ put_each (serde := FlatJson.serde) FramedBuffer.__init__
       [kind3_header; ping_bytes]
     = FramedBuffer.set_framebuffer FramedBuffer.__init__
         (FramedBuffer.framebuffer FramedBuffer.__init__
          ++ kind3_header ++ List.concat [ping_bytes])
  /\ FramedBuffer.put (serde := FlatJson.serde)
       (put_each (serde := FlatJson.serde) FramedBuffer.__init__
          [kind3_header; ping_bytes]) pong_bytes
     = FramedBuffer.Raised ValueError
         (FramedBuffer.set_framebuffer FramedBuffer.__init__
            (FramedBuffer.framebuffer FramedBuffer.__init__
             ++ kind3_header ++ List.concat [ping_bytes] ++ pong_bytes)).
Proof.
  assert (H1 : FramedBuffer.to_read FramedBuffer.__init__ = 0)
    by reflexivity.
  assert (H2 : (Frame.fmt_size
                <= List.length
                     (FramedBuffer.framebuffer FramedBuffer.__init__
                      ++ kind3_header))%nat)
    by (vm_compute; lia).
  assert (H3 : Frame.Types.mem
                 (Struct.Z_of_byte
                    (hd x00 (FramedBuffer.framebuffer FramedBuffer.__init__
                             ++ kind3_header))) = false)
    by reflexivity.
  split; [exact (conj H1 (conj H2 H3))|].
  exact (unknown_kind_is_never_recovered (serde := FlatJson.serde)
           FramedBuffer.__init__ kind3_header [ping_bytes] pong_bytes
           H1 H2 H3).
Defined.

(** ** A stream of messages *)

Section Streams.

Context {serde : Serde}.

Import FramedBuffer.

Lemma has_payload_sendable (m : FramedMessage.t) :
  sendable m ->
  (FramedMessage.has_payload m = Ok false
   /\ FramedMessage.payload (as_received m) = None)
  \/ exists p,
      FramedMessage.payload m = Some p
      /\ 0 < FileBackedBuffer.length p < 2 ^ 32
      /\ FileBackedBuffer.length p = len (content (FileBackedBuffer.fp p))
      /\ FileBackedBuffer.chunksize p <> 0
      /\ FramedMessage.payload (as_received m)
         = Some (spooled (content (FileBackedBuffer.fp p))).
Proof.
  intros (_ & _ & Hp).
  unfold FramedMessage.has_payload, as_received.
  destruct (FramedMessage.payload m) as [p|]; [|left; split; reflexivity].
  destruct Hp as (Hr & Hl & Hc).
  cbn [FramedMessage.payload].
  destruct (Z.eqb_spec (FileBackedBuffer.length p) 0) as [Hz|Hz].
  - left. split; [|reflexivity].
    unfold FileBackedBuffer.truth, FileBackedBuffer.__len__.
    rewrite Hz. reflexivity.
  - right. exists p.
    split; [reflexivity|]. split; [lia|]. split; [exact Hl|].
    split; [lia | reflexivity].
Qed.

Lemma serialize_sendable (m : FramedMessage.t) (w : World) :
  sendable m ->
  exists data m' w', FramedMessage.serialize m w = Some (Ok data, m', w').
Proof.
  intros Hs. pose proof Hs as (_ & (hb & Hd & Hlen & _) & _).
  destruct (has_payload_sendable m Hs)
    as [[Hp _]|(p & Hp & Hr & _)].
  - exact (serialize_single_returns m w hb Hp Hd Hlen).
  - exact (serialize_dual_returns m p w hb Hp Hr Hd Hlen).
Qed.

Lemma handle_frame_sendable (s : t) (m m' : FramedMessage.t) (w w' : World)
  (data : bytes) :
  awaiting_frame s -> sendable m ->
  FramedMessage.serialize m w = Some (Ok data, m', w') ->
  exists s',
    awaiting_frame s' /\ to_read s' = 0
    /\ q s' = q s ++ [as_received m]
    /\ forall rest,
        handle_frame s (data ++ rest)
        = if is_empty rest then Done s' else handle_frame s' rest.
Proof.
  intros Hs Hm Hser.
  pose proof Hm as (Hid & (hb & Hd & Hlen & Hl) & _).
  assert (Hrt : header_round_trips (FramedMessage.header m)).
  { unfold header_round_trips. rewrite Hd. exact Hl. }
  destruct (has_payload_sendable m Hm)
    as [[Hp Hrec]|(p & Hp & Hr & Hpl & Hcs & Hrec)].
  - destruct (handle_frame_single s m m' w w' data Hs Hp Hser Hrt)
      as (f & [n Hw] & _ & Hput).
    apply (wrap_keeps_id _ _ _ _ _ _ Hid) in Hw as [Hid' _].
    rewrite Hid' in Hput. cbv zeta in Hput.
    eexists. split; [|split; [|split; [|exact Hput]]].
    + split; reflexivity.
    + reflexivity.
    + cbn [q]. f_equal. f_equal. unfold as_received.
      unfold as_received in Hrec. cbn [FramedMessage.payload] in Hrec.
      rewrite Hrec. reflexivity.
  - destruct (handle_frame_dual s m m' w w' data p Hs Hp (proj1 Hr) Hpl Hcs
                Hser Hrt)
      as (f1 & w1 & f2 & [n1 Hw1] & [n2 Hw2] & Hput).
    apply (wrap_keeps_id _ _ _ _ _ _ Hid) in Hw1 as [_ ->].
    apply (wrap_keeps_id _ _ _ _ _ _ Hid) in Hw2 as [Hid2 _].
    rewrite Hid2 in Hput. cbv zeta in Hput.
    eexists. split; [|split; [|split; [|exact Hput]]].
    + split; reflexivity.
    + reflexivity.
    + cbn [q]. f_equal. f_equal. unfold as_received.
      unfold as_received in Hrec. cbn [FramedMessage.payload] in Hrec.
      rewrite Hrec. reflexivity.
Qed.

Lemma handle_frame_stream (ms : list FramedMessage.t) (s : t) (w : World) :
  awaiting_frame s -> to_read s = 0 -> Forall sendable ms ->
  exists data w' s',
    serialize_each ms w = Some (Ok data, w')
    /\ handle_frame s data = Done s'
    /\ q s' = q s ++ map as_received ms
    /\ awaiting_frame s' /\ to_read s' = 0.
Proof.
  revert s w. induction ms as [|m ms IH]; intros s w Hs Ht Hall.
  - exists [], w, s. split; [reflexivity|]. split.
    + apply handle_frame_nil. destruct Hs as [-> _]. cbn.
      unfold Frame.fmt_size. lia.
    + cbn [map]. rewrite app_nil_r. auto.
  - inversion Hall as [|? ? Hm Hms]; subst.
    destruct (serialize_sendable m w Hm) as (d & m' & w1 & Hser).
    destruct (handle_frame_sendable s m m' w w1 d Hs Hm Hser)
      as (s1 & Hs1 & Ht1 & Hq1 & Hput).
    destruct (IH s1 w1 Hs1 Ht1 Hms) as (ds & w2 & s2 & He & Hh & Hq2 & Hs2
                                        & Ht2).
    exists (d ++ ds), w2, s2.
    split; [cbn [serialize_each]; rewrite Hser, He; reflexivity|].
    split.
    + rewrite Hput. destruct ds as [|x ds]; [|exact Hh].
      cbn [is_empty]. rewrite handle_frame_nil in Hh; [exact Hh|].
      destruct Hs1 as [-> _]. cbn. unfold Frame.fmt_size. lia.
    + split; [|auto]. rewrite Hq2, Hq1. cbn [map].
      rewrite <- app_assoc. reflexivity.
Qed.

End Streams.

(** X15. Any number of sendable messages, serialized one after the other
    and joined, serialize without error.  A new engine fed the bytes in
    any chunks either hits the interpreter's recursion limit in one of
    the calls, or completes exactly those messages in the order they
    were sent: each with its identifier and header, a payload of length
    zero absent, any other payload holding the bytes sent; the engine is
    then left waiting for a frame with nothing pending.  The limit is not
    hit when no chunk is longer than 26 bytes for every activation the
    stack takes but one. *)
Theorem stream_round_trip {serde : Serde}
  (ms : list FramedMessage.t) (w : World) :
  Forall sendable ms ->
  exists data w',
    serialize_each ms w = Some (Ok data, w')
    /\ forall limit chunks,
        List.concat chunks = data ->
        (Forall (fits_within limit) chunks ->
         FramedBuffer.put_all_within limit FramedBuffer.__init__ chunks
         <> FramedBuffer.OutOfFuel)
        /\ (FramedBuffer.put_all_within limit FramedBuffer.__init__ chunks
            <> FramedBuffer.OutOfFuel ->
            exists s,
              FramedBuffer.put_all_within limit FramedBuffer.__init__ chunks
              = FramedBuffer.Done s
              /\ FramedBuffer.q s = map as_received ms
              /\ awaiting_frame s /\ FramedBuffer.to_read s = 0).
Proof.
  intros Hall.
  destruct (handle_frame_stream ms FramedBuffer.__init__ w
              awaiting_frame_init eq_refl Hall)
    as (data & w' & s & He & Hh & Hq & Hs & Ht).
  exists data, w'. split; [exact He|].
  intros limit chunks Hc. split.
  - apply put_all_within_fits. exact between_puts_init.
  - intros Hne. exists s. split.
    + rewrite (put_all_within_put_all limit chunks _ Hne).
      apply put_all_done; [exact between_puts_init|].
      rewrite Hc. exact Hh.
    + split; [exact Hq|]. split; assumption.
Qed.

Lemma stream_round_trip_witness :
  Forall (sendable (serde := FlatJson.serde))
    [ping_message; work_message; hollow_message; pong_message]
  /\ exists data w',
      serialize_each (serde := FlatJson.serde)
        [ping_message; work_message; hollow_message; pong_message]
        zero_world
      = Some (Ok data, w')
      /\ forall limit chunks,
          List.concat chunks = data ->
          (Forall (fits_within limit) chunks ->
           FramedBuffer.put_all_within (serde := FlatJson.serde) limit
             FramedBuffer.__init__ chunks
           <> FramedBuffer.OutOfFuel)
          /\ (FramedBuffer.put_all_within (serde := FlatJson.serde) limit
                FramedBuffer.__init__ chunks
              <> FramedBuffer.OutOfFuel ->
              exists s,
                FramedBuffer.put_all_within (serde := FlatJson.serde) limit
                  FramedBuffer.__init__ chunks
                = FramedBuffer.Done s
                /\ FramedBuffer.q s
                   = map as_received
                       [ping_message; work_message; hollow_message;
                        pong_message]
                /\ awaiting_frame s /\ FramedBuffer.to_read s = 0).
Proof.
  assert (Hh : forall h : json,
             h = FlatJson.ping \/ h = FlatJson.work ->
             exists hb, dumps (Serde := FlatJson.serde) h = Ok hb
                        /\ len hb < 2 ^ 32
                        /\ load (Serde := FlatJson.serde) hb = Ok h).
  { intros h [-> | ->]; eexists;
      (split; [reflexivity|]; split; [reflexivity | reflexivity]). }
  assert (H : Forall (sendable (serde := FlatJson.serde))
                [ping_message; work_message; hollow_message;
                 pong_message]).
  { apply Forall_cons; [|apply Forall_cons; [|apply Forall_cons;
      [|apply Forall_cons; [|apply Forall_nil]]]].
    - split; [cbn; lia|]. split; [apply Hh; left; reflexivity | exact I].
    - split; [cbn; lia|]. split; [apply Hh; right; reflexivity|].
      cbn. split; [lia|]. split; [reflexivity | lia].
    - split; [cbn; lia|]. split; [apply Hh; left; reflexivity|].
      cbn. split; [lia|]. split; [reflexivity | lia].
    - split; [cbn; lia|]. split; [apply Hh; right; reflexivity | exact I]. }
  split; [exact H|].
  exact (stream_round_trip (serde := FlatJson.serde) _ zero_world H).
Defined.

(** ** What each kind of frame does to an engine that awaits one *)

Section Frames.

Context {serde : Serde}.

Import FramedBuffer.

Lemma handle_frame_HEADER (s : t) (f : Frame.t) (hb rest : bytes)
  (h : json) :
  awaiting_frame s ->
  frame_packable f -> Frame.type_ f = Frame.Types.HEADER ->
  Frame.length f = len hb -> load hb = Ok h ->
  handle_frame s (frame_layout f ++ hb ++ rest)
  = let s' := mk (q s) h [] FileBackedBuffer.from_temp
                (Some (on_wire f)) 0 in
    if is_empty rest then Done s' else handle_frame s' rest.
Proof.
  intros [Hfb Hbb] Hp Hty Hlen Hload.
  rewrite handle_frame_body; try assumption.
  - rewrite Hbb, write_from_temp. cbn [fst].
    rewrite (finish_HEADER _ (on_wire f) hb h);
      [reflexivity | reflexivity | exact Hty | reflexivity | exact Hload].
  - rewrite Hty. reflexivity.
  - symmetry. exact Hlen.
Qed.

Lemma handle_frame_PAYLOAD (s : t) (f : Frame.t) (body rest : bytes) :
  awaiting_frame s ->
  frame_packable f -> Frame.type_ f = Frame.Types.PAYLOAD ->
  Frame.length f = len body ->
  handle_frame s (frame_layout f ++ body ++ rest)
  = let s' := mk (q s ++ [FramedMessage.mk (Frame.msg_id f mod 2 ^ 128)
                            (header s) (Some (spooled body))])
                JNull [] FileBackedBuffer.from_temp
                (Some (on_wire f)) 0 in
    if is_empty rest then Done s' else handle_frame s' rest.
Proof.
  intros [Hfb Hbb] Hp Hty Hlen.
  rewrite handle_frame_body; try assumption.
  - rewrite Hbb, write_from_temp. cbn [fst].
    rewrite (finish_PAYLOAD _ (on_wire f)); [reflexivity | reflexivity
                                             | exact Hty].
  - rewrite Hty. reflexivity.
  - symmetry. exact Hlen.
Qed.

Lemma awaiting_between (s : t) :
  awaiting_frame s -> to_read s = 0 -> between_puts s.
Proof.
  intros [Hfb _] Ht. split; [lia|]. rewrite Hfb. cbn.
  unfold Frame.fmt_size. lia.
Qed.

Lemma put_all_whole (s s' : t) (data : bytes) (chunks : list bytes) :
  awaiting_frame s -> to_read s = 0 ->
  List.concat chunks = data ->
  handle_frame s data = Done s' ->
  put_all s chunks = Done s'.
Proof.
  intros Hs Ht Hc Hh.
  apply put_all_done; [exact (awaiting_between s Hs Ht)|].
  rewrite Hc. unfold put. rewrite Ht. exact Hh.
Qed.

End Frames.

(** X16. A PAYLOAD frame and its body, arriving in any chunks at an
    engine that awaits a frame, always complete a message: it carries the
    PAYLOAD frame's identifier, cut to 128 bits, the header the engine
    holds at that moment ([None] on a new engine or right after another
    PAYLOAD frame) and the body in a buffer of its own.  Nothing is
    compared with the HEADER frame that came before.  Afterwards no
    header is held. *)
Theorem payload_frame_takes_the_held_header {serde : Serde}
  (s : FramedBuffer.t) (f : Frame.t) (body : bytes) (chunks : list bytes) :
  awaiting_frame s -> FramedBuffer.to_read s = 0 ->
  frame_packable f -> Frame.type_ f = Frame.Types.PAYLOAD ->
  Frame.length f = len body ->
  List.concat chunks = frame_layout f ++ body ->
  exists s',
    FramedBuffer.put_all s chunks = FramedBuffer.Done s'
    /\ FramedBuffer.q s'
       = FramedBuffer.q s
         ++ [FramedMessage.mk (Frame.msg_id f mod 2 ^ 128)
               (FramedBuffer.header s) (Some (spooled body))]
    /\ FramedBuffer.header s' = JNull
    /\ awaiting_frame s' /\ FramedBuffer.to_read s' = 0.
Proof.
  intros Hs Ht Hp Hty Hlen Hc.
  pose proof (handle_frame_PAYLOAD s f body [] Hs Hp Hty Hlen) as H.
  rewrite app_nil_r in H. cbv zeta in H. cbn [is_empty] in H.
  eexists. split; [exact (put_all_whole _ _ _ _ Hs Ht Hc H)|].
  split; [reflexivity|]. split; [reflexivity|].
  split; [split; reflexivity | reflexivity].
Qed.

Lemma payload_frame_takes_the_held_header_witness :
  (awaiting_frame FramedBuffer.__init__
   /\ FramedBuffer.to_read FramedBuffer.__init__ = 0
   /\ frame_packable example_frame
   /\ Frame.type_ example_frame = Frame.Types.PAYLOAD
   /\ Frame.length example_frame = len [x01; x02; x03; x04; x05]
   /\ List.concat [frame_layout example_frame; [x01; x02; x03; x04; x05]]
      = frame_layout example_frame ++ [x01; x02; x03; x04; x05])
  /\ exists s',
      FramedBuffer.put_all (serde := FlatJson.serde) FramedBuffer.__init__
        [frame_layout example_frame; [x01; x02; x03; x04; x05]]
      = FramedBuffer.Done s'
      /\ FramedBuffer.q s'
         = FramedBuffer.q FramedBuffer.__init__
           ++ [FramedMessage.mk (Frame.msg_id example_frame mod 2 ^ 128)
                 (FramedBuffer.header FramedBuffer.__init__)
                 (Some (spooled [x01; x02; x03; x04; x05]))]
      /\ FramedBuffer.header s' = JNull
      /\ awaiting_frame s' /\ FramedBuffer.to_read s' = 0.
Proof.
  assert (H1 : awaiting_frame FramedBuffer.__init__)
    by (split; reflexivity).
  assert (H2 : FramedBuffer.to_read FramedBuffer.__init__ = 0)
    by reflexivity.
  assert (H3 : frame_packable example_frame)
    by (unfold frame_packable, example_frame, Frame.Types.HEADER,
        Frame.Types.PAYLOAD, Frame.Types.COMMAND; cbn; lia).
  assert (H4 : Frame.type_ example_frame = Frame.Types.PAYLOAD)
    by reflexivity.
  assert (H5 : Frame.length example_frame = len [x01; x02; x03; x04; x05])
    by reflexivity.
  assert (H6 : List.concat
                 [frame_layout example_frame; [x01; x02; x03; x04; x05]]
               = frame_layout example_frame ++ [x01; x02; x03; x04; x05])
    by reflexivity.
  split; [exact (conj H1 (conj H2 (conj H3 (conj H4 (conj H5 H6)))))|].
  exact (payload_frame_takes_the_held_header (serde := FlatJson.serde)
           _ _ _ _ H1 H2 H3 H4 H5 H6).
Defined.

(** X17. A HEADER frame and its body, arriving in any chunks at an engine
    that awaits a frame, complete no message: the decoded body becomes
    the held header, in place of one held already, and the queue is as
    it was. *)
Theorem header_frame_replaces_the_held_header {serde : Serde}
  (s : FramedBuffer.t) (f : Frame.t) (hb : bytes) (h : json)
  (chunks : list bytes) :
  awaiting_frame s -> FramedBuffer.to_read s = 0 ->
  frame_packable f -> Frame.type_ f = Frame.Types.HEADER ->
  Frame.length f = len hb -> load hb = Ok h ->
  List.concat chunks = frame_layout f ++ hb ->
  exists s',
    FramedBuffer.put_all s chunks = FramedBuffer.Done s'
    /\ FramedBuffer.q s' = FramedBuffer.q s
    /\ FramedBuffer.header s' = h
    /\ awaiting_frame s' /\ FramedBuffer.to_read s' = 0.
Proof.
  intros Hs Ht Hp Hty Hlen Hl Hc.
  pose proof (handle_frame_HEADER s f hb [] h Hs Hp Hty Hlen Hl) as H.
  rewrite app_nil_r in H. cbv zeta in H. cbn [is_empty] in H.
  eexists. split; [exact (put_all_whole _ _ _ _ Hs Ht Hc H)|].
  split; [reflexivity|]. split; [reflexivity|].
  split; [split; reflexivity | reflexivity].
Qed.

Lemma header_frame_replaces_the_held_header_witness :
  (awaiting_frame FramedBuffer.__init__
   /\ FramedBuffer.to_read FramedBuffer.__init__ = 0
   /\ frame_packable (Frame.mk Frame.Types.HEADER 1 16 7 1)
   /\ Frame.type_ (Frame.mk Frame.Types.HEADER 1 16 7 1)
      = Frame.Types.HEADER
   /\ Frame.length (Frame.mk Frame.Types.HEADER 1 16 7 1)
      = len (skipn 26 (firstn 42 work_bytes))
   /\ load (Serde := FlatJson.serde) (skipn 26 (firstn 42 work_bytes))
      = Ok FlatJson.work
   /\ List.concat [firstn 42 work_bytes]
      = frame_layout (Frame.mk Frame.Types.HEADER 1 16 7 1)
        ++ skipn 26 (firstn 42 work_bytes))
  /\ exists s',
      FramedBuffer.put_all (serde := FlatJson.serde) FramedBuffer.__init__
        [firstn 42 work_bytes]
      = FramedBuffer.Done s'
      /\ FramedBuffer.q s' = FramedBuffer.q FramedBuffer.__init__
      /\ FramedBuffer.header s' = FlatJson.work
      /\ awaiting_frame s' /\ FramedBuffer.to_read s' = 0.
Proof.
  assert (H1 : awaiting_frame FramedBuffer.__init__)
    by (split; reflexivity).
  assert (H2 : FramedBuffer.to_read FramedBuffer.__init__ = 0)
    by reflexivity.
  assert (H3 : frame_packable (Frame.mk Frame.Types.HEADER 1 16 7 1))
    by (unfold frame_packable, example_frame, Frame.Types.HEADER,
        Frame.Types.PAYLOAD, Frame.Types.COMMAND; cbn; lia).
  assert (H4 : Frame.type_ (Frame.mk Frame.Types.HEADER 1 16 7 1)
               = Frame.Types.HEADER) by reflexivity.
  assert (H5 : Frame.length (Frame.mk Frame.Types.HEADER 1 16 7 1)
               = len (skipn 26 (firstn 42 work_bytes))) by reflexivity.
  assert (H6 : load (Serde := FlatJson.serde)
                 (skipn 26 (firstn 42 work_bytes)) = Ok FlatJson.work)
    by reflexivity.
  assert (H7 : List.concat [firstn 42 work_bytes]
               = frame_layout (Frame.mk Frame.Types.HEADER 1 16 7 1)
                 ++ skipn 26 (firstn 42 work_bytes)) by reflexivity.
  split;
    [exact (conj H1 (conj H2 (conj H3 (conj H4 (conj H5 (conj H6 H7))))))|].
  exact (header_frame_replaces_the_held_header (serde := FlatJson.serde)
           _ _ _ _ _ H1 H2 H3 H4 H5 H6 H7).
Defined.

(** X18. A COMMAND frame and its body, arriving in any chunks at an
    engine that awaits a frame, complete a message without payload that
    carries the frame's identifier, cut to 128 bits, and the decoded
    body as its header; the header the engine holds for a PAYLOAD frame
    still to come is left as it is. *)
Theorem command_frame_keeps_the_held_header {serde : Serde}
  (s : FramedBuffer.t) (f : Frame.t) (hb : bytes) (h : json)
  (chunks : list bytes) :
  awaiting_frame s -> FramedBuffer.to_read s = 0 ->
  frame_packable f -> Frame.type_ f = Frame.Types.COMMAND ->
  Frame.length f = len hb -> load hb = Ok h ->
  List.concat chunks = frame_layout f ++ hb ->
  exists s',
    FramedBuffer.put_all s chunks = FramedBuffer.Done s'
    /\ FramedBuffer.q s'
       = FramedBuffer.q s
         ++ [FramedMessage.mk (Frame.msg_id f mod 2 ^ 128) h None]
    /\ FramedBuffer.header s' = FramedBuffer.header s
    /\ awaiting_frame s' /\ FramedBuffer.to_read s' = 0.
Proof.
  intros Hs Ht Hp Hty Hlen Hl Hc.
  pose proof (handle_frame_COMMAND s f hb [] h Hs Hp Hty Hlen Hl) as H.
  rewrite app_nil_r in H. cbv zeta in H. cbn [is_empty] in H.
  eexists. split; [exact (put_all_whole _ _ _ _ Hs Ht Hc H)|].
  split; [reflexivity|]. split; [reflexivity|].
  split; [split; reflexivity | reflexivity].
Qed.

Lemma command_frame_keeps_the_held_header_witness :
  (awaiting_frame FramedBuffer.__init__
   /\ FramedBuffer.to_read FramedBuffer.__init__ = 0
   /\ frame_packable (Frame.mk Frame.Types.COMMAND 1 16 7 1)
   /\ Frame.type_ (Frame.mk Frame.Types.COMMAND 1 16 7 1)
      = Frame.Types.COMMAND
   /\ Frame.length (Frame.mk Frame.Types.COMMAND 1 16 7 1)
      = len (skipn 26 ping_bytes)
   /\ load (Serde := FlatJson.serde) (skipn 26 ping_bytes)
      = Ok FlatJson.ping
   /\ List.concat [ping_bytes]
      = frame_layout (Frame.mk Frame.Types.COMMAND 1 16 7 1)
        ++ skipn 26 ping_bytes)
  /\ exists s',
      FramedBuffer.put_all (serde := FlatJson.serde) FramedBuffer.__init__
        [ping_bytes]
      = FramedBuffer.Done s'
      /\ FramedBuffer.q s'
         = FramedBuffer.q FramedBuffer.__init__
           ++ [FramedMessage.mk
                 (Frame.msg_id (Frame.mk Frame.Types.COMMAND 1 16 7 1)
                  mod 2 ^ 128) FlatJson.ping None]
      /\ FramedBuffer.header s'
         = FramedBuffer.header FramedBuffer.__init__
      /\ awaiting_frame s' /\ FramedBuffer.to_read s' = 0.
Proof.
  assert (H1 : awaiting_frame FramedBuffer.__init__)
    by (split; reflexivity).
  assert (H2 : FramedBuffer.to_read FramedBuffer.__init__ = 0)
    by reflexivity.
  assert (H3 : frame_packable (Frame.mk Frame.Types.COMMAND 1 16 7 1))
    by (unfold frame_packable, example_frame, Frame.Types.HEADER,
        Frame.Types.PAYLOAD, Frame.Types.COMMAND; cbn; lia).
  assert (H4 : Frame.type_ (Frame.mk Frame.Types.COMMAND 1 16 7 1)
               = Frame.Types.COMMAND) by reflexivity.
  assert (H5 : Frame.length (Frame.mk Frame.Types.COMMAND 1 16 7 1)
               = len (skipn 26 ping_bytes)) by reflexivity.
  assert (H6 : load (Serde := FlatJson.serde) (skipn 26 ping_bytes)
               = Ok FlatJson.ping) by reflexivity.
  assert (H7 : List.concat [ping_bytes]
               = frame_layout (Frame.mk Frame.Types.COMMAND 1 16 7 1)
                 ++ skipn 26 ping_bytes) by reflexivity.
  split;
    [exact (conj H1 (conj H2 (conj H3 (conj H4 (conj H5 (conj H6 H7))))))|].
  exact (command_frame_keeps_the_held_header (serde := FlatJson.serde)
           _ _ _ _ _ H1 H2 H3 H4 H5 H6 H7).
Defined.

(** ** After a body that does not decode *)

Section Failures.

Context {serde : Serde}.

Import FramedBuffer.

Lemma finish_raises (s : t) (f : Frame.t) (body : bytes) (e : exn) :
  current_frame s = Some f ->
  Frame.type_ f = Frame.Types.HEADER \/ Frame.type_ f = Frame.Types.COMMAND ->
  bb s = spooled body -> load body = Raise e ->
  finish s = Raised e s.
Proof.
  intros Hcf Hty Hbb Hload. unfold finish.
  rewrite (load_bb_spooled s body Hbb), Hload, Hcf.
  destruct Hty as [-> | ->]; reflexivity.
Qed.

Lemma handle_frame_undecodable (s : t) (f : Frame.t) (old hb : bytes)
  (e : exn) :
  framebuffer s = [] -> bb s = spooled old ->
  frame_packable f ->
  Frame.type_ f = Frame.Types.HEADER \/ Frame.type_ f = Frame.Types.COMMAND ->
  Frame.length f = len hb -> load (old ++ hb) = Raise e ->
  handle_frame s (frame_layout f ++ hb)
  = Raised e (mk (q s) (header s) [] (spooled (old ++ hb))
                (Some (on_wire f)) 0).
Proof.
  intros Hfb Hbb Hp Hty Hlen Hload.
  pose proof (handle_frame_body s f hb [] Hfb Hp) as H.
  rewrite app_nil_r in H. rewrite H.
  - rewrite Hbb, write_spooled. cbn [fst].
    rewrite (finish_raises _ (on_wire f) (old ++ hb) e);
      [reflexivity | reflexivity | exact Hty | reflexivity | exact Hload].
  - destruct Hty as [-> | ->]; reflexivity.
  - symmetry. exact Hlen.
Qed.

Lemma handle_frame_COMMAND_after (s : t) (f : Frame.t) (old hb : bytes)
  (h : json) :
  framebuffer s = [] -> bb s = spooled old ->
  frame_packable f -> Frame.type_ f = Frame.Types.COMMAND ->
  Frame.length f = len hb -> load (old ++ hb) = Ok h ->
  handle_frame s (frame_layout f ++ hb)
  = Done (mk (q s ++ [FramedMessage.mk (Frame.msg_id f mod 2 ^ 128) h None])
            (header s) [] FileBackedBuffer.from_temp
            (Some (on_wire f)) 0).
Proof.
  intros Hfb Hbb Hp Hty Hlen Hload.
  pose proof (handle_frame_body s f hb [] Hfb Hp) as H.
  rewrite app_nil_r in H. rewrite H.
  - rewrite Hbb, write_spooled. cbn [fst].
    rewrite (finish_COMMAND _ (on_wire f) (old ++ hb) h);
      [reflexivity | reflexivity | exact Hty | reflexivity | exact Hload].
  - rewrite Hty. reflexivity.
  - symmetry. exact Hlen.
Qed.

End Failures.

(** X19. When the body of a HEADER or COMMAND frame does not decode,
    [put] raises what [json.load] raised and the engine keeps the failed
    body in its buffer, with no body bytes expected.  The body of the
    COMMAND frame that comes next is appended to it, so what that frame
    does is decided by decoding the two bodies joined, not its own: it
    completes a message with the joined bodies' value as header, or
    raises again and leaves both bodies in the buffer. *)
Theorem decode_failure_taints_the_next_frame {serde : Serde}
  (s : FramedBuffer.t) (f f' : Frame.t) (hb hb' : bytes) (e : exn) :
  awaiting_frame s -> FramedBuffer.to_read s = 0 ->
  frame_packable f ->
  Frame.type_ f = Frame.Types.HEADER \/ Frame.type_ f = Frame.Types.COMMAND ->
  Frame.length f = len hb -> load hb = Raise e ->
  frame_packable f' -> Frame.type_ f' = Frame.Types.COMMAND ->
  Frame.length f' = len hb' ->
  exists s1,
    FramedBuffer.put s (frame_layout f ++ hb) = FramedBuffer.Raised e s1
    /\ FramedBuffer.q s1 = FramedBuffer.q s
    /\ FramedBuffer.to_read s1 = 0
    /\ FramedBuffer.bb s1 = spooled hb
    /\ (forall h,
           load (hb ++ hb') = Ok h ->
           exists s2,
             FramedBuffer.put s1 (frame_layout f' ++ hb')
             = FramedBuffer.Done s2
             /\ FramedBuffer.q s2
                = FramedBuffer.q s
                  ++ [FramedMessage.mk (Frame.msg_id f' mod 2 ^ 128) h None])
    /\ (forall e',
           load (hb ++ hb') = Raise e' ->
           exists s2,
             FramedBuffer.put s1 (frame_layout f' ++ hb')
             = FramedBuffer.Raised e' s2
             /\ FramedBuffer.q s2 = FramedBuffer.q s
             /\ FramedBuffer.bb s2 = spooled (hb ++ hb')).
Proof.
  intros [Hfb Hbb] Ht Hp Hty Hlen Hload Hp' Hty' Hlen'.
  assert (Hbb0 : FramedBuffer.bb s = spooled []) by (rewrite Hbb; reflexivity).
  eexists. split.
  - unfold FramedBuffer.put. rewrite Ht. cbn [Z.eqb].
    exact (handle_frame_undecodable s f [] hb e Hfb Hbb0 Hp Hty Hlen Hload).
  - cbn [app FramedBuffer.q FramedBuffer.to_read FramedBuffer.bb].
    split; [reflexivity|]. split; [reflexivity|]. split; [reflexivity|].
    split.
    + intros h Hl. eexists. split.
      * unfold FramedBuffer.put. cbn [FramedBuffer.to_read Z.eqb].
        apply (handle_frame_COMMAND_after _ f' hb hb' h); try assumption;
          reflexivity.
      * reflexivity.
    + intros e' Hl. eexists. split.
      * unfold FramedBuffer.put. cbn [FramedBuffer.to_read Z.eqb].
        apply (handle_frame_undecodable _ f' hb hb' e'); try assumption;
          try reflexivity.
        right. exact Hty'.
      * split; reflexivity.
Qed.

Lemma decode_failure_taints_the_next_frame_witness :
  (awaiting_frame FramedBuffer.__init__
   /\ FramedBuffer.to_read FramedBuffer.__init__ = 0
   /\ frame_packable (Frame.mk Frame.Types.COMMAND 1 1 7 1)
   /\ (Frame.type_ (Frame.mk Frame.Types.COMMAND 1 1 7 1)
       = Frame.Types.HEADER
       \/ Frame.type_ (Frame.mk Frame.Types.COMMAND 1 1 7 1)
          = Frame.Types.COMMAND)
   /\ Frame.length (Frame.mk Frame.Types.COMMAND 1 1 7 1) = len [x78]
   /\ load (Serde := FlatJson.serde) [x78] = Raise DecodeError
   /\ frame_packable (Frame.mk Frame.Types.COMMAND 1 16 7 1)
   /\ Frame.type_ (Frame.mk Frame.Types.COMMAND 1 16 7 1)
      = Frame.Types.COMMAND
   /\ Frame.length (Frame.mk Frame.Types.COMMAND 1 16 7 1)
      = len (skipn 26 ping_bytes))
  /\ load (Serde := FlatJson.serde) (skipn 26 ping_bytes)
     = Ok FlatJson.ping
  /\ exists s2,
      FramedBuffer.put (serde := FlatJson.serde)
        (FramedBuffer.mk [] JNull [] (spooled [x78])
           (Some (Frame.mk Frame.Types.COMMAND 1 1 7 1)) 0)
        (frame_layout (Frame.mk Frame.Types.COMMAND 1 16 7 1)
         ++ skipn 26 ping_bytes)
      = FramedBuffer.Raised DecodeError s2
      /\ FramedBuffer.q s2 = FramedBuffer.q FramedBuffer.__init__
      /\ FramedBuffer.bb s2 = spooled ([x78] ++ skipn 26 ping_bytes).
Proof.
  assert (H1 : awaiting_frame FramedBuffer.__init__)
    by (split; reflexivity).
  assert (H2 : FramedBuffer.to_read FramedBuffer.__init__ = 0)
    by reflexivity.
  assert (H3 : frame_packable (Frame.mk Frame.Types.COMMAND 1 1 7 1))
    by (unfold frame_packable, Frame.Types.COMMAND; cbn; lia).
  assert (H4 : Frame.type_ (Frame.mk Frame.Types.COMMAND 1 1 7 1)
               = Frame.Types.HEADER
               \/ Frame.type_ (Frame.mk Frame.Types.COMMAND 1 1 7 1)
                  = Frame.Types.COMMAND) by (right; reflexivity).
  assert (H5 : Frame.length (Frame.mk Frame.Types.COMMAND 1 1 7 1)
               = len [x78]) by reflexivity.
  assert (H6 : load (Serde := FlatJson.serde) [x78] = Raise DecodeError)
    by reflexivity.
  assert (H7 : frame_packable (Frame.mk Frame.Types.COMMAND 1 16 7 1))
    by (unfold frame_packable, Frame.Types.COMMAND; cbn; lia).
  assert (H8 : Frame.type_ (Frame.mk Frame.Types.COMMAND 1 16 7 1)
               = Frame.Types.COMMAND) by reflexivity.
  assert (H9 : Frame.length (Frame.mk Frame.Types.COMMAND 1 16 7 1)
               = len (skipn 26 ping_bytes)) by reflexivity.
  split;
    [exact (conj H1 (conj H2 (conj H3 (conj H4 (conj H5 (conj H6
              (conj H7 (conj H8 H9))))))))|].
  split; [reflexivity|].
  destruct (decode_failure_taints_the_next_frame (serde := FlatJson.serde)
              FramedBuffer.__init__ _ _ [x78] (skipn 26 ping_bytes)
              DecodeError H1 H2 H3 H4 H5 H6 H7 H8 H9)
    as (s1 & Hput & _ & _ & _ & _ & Hbad).
  assert (Hs1 : s1 = FramedBuffer.mk [] JNull [] (spooled [x78])
                       (Some (Frame.mk Frame.Types.COMMAND 1 1 7 1)) 0).
  { assert (Hc : FramedBuffer.put (serde := FlatJson.serde)
                   FramedBuffer.__init__
                   (frame_layout (Frame.mk Frame.Types.COMMAND 1 1 7 1)
                    ++ [x78])
                 = FramedBuffer.Raised DecodeError
                     (FramedBuffer.mk [] JNull [] (spooled [x78])
                        (Some (Frame.mk Frame.Types.COMMAND 1 1 7 1)) 0))
      by reflexivity.
    rewrite Hc in Hput. injection Hput as <-. reflexivity. }
  subst s1.
  exact (Hbad DecodeError eq_refl).
Defined.

(** ** Message identifiers *)

(** X20. A message built without an identifier draws one random value and
    gets a non-zero identifier of at most 128 bits; [Frame.wrap] keeps
    that identifier on every frame of the message and draws nothing
    more.  A message built with an identifier keeps the one given, zero
    included. *)
Theorem default_msg_id_is_kept (h : json)
  (p : option FileBackedBuffer.t) (w : World) :
  let m := fst (FramedMessage.__init__ None h p w) in
  let w1 := snd (FramedMessage.__init__ None h p w) in
  0 < FramedMessage.msg_id m < 2 ^ 128
  /\ drawn w1 = S (drawn w)
  /\ (forall n ty,
         Frame.wrap n ty (Some (FramedMessage.msg_id m)) w1
         = (Frame.mk ty 1 n (FramedMessage.msg_id m) 1, w1))
  /\ (forall i,
         FramedMessage.__init__ (Some i) h p w = (FramedMessage.mk i h p, w)).
Proof.
  cbn [FramedMessage.__init__ uuid4 fst snd FramedMessage.msg_id drawn].
  pose proof (uuid4_range (urandom w (drawn w))) as Hr.
  pose proof (uuid4_nonzero (urandom w (drawn w))) as Hn.
  split; [lia|]. split; [reflexivity|]. split; [|reflexivity].
  intros n ty. apply wrap_nonzero. exact Hn.
Qed.

(** ** A payload read in chunks of size zero *)

Lemma handle_frame_no_body {serde : Serde} (s : FramedBuffer.t)
  (f : Frame.t) :
  FramedBuffer.framebuffer s = [] ->
  frame_packable f -> Frame.Types.mem (Frame.type_ f) = true ->
  Frame.length f <> 0 ->
  FramedBuffer.handle_frame s (frame_layout f)
  = FramedBuffer.Done
      (FramedBuffer.mk (FramedBuffer.q s) (FramedBuffer.header s) []
         (FramedBuffer.bb s) (Some (on_wire f)) (Frame.length f)).
Proof.
  intros Hfb Hp Hm Hl.
  rewrite handle_frame_eq. cbv zeta.
  cbn [FramedBuffer.framebuffer FramedBuffer.set_framebuffer].
  rewrite Hfb. cbn [app].
  pose proof (from_data_layout f [] Hp Hm) as Hd.
  rewrite app_nil_r in Hd. rewrite Hd.
  cbn [on_wire Frame.type_ Frame.length]. rewrite Hm. cbn [negb].
  rewrite consume_nil by (cbn [FramedBuffer.to_read FramedBuffer.set_to_read];
                          exact Hl).
  reflexivity.
Qed.

(** X21. A payload whose chunk size is zero (a buffer built with
    [min_chunk = 0] that holds fewer than 1024 bytes) is announced but
    never sent: the first read of the payload loop returns nothing, so
    the message serializes, without error, to the HEADER frame, the
    header bytes and a PAYLOAD frame that announces the payload's length,
    and no payload byte.  An engine fed these bytes holds the header,
    completes no message and goes on expecting the announced bytes. *)
Theorem zero_chunksize_sends_no_payload {serde : Serde}
  (m : FramedMessage.t) (p : FileBackedBuffer.t) (w : World) (hb : bytes)
  (h : json) :
  FramedMessage.payload m = Some p ->
  0 < FileBackedBuffer.length p < 2 ^ 32 ->
  FileBackedBuffer.chunksize p = 0 ->
  dumps (FramedMessage.header m) = Ok hb ->
  len hb < 2 ^ 32 ->
  load hb = Ok h ->
  exists f1 f2 m' w' s,
    FramedMessage.serialize m w
    = Some (Ok (frame_layout f1 ++ hb ++ frame_layout f2), m', w')
    /\ Frame.type_ f2 = Frame.Types.PAYLOAD
    /\ Frame.length f2 = FileBackedBuffer.length p
    /\ FramedBuffer.put FramedBuffer.__init__
         (frame_layout f1 ++ hb ++ frame_layout f2)
       = FramedBuffer.Done s
    /\ FramedBuffer.q s = []
    /\ FramedBuffer.header s = h
    /\ FramedBuffer.to_read s = FileBackedBuffer.length p.
Proof.
  intros Hp Hr Hcs Hd Hlen Hload.
  pose proof (wrap_packable (len hb) Frame.Types.HEADER
                (Some (FramedMessage.msg_id m)) w
                (conj (len_nonneg hb) Hlen) eq_refl) as Hpk1.
  destruct (Frame.wrap (len hb) Frame.Types.HEADER
              (Some (FramedMessage.msg_id m)) w) as [f1 w1] eqn:Ew1.
  cbn [fst] in Hpk1.
  pose proof (wrap_packable (FileBackedBuffer.length p) Frame.Types.PAYLOAD
                (Some (FramedMessage.msg_id m)) w1
                ltac:(lia) eq_refl) as Hpk2.
  destruct (Frame.wrap (FileBackedBuffer.length p) Frame.Types.PAYLOAD
              (Some (FramedMessage.msg_id m)) w1) as [f2 w2] eqn:Ew2.
  cbn [fst] in Hpk2.
  pose proof Ew1 as Hf1. symmetry in Hf1.
  apply wrap_fields in Hf1 as [Hty1 Hl1].
  pose proof Ew2 as Hf2. symmetry in Hf2.
  apply wrap_fields in Hf2 as [Hty2 Hl2].
  assert (Hser : exists m',
             FramedMessage.serialize m w
             = Some (Ok (frame_layout f1 ++ hb ++ frame_layout f2), m', w2)).
  { unfold FramedMessage.serialize.
    rewrite (iter_dual m p w Hp (truth_of_positive p ltac:(lia))), Hd.
    rewrite Ew1, (serialize_packable f1 Hpk1).
    rewrite Ew2, (serialize_packable f2 Hpk2).
    rewrite Hcs. cbn [FramedMessage.read_chunks].
    unfold FileBackedBuffer.read, file_read. cbn [Z.ltb Z.compare Z.to_nat
                                                  firstn is_empty].
    cbn [FramedMessage.raised FramedMessage.chunks FramedMessage.self_after
         FramedMessage.world_after List.concat].
    rewrite !app_nil_r. eexists. reflexivity. }
  destruct Hser as [m' Hser].
  assert (Hput : FramedBuffer.put FramedBuffer.__init__
                   (frame_layout f1 ++ hb ++ frame_layout f2)
                 = FramedBuffer.Done
                     (FramedBuffer.mk [] h [] FileBackedBuffer.from_temp
                        (Some (on_wire f2)) (Frame.length f2))).
  { unfold FramedBuffer.put.
    cbn [FramedBuffer.to_read FramedBuffer.__init__ Z.eqb].
    rewrite (handle_frame_HEADER FramedBuffer.__init__ f1 hb
               (frame_layout f2) h awaiting_frame_init Hpk1 Hty1 Hl1 Hload).
    cbv zeta. change (is_empty (frame_layout f2)) with false. cbv iota.
    rewrite handle_frame_no_body;
      [reflexivity | reflexivity | exact Hpk2 | rewrite Hty2; reflexivity
       | lia]. }
  exists f1, f2, m', w2.
  eexists. split; [exact Hser|]. split; [exact Hty2|]. split; [exact Hl2|].
  split; [exact Hput|].
  split; [reflexivity|]. split; [reflexivity | exact Hl2].
Qed.

Lemma zero_chunksize_sends_no_payload_witness :
  (FramedMessage.payload
     (FramedMessage.mk 7 FlatJson.work
        (Some (FileBackedBuffer.mk 3 (mkFile [x01; x02; x03] 3) 0 (2 ^ 20))))
   = Some (FileBackedBuffer.mk 3 (mkFile [x01; x02; x03] 3) 0 (2 ^ 20))
   /\ 0 < FileBackedBuffer.length
            (FileBackedBuffer.mk 3 (mkFile [x01; x02; x03] 3) 0 (2 ^ 20))
        < 2 ^ 32
   /\ FileBackedBuffer.chunksize
        (FileBackedBuffer.mk 3 (mkFile [x01; x02; x03] 3) 0 (2 ^ 20)) = 0
   /\ dumps (Serde := FlatJson.serde) FlatJson.work
      = Ok (skipn 26 (firstn 42 work_bytes))
   /\ len (skipn 26 (firstn 42 work_bytes)) < 2 ^ 32
   /\ load (Serde := FlatJson.serde) (skipn 26 (firstn 42 work_bytes))
      = Ok FlatJson.work)
  /\ exists f1 f2 m' w' s,
      FramedMessage.serialize (serde := FlatJson.serde)
        (FramedMessage.mk 7 FlatJson.work
           (Some (FileBackedBuffer.mk 3 (mkFile [x01; x02; x03] 3) 0
                    (2 ^ 20))))
        zero_world
      = Some (Ok (frame_layout f1 ++ skipn 26 (firstn 42 work_bytes)
                  ++ frame_layout f2), m', w')
      /\ Frame.type_ f2 = Frame.Types.PAYLOAD
      /\ Frame.length f2
         = FileBackedBuffer.length
             (FileBackedBuffer.mk 3 (mkFile [x01; x02; x03] 3) 0 (2 ^ 20))
      /\ FramedBuffer.put (serde := FlatJson.serde) FramedBuffer.__init__
           (frame_layout f1 ++ skipn 26 (firstn 42 work_bytes)
            ++ frame_layout f2)
         = FramedBuffer.Done s
      /\ FramedBuffer.q s = []
      /\ FramedBuffer.header s = FlatJson.work
      /\ FramedBuffer.to_read s
         = FileBackedBuffer.length
             (FileBackedBuffer.mk 3 (mkFile [x01; x02; x03] 3) 0 (2 ^ 20)).
Proof.
  assert (H1 : FramedMessage.payload
                 (FramedMessage.mk 7 FlatJson.work
                    (Some (FileBackedBuffer.mk 3 (mkFile [x01; x02; x03] 3)
                             0 (2 ^ 20))))
               = Some (FileBackedBuffer.mk 3 (mkFile [x01; x02; x03] 3) 0
                         (2 ^ 20))) by reflexivity.
  assert (H2 : 0 < FileBackedBuffer.length
                     (FileBackedBuffer.mk 3 (mkFile [x01; x02; x03] 3) 0
                        (2 ^ 20)) < 2 ^ 32) by (cbn; lia).
  assert (H3 : FileBackedBuffer.chunksize
                 (FileBackedBuffer.mk 3 (mkFile [x01; x02; x03] 3) 0
                    (2 ^ 20)) = 0) by reflexivity.
  assert (H4 : dumps (Serde := FlatJson.serde) FlatJson.work
               = Ok (skipn 26 (firstn 42 work_bytes))) by reflexivity.
  assert (H5 : len (skipn 26 (firstn 42 work_bytes)) < 2 ^ 32)
    by reflexivity.
  assert (H6 : load (Serde := FlatJson.serde)
                 (skipn 26 (firstn 42 work_bytes)) = Ok FlatJson.work)
    by reflexivity.
  split; [exact (conj H1 (conj H2 (conj H3 (conj H4 (conj H5 H6)))))|].
  exact (zero_chunksize_sends_no_payload (serde := FlatJson.serde)
           _ _ zero_world _ _ H1 H2 H3 H4 H5 H6).
Defined.

(** ** More frames in one chunk than the stack takes *)

Section Overflow.

Context {serde : Serde}.

Import FramedBuffer.

Variable f : Frame.t.
Hypothesis Hp : frame_packable f.
Hypothesis Hty : Frame.type_ f = Frame.Types.PAYLOAD.
Hypothesis Hlen : Frame.length f = 0.

(** One activation for every frame of a chunk of empty PAYLOAD frames. *)
Lemma many_frames_overflow (k : nat) :
  forall s,
    framebuffer s = [] ->
    handle_frame_fuel k s (List.concat (repeat (frame_layout f) (S k)))
    = OutOfFuel.
Proof.
  induction k as [|k IH]; intros s Hfb; [reflexivity|].
  change (List.concat (repeat (frame_layout f) (S (S k))))
    with (frame_layout f ++ List.concat (repeat (frame_layout f) (S k))).
  rewrite handle_frame_fuel_S. cbv zeta. cbn [framebuffer set_framebuffer].
  rewrite Hfb. cbn [app].
  rewrite from_data_layout by (try exact Hp; rewrite Hty; reflexivity).
  cbn [on_wire Frame.type_ Frame.length]. rewrite Hty, Hlen. cbn [negb].
  change (negb (Frame.Types.mem Frame.Types.PAYLOAD)) with false.
  cbv iota.
  rewrite consume_with_step. unfold consume_step.
  cbn [to_read set_to_read bb set_current_frame set_framebuffer].
  rewrite slice_to_0, slice_from_0, buffer_write_nil.
  cbn [to_read set_to_read set_bb Z.sub Z.eqb].
  match goal with |- context [finish ?x] =>
    rewrite (finish_PAYLOAD x (on_wire f) eq_refl Hty)
  end.
  change (List.concat (repeat (frame_layout f) (S k)))
    with (frame_layout f ++ List.concat (repeat (frame_layout f) k)).
  rewrite is_empty_layout.
  change (frame_layout f ++ List.concat (repeat (frame_layout f) k))
    with (List.concat (repeat (frame_layout f) (S k))).
  apply IH. reflexivity.
Qed.

Lemma frame_by_frame (limit : nat) (m : nat) :
  (1 <= limit)%nat ->
  forall s,
    awaiting_frame s -> to_read s = 0 -> header s = JNull ->
    exists s',
      put_all_within limit s (repeat (frame_layout f) m) = Done s'
      /\ q s' = q s ++ repeat (FramedMessage.mk (Frame.msg_id f mod 2 ^ 128)
                                 JNull (Some (spooled []))) m
      /\ awaiting_frame s' /\ to_read s' = 0 /\ header s' = JNull.
Proof.
  intros Hl. induction m as [|m IH]; intros s Hs Ht Hh.
  - exists s. cbn. rewrite app_nil_r. auto.
  - cbn [repeat put_all_within].
    assert (Hput : put_within limit s (frame_layout f)
                   = Done (mk (q s ++ [FramedMessage.mk
                                         (Frame.msg_id f mod 2 ^ 128)
                                         JNull (Some (spooled []))])
                             JNull [] FileBackedBuffer.from_temp
                             (Some (on_wire f)) 0)).
    { rewrite put_within_put.
      - unfold put. rewrite Ht. cbn [Z.eqb].
        pose proof (handle_frame_PAYLOAD s f [] [] Hs Hp Hty Hlen) as H.
        cbn [app] in H. rewrite app_nil_r in H. cbv zeta in H.
        cbn [is_empty] in H. rewrite Hh in H. exact H.
      - unfold put_within. rewrite Ht. cbn [Z.eqb].
        apply handle_frame_fuel_fits; [exact Hl|].
        destruct Hs as [-> _]. cbn [List.length].
        rewrite frame_layout_length. unfold Frame.fmt_size. lia. }
    rewrite Hput.
    match goal with |- context [put_all_within limit ?s1 _] =>
      destruct (IH s1 (conj eq_refl eq_refl) eq_refl eq_refl)
        as (s' & Hall & Hq & Hs' & Ht' & Hh')
    end.
    exists s'. split; [exact Hall|]. split; [|auto].
    rewrite Hq. cbn [q]. rewrite <- app_assoc. reflexivity.
Qed.

End Overflow.

(** X24. Every frame that ends inside a chunk takes [put] one activation
    of [handle_frame] deeper.  Whatever the recursion limit, a chunk of
    one empty PAYLOAD frame more than the stack takes activations makes
    [put] hit it, and [RecursionError] leaves the call; the same bytes
    fed one frame to a call complete a message for every frame. *)
Theorem one_put_of_many_frames_overflows {serde : Serde}
  (limit : nat) (f : Frame.t) :
  (1 <= limit)%nat ->
  frame_packable f -> Frame.type_ f = Frame.Types.PAYLOAD ->
  Frame.length f = 0 ->
  FramedBuffer.put_within limit FramedBuffer.__init__
    (List.concat (repeat (frame_layout f) (S limit)))
  = FramedBuffer.OutOfFuel
  /\ exists s,
      FramedBuffer.put_all_within limit FramedBuffer.__init__
        (repeat (frame_layout f) (S limit))
      = FramedBuffer.Done s
      /\ FramedBuffer.q s
         = repeat (FramedMessage.mk (Frame.msg_id f mod 2 ^ 128) JNull
                     (Some (spooled []))) (S limit).
Proof.
  intros Hl Hp Hty Hlen. split.
  - unfold FramedBuffer.put_within.
    cbn [FramedBuffer.to_read FramedBuffer.__init__ Z.eqb].
    apply many_frames_overflow; try assumption. reflexivity.
  - destruct (frame_by_frame f Hp Hty Hlen limit (S limit) Hl
                FramedBuffer.__init__ awaiting_frame_init eq_refl eq_refl)
      as (s & Hall & Hq & _).
    exists s. split; [exact Hall | exact Hq].
Qed.

Lemma one_put_of_many_frames_overflows_witness :
  ((1 <= 3)%nat
   /\ frame_packable (Frame.mk Frame.Types.PAYLOAD 1 0 7 1)
   /\ Frame.type_ (Frame.mk Frame.Types.PAYLOAD 1 0 7 1)
      = Frame.Types.PAYLOAD
   /\ Frame.length (Frame.mk Frame.Types.PAYLOAD 1 0 7 1) = 0)
  /\ FramedBuffer.put_within (serde := FlatJson.serde) 3
       FramedBuffer.__init__
       (List.concat
          (repeat (frame_layout (Frame.mk Frame.Types.PAYLOAD 1 0 7 1)) 4))
     = FramedBuffer.OutOfFuel
  /\ exists s,
      FramedBuffer.put_all_within (serde := FlatJson.serde) 3
        FramedBuffer.__init__
        (repeat (frame_layout (Frame.mk Frame.Types.PAYLOAD 1 0 7 1)) 4)
      = FramedBuffer.Done s
      /\ FramedBuffer.q s
         = repeat (FramedMessage.mk
                     (Frame.msg_id (Frame.mk Frame.Types.PAYLOAD 1 0 7 1)
                      mod 2 ^ 128) JNull (Some (spooled []))) 4.
Proof.
  assert (H1 : (1 <= 3)%nat) by lia.
  assert (H2 : frame_packable (Frame.mk Frame.Types.PAYLOAD 1 0 7 1))
    by (unfold frame_packable, Frame.Types.PAYLOAD; cbn; lia).
  assert (H3 : Frame.type_ (Frame.mk Frame.Types.PAYLOAD 1 0 7 1)
               = Frame.Types.PAYLOAD) by reflexivity.
  assert (H4 : Frame.length (Frame.mk Frame.Types.PAYLOAD 1 0 7 1) = 0)
    by reflexivity.
  split; [exact (conj H1 (conj H2 (conj H3 H4)))|].
  exact (one_put_of_many_frames_overflows (serde := FlatJson.serde)
           3 _ H1 H2 H3 H4).
Defined.
